(** * Batch analysis pipeline of [magic_pdf/model/batch_analyze.py]

    A shallow embedding of [BatchAnalyze.__call__] (the batch orchestrator)
    and of [doc_batch_analyze] (the document-level driver), followed by the
    properties of the two functions.

    Python objects are modelled as follows.
    - A [str] whose text matters (a table markup) is a list of Unicode
      code points; names and dict keys, which the code only compares with
      ASCII literals, are [string]s.
    - A region is a Python dict with string keys: a [gmap string pyval].
    - Region dicts are shared between the per-image region list and the lists
      handed out by the region splitter, and are mutated in place
      ([res["html"] = html_code]).  They live in a heap ([list region],
      a reference is an index) and lists hold references.
    - Calls into collaborators (models, dataset, cleanup, logger) are recorded
      as events, in the order in which the code performs them.
    - [time.time()] reads a clock that is part of the world; time is counted
      in integer clock units.
    - A Python exception is an outcome [Raise e]; a local variable that may be
      unbound is an [option].
    - The models and helpers that the file imports are functions: they
      answer every call, and the same call gets the same answer.  The lists
      they return are distinct list objects that hold fresh dicts.
    - [round(..., 2)] on a logged duration is not represented: a log line
      carries the difference of the two clock readings. *)

From Stdlib Require Import ZArith Ascii String.
From stdpp Require Import base option list gmap strings.

Local Open Scope string_scope.
Local Open Scope list_scope.
Local Open Scope nat_scope.

(** ** Python strings *)

Module PyStr.

(** A [str] is a sequence of Unicode code points. *)
Abbreviation str := (list N).

(** A string literal of the source whose characters are all ASCII. *)
Definition lit (s : string) : str :=
  map N_of_ascii (list_ascii_of_string s).

(** [c.isspace()] for one code point, as [str.strip()] tests it: the ASCII
    white space U+0009..U+000D and U+0020, the separators U+001C..U+001F,
    U+0085, U+00A0, U+1680, U+2000..U+200A, U+2028, U+2029, U+202F, U+205F
    and U+3000. *)
Definition isspace (c : N) : bool :=
  ((9 <=? c) && (c <=? 13) || (28 <=? c) && (c <=? 32)
   || (c =? 133) || (c =? 160) || (c =? 5760)
   || (8192 <=? c) && (c <=? 8202)
   || (c =? 8232) || (c =? 8233) || (c =? 8239) || (c =? 8287)
   || (c =? 12288))%N.

(** [s.lstrip()] *)
Fixpoint lstrip (s : str) : str :=
  match s with
  | [] => []
  | c :: s' => if isspace c then lstrip s' else s
  end.

(** [s.rstrip()] *)
Definition rstrip (s : str) : str := reverse (lstrip (reverse s)).

(** [s.strip()]: white space is removed at both ends. *)
Definition strip (s : str) : str := rstrip (lstrip s).

(** [s.startswith(prefix)] *)
Fixpoint startswith (s prefix : str) {struct prefix} : bool :=
  match prefix, s with
  | [], _ => true
  | _ :: _, [] => false
  | a :: prefix', b :: s' => (a =? b)%N && startswith s' prefix'
  end.

(** [s.endswith(suffix)] *)
Definition endswith (s suffix : str) : bool :=
  startswith (reverse s) (reverse suffix).

(** Truth value of an expression that holds [None] or a [str]: a [str] is
    true when it is not empty. *)
Definition truthy (o : option str) : bool :=
  match o with
  | Some (_ :: _) => true
  | _ => false
  end.

End PyStr.

(** ** Values, regions, heap *)

(** The values stored under the keys of a region dict.  The orchestrator
    itself only ever stores a string (under ["html"]). *)
Inductive pyval :=
| PInt (z : Z)
| PStr (s : PyStr.str)
| PNums (l : list Z).

(** A region: a Python dict with string keys. *)
Abbreviation region := (gmap string pyval).

(** A reference to a region dict: an index in the heap. *)
Abbreviation loc := nat.

(** ** Exceptions and events *)

Inductive exn :=
| CUDA_NOT_AVAILABLE (msg : string)
| UnboundLocalError (name : string)
| IndexError
| AttributeError (msg : string).

Inductive logmsg :=
| OcrTime (cost : Z)            (* f"ocr time: {ocr_cost}" *)
| DetTime (cost : Z)            (* f"det time: {ocr_cost}" *)
| TableTime (cost : Z)          (* f"table time: {...}" *)
| TableExceedsMaxTime (max_time : Z)
| TableNoExpectedEnd            (* "... not found expected HTML table end" *)
| TableNoHtmlReturn.            (* "... not get html return" *)

Inductive level := Info | Warning.

Inductive event :=
| EGetModel (ocr show_log : bool) (lang layout_model : option string)
            (formula_enable table_enable : option bool)
| EDatasetLen
| EGetPage (index : nat)
| ELayoutModel
| ELayoutBatchPredict (batch_size : Z)
| EMfdBatchPredict (batch_size : Z)
| EMfrBatchPredict (batch_size : Z)
| ECleanVram (device : string) (vram_threshold : Z)
| EOcr (rec : option bool)
| ETableModel (name : string)
| ELog (lvl : level) (m : logmsg)
| ECleanMemory.

(** ** The world and the monad of effects *)

Record world := World {
  heap : list region;      (* the region dicts allocated so far *)
  wall : nat -> Z;         (* the n-th reading of [time.time()] *)
  ticks : nat              (* how many readings were taken *)
}.

Inductive outcome (A : Type) :=
| Ok (a : A)
| Raise (e : exn).
Arguments Ok {A} a.
Arguments Raise {A} e.

Definition M (A : Type) : Type := world -> outcome A * world * list event.

Definition ret {A} (a : A) : M A := fun w => (Ok a, w, []).

Definition bind {A B} (m : M A) (f : A -> M B) : M B := fun w =>
  match m w with
  | (Ok a, w1, t1) => let '(r, w2, t2) := f a w1 in (r, w2, t1 ++ t2)
  | (Raise e, w1, t1) => (Raise e, w1, t1)
  end.

#[global] Instance M_ret : MRet M := @ret.
#[global] Instance M_bind : MBind M := fun A B f m => bind m f.

Definition raise {A} (e : exn) : M A := fun w => (Raise e, w, []).

(** A call into a collaborator: the event is recorded, the value returned. *)
Definition call {A} (e : event) (a : A) : M A := fun w => (Ok a, w, [e]).

Definition emit (e : event) : M unit := call e tt.

(** [time.time()] *)
Definition time_time : M Z := fun w =>
  (Ok (wall w (ticks w)),
   {| heap := heap w; wall := wall w; ticks := S (ticks w) |}, []).

(** A freshly created region dict. *)
Definition alloc (r : region) : M loc := fun w =>
  (Ok (length (heap w)),
   {| heap := heap w ++ [r]; wall := wall w; ticks := ticks w |}, []).

(** Reading through a reference.  References are only ever produced by
    [alloc], so the default is not reached. *)
Definition deref (h : list region) (l : loc) : region := default ∅ (h !! l).

Definition heap_now : M (list region) := fun w => (Ok (heap w), w, []).

Definition read (l : loc) : M region := h ← heap_now; mret (deref h l).

(** [res[key] = v] on the dict behind [l]. *)
Definition setitem (l : loc) (key : string) (v : pyval) : M unit := fun w =>
  (Ok tt,
   {| heap := alter (insert key v) l (heap w); wall := wall w;
      ticks := ticks w |}, []).

(** [for x in xs: s = body x s] *)
Fixpoint for_each {A S} (xs : list A) (body : A -> S -> M S) (s : S) : M S :=
  match xs with
  | [] => ret s
  | x :: xs' => s' ← body x s; for_each xs' body s'
  end.

(** The list objects returned by a collaborator hold fresh dicts. *)
Definition alloc_list (rs : list region) : M (list loc) :=
  for_each rs (fun r acc => l ← alloc r; mret (acc ++ [l])) [].

Definition alloc_lists (rss : list (list region)) : M (list (list loc)) :=
  for_each rss (fun rs acc => ls ← alloc_list rs; mret (acc ++ [ls])) [].

(** ** Collaborators *)

(** [magic_pdf.config.constants.MODEL_NAME]: the names the orchestrator
    compares against.  The constants are declared outside this file. *)
Record MODEL_NAME_t := {
  LAYOUTLMv3 : string;
  DocLayout_YOLO : string;
  STRUCT_EQTABLE : string;
  TABLE_MASTER : string;
  RAPID_TABLE : string
}.

Definition YOLO_LAYOUT_BASE_BATCH_SIZE : Z := 4.
Definition MFD_BASE_BATCH_SIZE : Z := 1.
Definition MFR_BASE_BATCH_SIZE : Z := 16.

(** What [__call__] evaluates to: it has no [return] statement. *)
Inductive pyobj :=
| PyNone
| PyList (l : list (list loc)).

Section Pipeline.

(** Page images (numpy arrays), PIL images, the raw formula detections and
    the raw lines of an OCR result are opaque to this file. *)
Context {Img Pil MfdRes OcrLine : Type}.

(** [CustomPEKModel]: the attributes and the methods of the sub-models that
    [__call__] uses.  A keyword argument that a call site leaves out is
    [None]. *)
Record CustomPEKModel := {
  layout_model_name : string;
  (* self.model.layout_model(image, ignore_catids=...) *)
  layout_model : Img -> list Z -> list region;
  (* self.model.layout_model.batch_predict(images, batch_size) *)
  layout_model_batch_predict : list Img -> Z -> list (list region);
  apply_formula : bool;
  mfd_model_batch_predict : list Img -> Z -> list MfdRes;
  mfr_model_batch_predict : list MfdRes -> list Img -> Z -> list (list region);
  device : string;
  apply_ocr : bool;
  (* self.model.ocr_model.ocr(new_image, mfd_res=..., rec=...) *)
  ocr_model_ocr : Img -> list region -> option bool ->
                  list (option (list OcrLine));
  apply_table : bool;
  table_model_name : string;
  (* struct_eqtable: self.model.table_model.predict(new_image, "html") *)
  table_model_predict_fmt : Pil -> string -> list PyStr.str;
  (* tablemaster: self.model.table_model.img2html(new_image) *)
  table_model_img2html : Pil -> option PyStr.str;
  (* rapid_table: self.model.table_model.predict(new_image), a triple
     html_code, table_cell_bboxes, elapse *)
  table_model_predict : Pil -> option PyStr.str * list (list Z) * Z;
  table_max_time : Z
}.

(** The helper functions imported from [model_utils], [ocr_utils], PIL and
    cv2.  The splitter receives the region list (each reference with the
    dict behind it) and hands out references. *)
Record Utils := {
  MODEL_NAME : MODEL_NAME_t;
  (* Image.fromarray(image) *)
  fromarray : Img -> Pil;
  (* cv2.cvtColor(np.asarray(new_image), cv2.COLOR_RGB2BGR) *)
  cvtColor_RGB2BGR : Pil -> Img;
  (* crop_img(res, pil_img, crop_paste_x=..., crop_paste_y=...) *)
  crop_img : region -> Pil -> option Z -> option Z -> Pil * list Z;
  get_res_list_from_layout_res :
    list (loc * region) -> list loc * list loc * list region;
  get_adjusted_mfdetrec_res : list region -> list Z -> list region;
  get_ocr_result_list : list OcrLine -> list Z -> list region
}.

(** [class BatchAnalyze], lines 31-34. *)
Record BatchAnalyze := {
  model : CustomPEKModel;
  batch_ratio : Z
}.

Variable U : Utils.

(** A collaborator call that returns a list of fresh region dicts. *)
Definition call_regions (e : event) (rs : list region) : M (list loc) :=
  rs ← call e rs; alloc_list rs.

Definition call_region_lists (e : event) (rss : list (list region))
  : M (list (list loc)) :=
  rss ← call e rss; alloc_lists rss.

(** Lines 37-47: the layout stage.  The result is the local variable
    [images_layout_res], unbound when neither branch is taken. *)
Definition layout_stage (self : BatchAnalyze) (images : list Img)
  : M (option (list (list loc))) :=
  if String.eqb (layout_model_name (model self)) (LAYOUTLMv3 (MODEL_NAME U))
  then
    images_layout_res ←
      for_each images (fun image images_layout_res =>
        layout_res ←
          call_regions ELayoutModel (layout_model (model self) image []);
        mret (images_layout_res ++ [layout_res])) [];
    mret (Some images_layout_res)
  else if String.eqb (layout_model_name (model self))
                     (DocLayout_YOLO (MODEL_NAME U))
  then
    let batch_size := (batch_ratio self * YOLO_LAYOUT_BASE_BATCH_SIZE)%Z in
    images_layout_res ←
      call_region_lists (ELayoutBatchPredict batch_size)
        (layout_model_batch_predict (model self) images batch_size);
    mret (Some images_layout_res)
  else mret None.

(** Line 62: [images_layout_res[image_index] += images_formula_list[image_index]].
    The target list is evaluated first, then the right-hand side; the list
    object is extended in place. *)
Definition add_formulas (images_formula_list : list (list loc))
  (image_index : nat) (images_layout_res : option (list (list loc)))
  : M (option (list (list loc))) :=
  match images_layout_res with
  | None => raise (UnboundLocalError "images_layout_res")
  | Some ilr =>
    match ilr !! image_index with
    | None => raise IndexError
    | Some layout_res =>
      match images_formula_list !! image_index with
      | None => raise IndexError
      | Some formulas =>
        mret (Some (<[image_index := layout_res ++ formulas]> ilr))
      end
    end
  end.

(** Lines 49-62: the formula stage. *)
Definition formula_stage (self : BatchAnalyze) (images : list Img)
  (images_layout_res : option (list (list loc)))
  : M (option (list (list loc))) :=
  if apply_formula (model self) then
    let mfd_size := (batch_ratio self * MFD_BASE_BATCH_SIZE)%Z in
    images_mfd_res ←
      call (EMfdBatchPredict mfd_size)
           (mfd_model_batch_predict (model self) images mfd_size);
    let mfr_size := (batch_ratio self * MFR_BASE_BATCH_SIZE)%Z in
    images_formula_list ←
      call_region_lists (EMfrBatchPredict mfr_size)
        (mfr_model_batch_predict (model self) images_mfd_res images mfr_size);
    for_each (seq 0 (length images)) (add_formulas images_formula_list)
             images_layout_res
  else mret images_layout_res.

(** Lines 78-101: one OCR candidate.  [layout_res] is the list object
    [images_layout_res[index]]; [layout_res.extend] changes it in place. *)
Definition ocr_region (self : BatchAnalyze) (index : nat) (pil_img : Pil)
  (single_page_mfdetrec_res : list region) (res : loc)
  (images_layout_res : list (list loc)) : M (list (list loc)) :=
  r ← read res;
  let '(new_image, useful_list) := crop_img U r pil_img (Some 50%Z) (Some 50%Z) in
  let adjusted_mfdetrec_res :=
    get_adjusted_mfdetrec_res U single_page_mfdetrec_res useful_list in
  let new_image := cvtColor_RGB2BGR U new_image in
  out ← (if apply_ocr (model self) then
           call (EOcr None)
             (ocr_model_ocr (model self) new_image adjusted_mfdetrec_res None)
         else
           call (EOcr (Some false))
             (ocr_model_ocr (model self) new_image adjusted_mfdetrec_res
                            (Some false)));
  (* [...][0] *)
  ocr_res ← match out with
            | [] => raise IndexError
            | x :: _ => mret x
            end;
  match ocr_res with
  | Some (line :: lines) =>
    ocr_result_list ←
      alloc_list (get_ocr_result_list U (line :: lines) useful_list);
    mret (alter (fun layout_res => layout_res ++ ocr_result_list)
                index images_layout_res)
  | _ => mret images_layout_res
  end.

(** Lines 115-128: the table backend selected by [table_model_name]. *)
Definition table_html_code (self : BatchAnalyze) (new_image : Pil)
  : M (option PyStr.str) :=
  let name := table_model_name (model self) in
  if String.eqb name (STRUCT_EQTABLE (MODEL_NAME U)) then
    table_result ←
      call (ETableModel name)
           (table_model_predict_fmt (model self) new_image "html");
    mret (match table_result with
          | [] => None
          | html_code :: _ => Some html_code
          end)
  else if String.eqb name (TABLE_MASTER (MODEL_NAME U)) then
    call (ETableModel name) (table_model_img2html (model self) new_image)
  else if String.eqb name (RAPID_TABLE (MODEL_NAME U)) then
    r ← call (ETableModel name) (table_model_predict (model self) new_image);
    let '(html_code, table_cell_bboxes, elapse) := r in
    mret html_code
  else mret None.

(** The test of lines 136-138. *)
Definition expected_ending (html_code : PyStr.str) : bool :=
  PyStr.endswith (PyStr.strip html_code) (PyStr.lit "</html>")
  || PyStr.endswith (PyStr.strip html_code) (PyStr.lit "</table>").

(** Lines 135-148: the returned markup is checked and attached. *)
Definition attach_html (res : loc) (html_code : option PyStr.str) : M unit :=
  if PyStr.truthy html_code then
    match html_code with
    | Some s =>
      if expected_ending s then setitem res "html" (PStr s)
      else emit (ELog Warning TableNoExpectedEnd)
    | None => mret tt
    end
  else emit (ELog Warning TableNoHtmlReturn).

(** Lines 113-148: one table candidate. *)
Definition table_region (self : BatchAnalyze) (pil_img : Pil) (res : loc)
  : M unit :=
  r ← read res;
  let '(new_image, _) := crop_img U r pil_img None None in
  single_table_start_time ← time_time;
  html_code ← table_html_code self new_image;
  now ← time_time;
  let run_time := (now - single_table_start_time)%Z in
  _ ← (if (run_time >? table_max_time (model self))%Z
       then emit (ELog Warning
                       (TableExceedsMaxTime (table_max_time (model self))))
       else mret tt);
  attach_html res html_code.

(** Lines 110-149: the table stage of one image. *)
Definition table_stage (self : BatchAnalyze) (pil_img : Pil)
  (table_res_list : list loc) : M unit :=
  if apply_table (model self) then
    table_start ← time_time;
    _ ← for_each table_res_list (fun res _ => table_region self pil_img res) tt;
    now ← time_time;
    emit (ELog Info (TableTime (now - table_start)%Z))
  else mret tt.

(** Lines 69-149: the body of the per-image loop.  [layout_res] names the
    list object [images_layout_res[index]]; the splitter sees its
    references together with the dicts behind them. *)
Definition process_image (self : BatchAnalyze) (images : list Img)
  (index : nat) (images_layout_res : option (list (list loc)))
  : M (option (list (list loc))) :=
  match images_layout_res with
  | None => raise (UnboundLocalError "images_layout_res")
  | Some ilr =>
    layout_res ← match ilr !! index with
                 | None => raise IndexError
                 | Some layout_res => mret layout_res
                 end;
    image ← match images !! index with
            | None => raise IndexError
            | Some image => mret image
            end;
    let pil_img := fromarray U image in
    h ← heap_now;
    let '(ocr_res_list, table_res_list, single_page_mfdetrec_res) :=
      get_res_list_from_layout_res U
        (map (fun l => (l, deref h l)) layout_res) in
    ocr_start ← time_time;
    ilr ← for_each ocr_res_list
            (ocr_region self index pil_img single_page_mfdetrec_res) ilr;
    now ← time_time;
    let ocr_cost := (now - ocr_start)%Z in
    _ ← emit (ELog Info (if apply_ocr (model self)
                         then OcrTime ocr_cost else DetTime ocr_cost));
    _ ← table_stage self pil_img table_res_list;
    mret (Some ilr)
  end.

(** Lines 37-149 of [__call__], with the final value of the local
    [images_layout_res]. *)
Definition call_body (self : BatchAnalyze) (images : list Img)
  : M (option (list (list loc))) :=
  images_layout_res ← layout_stage self images;
  images_layout_res ← formula_stage self images images_layout_res;
  _ ← emit (ECleanVram (device (model self)) 8);
  for_each (seq 0 (length images)) (process_image self images)
           images_layout_res.

(** [BatchAnalyze.__call__], lines 36-149.  The body ends at line 149
    without a [return]: the call evaluates to [None]. *)
Definition BatchAnalyze_call (self : BatchAnalyze) (images : list Img)
  : M pyobj :=
  _ ← call_body self images;
  mret PyNone.

End Pipeline.

(** ** The document-level driver *)

Section Driver.

Context {Img Pil MfdRes OcrLine : Type}.

(** What [dataset.get_page(index).get_image()] gives: the keys ["img"],
    ["width"] and ["height"]. *)
Record PageData := {
  img : Img;
  width : Z;
  height : Z
}.

(** A dataset: its pages, in order. *)
Local Abbreviation Dataset := (list PageData).

(** [page_info] and [page_dict], lines 221-222. *)
Record PageInfo := {
  page_no : nat;
  page_height : Z;
  page_width : Z
}.

Record PageDict := {
  layout_dets : list loc;
  page_info : PageInfo
}.

Record InferenceResult := {
  model_json : list PageDict;
  dataset_of : Dataset
}.

(** The execution environment of the driver: [torch.cuda.is_available()] and
    [ModelSingleton().get_model]. *)
Record Env := {
  cuda_is_available : bool;
  get_model : bool -> bool -> option string -> option string ->
              option bool -> option bool ->
              @CustomPEKModel Img Pil MfdRes OcrLine
}.

Variable U : @Utils Img Pil OcrLine.
Variable env : Env.

(** [len(dataset)] *)
Definition dataset_len (dataset : Dataset) : M nat :=
  call EDatasetLen (length dataset).

(** [dataset.get_page(index).get_image()] *)
Definition get_page_image (dataset : Dataset) (index : nat) : M PageData :=
  match dataset !! index with
  | None => _ ← emit (EGetPage index); raise IndexError
  | Some page_data => call (EGetPage index) page_data
  end.

(** [start_page_id <= index <= end_page_id] *)
Definition in_range (start_page_id : Z) (index : nat) (end_page_id : Z)
  : bool :=
  (start_page_id <=? Z.of_nat index)%Z && (Z.of_nat index <=? end_page_id)%Z.

(** Line 192: [end_page_id if end_page_id else len(dataset)].  [None] and
    [0] are the values that are not true. *)
Definition resolve_end_page_id (end_page_id : option Z) (dataset : Dataset)
  : M Z :=
  match end_page_id with
  | None => n ← dataset_len dataset; mret (Z.of_nat n)
  | Some e =>
    if (e =? 0)%Z then n ← dataset_len dataset; mret (Z.of_nat n)
    else mret e
  end.

(** Lines 203-208: the image batch. *)
Definition build_images (dataset : Dataset) (start_page_id end_page_id : Z)
  : M (list Img) :=
  n ← dataset_len dataset;
  for_each (seq 0 n) (fun index images =>
    if in_range start_page_id index end_page_id then
      img_dict ← get_page_image dataset index;
      mret (images ++ [img img_dict])
    else mret images) [].

(** [analyze_result.pop(0)] *)
Definition pop0 (analyze_result : pyobj) : M (list loc * pyobj) :=
  match analyze_result with
  | PyNone =>
    raise (AttributeError "'NoneType' object has no attribute 'pop'")
  | PyList [] => raise IndexError
  | PyList (result :: rest) => mret (result, PyList rest)
  end.

(** Lines 212-223: one page record. *)
Definition page_record (dataset : Dataset) (start_page_id end_page_id : Z)
  (index : nat) (st : pyobj * list PageDict) : M (pyobj * list PageDict) :=
  let '(analyze_result, model_json) := st in
  img_dict ← get_page_image dataset index;
  let page_width := width img_dict in
  let page_height := height img_dict in
  '(result, analyze_result) ←
    (if in_range start_page_id index end_page_id then pop0 analyze_result
     else mret ([], analyze_result));
  let page_info := {| page_no := index; page_height := page_height;
                      page_width := page_width |} in
  let page_dict := {| layout_dets := result; page_info := page_info |} in
  mret (analyze_result, model_json ++ [page_dict]).

(** [doc_batch_analyze], lines 152-228. *)
Definition doc_batch_analyze (dataset : Dataset) (ocr show_log : bool)
  (start_page_id : Z) (end_page_id : option Z)
  (lang layout_model : option string)
  (formula_enable table_enable : option bool) (batch_ratio : option Z)
  : M InferenceResult :=
  if negb (cuda_is_available env) then
    raise (CUDA_NOT_AVAILABLE "batch analyze not support in CPU mode")
  else
    let lang := match lang with
                | Some s => if String.eqb s EmptyString then None else lang
                | None => lang
                end in
    let batch_ratio := match batch_ratio with
                       | None => 1%Z
                       | Some b => b
                       end in
    end_page_id ← resolve_end_page_id end_page_id dataset;
    custom_model ←
      call (EGetModel ocr show_log lang layout_model formula_enable
                      table_enable)
           (get_model env ocr show_log lang layout_model formula_enable
                      table_enable);
    let batch_model := {| model := custom_model; batch_ratio := batch_ratio |} in
    images ← build_images dataset start_page_id end_page_id;
    analyze_result ← BatchAnalyze_call U batch_model images;
    n ← dataset_len dataset;
    '(_, model_json) ←
      for_each (seq 0 n) (page_record dataset start_page_id end_page_id)
               (analyze_result, []);
    _ ← emit ECleanMemory;
    mret {| model_json := model_json; dataset_of := dataset |}.

End Driver.

Abbreviation Dataset Img := (list (@PageData Img)).

(** ** Observations on a run *)

Definition result_of {A} (r : outcome A * world * list event) : outcome A :=
  r.1.1.
Definition world_of {A} (r : outcome A * world * list event) : world := r.1.2.
Definition trace_of {A} (r : outcome A * world * list event) : list event :=
  r.2.

Definition set_heap (h : list region) (w : world) : world :=
  {| heap := h; wall := wall w; ticks := ticks w |}.

Definition tick (w : world) : world :=
  {| heap := heap w; wall := wall w; ticks := S (ticks w) |}.

(** The error raised when the local [images_layout_res] is read before it is
    bound. *)
Definition unbound : exn := UnboundLocalError "images_layout_res".

(** The pages of [dataset] whose index, counted from [k], lies in the
    range. *)
Fixpoint pages_in_range {Img} (start_page_id end_page_id : Z) (k : nat)
  (dataset : list (@PageData Img)) : list (@PageData Img) :=
  match dataset with
  | [] => []
  | p :: dataset' =>
    if in_range start_page_id k end_page_id
    then p :: pages_in_range start_page_id end_page_id (S k) dataset'
    else pages_in_range start_page_id end_page_id (S k) dataset'
  end.

(** The page records that lines 211-223 build for the pages of [dataset],
    counted from [k], when the orchestrator's result is the list
    [results]: an in-range page takes the next result, any other page the
    empty list. *)
Fixpoint page_records {Img} (start_page_id end_page_id : Z) (k : nat)
  (dataset : list (@PageData Img)) (results : list (list loc))
  : list PageDict :=
  match dataset with
  | [] => []
  | p :: dataset' =>
    let info := {| page_no := k; page_height := height p;
                   page_width := width p |} in
    if in_range start_page_id k end_page_id then
      match results with
      | [] => []
      | result :: results' =>
        {| layout_dets := result; page_info := info |}
        :: page_records start_page_id end_page_id (S k) dataset' results'
      end
    else
      {| layout_dets := []; page_info := info |}
      :: page_records start_page_id end_page_id (S k) dataset' results
  end.

(** The local [images_layout_res] is bound to a list of [n] region lists. *)
Definition bound_with_length (n : nat) (o : option (list (list loc))) : Prop :=
  exists ilr, o = Some ilr /\ length ilr = n.

(** The test of lines 135-138 on a returned markup, as the code evaluates
    it. *)
Definition markup_ok (html_code : option PyStr.str) : bool :=
  PyStr.truthy html_code
  && match html_code with
     | Some s => expected_ending s
     | None => false
     end.

(** White space: the code points that [str.isspace] accepts and
    [str.strip] removes, one by one. *)
Definition white_space : list N :=
  [ 0x09; 0x0A; 0x0B; 0x0C; 0x0D; 0x1C; 0x1D; 0x1E; 0x1F; 0x20; 0x85; 0xA0;
    0x1680; 0x2000; 0x2001; 0x2002; 0x2003; 0x2004; 0x2005; 0x2006; 0x2007;
    0x2008; 0x2009; 0x200A; 0x2028; 0x2029; 0x202F; 0x205F; 0x3000 ]%N.

Definition is_white (c : N) : Prop := c ∈ white_space.

(** [t] is the trimmed text of [s]: [s] without the white space at its
    beginning and at its end. *)
Definition trimmed (s t : PyStr.str) : Prop :=
  exists l r, s = l ++ t ++ r /\
              Forall is_white l /\ Forall is_white r /\
              (forall c, head t = Some c -> ~ is_white c) /\
              (forall c, last t = Some c -> ~ is_white c).

(** The two recognised closing tags. *)
Definition closing_tags : list PyStr.str :=
  [PyStr.lit "</html>"; PyStr.lit "</table>"].

(** The condition of the claim on a returned markup, in the words of the
    specification: it is present, it is not empty, and its trimmed text ends
    with a recognised closing tag. *)
Definition valid_markup (html_code : option PyStr.str) : Prop :=
  exists s t tag, html_code = Some s /\ s <> [] /\ trimmed s t /\
                  tag ∈ closing_tags /\ tag `suffix_of` t.

(** The two warnings of a failed table recognition. *)
Definition is_failure_warning (e : event) : bool :=
  match e with
  | ELog Warning TableNoExpectedEnd | ELog Warning TableNoHtmlReturn => true
  | _ => false
  end.

(** What lines 129-133 log for a measured [run_time]. *)
Definition budget_warning (table_max_time run_time : Z) : list event :=
  if (run_time >? table_max_time)%Z
  then [ELog Warning (TableExceedsMaxTime table_max_time)]
  else [].

(** The log lines whose presence or text depends on the clock. *)
Definition timed (e : event) : bool :=
  match e with
  | ELog _ (OcrTime _) | ELog _ (DetTime _) | ELog _ (TableTime _)
  | ELog _ (TableExceedsMaxTime _) => true
  | _ => false
  end.

Definition untimed (t : list event) : list event :=
  List.filter (fun e => negb (timed e)) t.

(** Two runs agree: same outcome, same heap, same events apart from the
    timed log lines. *)
Definition same_run {A} (r1 r2 : outcome A * world * list event) : Prop :=
  result_of r1 = result_of r2 /\
  heap (world_of r1) = heap (world_of r2) /\
  untimed (trace_of r1) = untimed (trace_of r2).

(** Two computations agree whenever they start from the same heap, whatever
    the clocks. *)
Definition clock_free2 {A} (m1 m2 : M A) : Prop :=
  forall w1 w2, heap w1 = heap w2 -> same_run (m1 w1) (m2 w2).

(** The region lists at the end of a run, read through the final heap. *)
Definition final_regions
  (r : outcome (option (list (list loc))) * world * list event)
  : option (list (list region)) :=
  match result_of r with
  | Ok (Some images_layout_res) =>
    Some (map (map (deref (heap (world_of r)))) images_layout_res)
  | _ => None
  end.

(** Calls of the layout and formula models. *)
Definition is_stage_event (e : event) : bool :=
  match e with
  | ELayoutModel | ELayoutBatchPredict _ | EMfdBatchPredict _
  | EMfrBatchPredict _ => true
  | _ => false
  end.

(** What the per-image loop does: OCR calls, table calls, log lines. *)
Definition is_per_image_event (e : event) : bool :=
  match e with
  | EOcr _ | ETableModel _ | ELog _ _ => true
  | _ => false
  end.

(** The line that closes the OCR stage of one image. *)
Definition is_ocr_time_log (e : event) : bool :=
  match e with
  | ELog Info (OcrTime _) | ELog Info (DetTime _) => true
  | _ => false
  end.

(** "The cleanup comes after the per-image processing": nothing of the
    per-image loop follows a cleanup. *)
Definition cleanup_after_processing (t : list event) : Prop :=
  forall pre post device vram_threshold,
    t = pre ++ ECleanVram device vram_threshold :: post ->
    Forall (fun e => is_per_image_event e = false) post.

(** Every event of every run of [m] satisfies [P]. *)
Definition emits {A} (P : event -> bool) (m : M A) : Prop :=
  forall w, Forall (fun e => P e = true) (trace_of (m w)).

(** How many images closed their OCR stage in a trace. *)
Definition ocr_logs (t : list event) : nat :=
  length (List.filter is_ocr_time_log t).

(** Every run of [m] that completes logged [n] closed OCR stages. *)
Definition counts {A} (n : nat) (m : M A) : Prop :=
  forall w a w' t, m w = (Ok a, w', t) -> ocr_logs t = n.

(** The references of consecutive blocks of fresh dicts. *)
Fixpoint blocks (n : nat) (rss : list (list region)) : list (list loc) :=
  match rss with
  | [] => []
  | rs :: rss' => seq n (length rs) :: blocks (n + length rs) rss'
  end.

(** ** Further observations *)

(** Every exception of every run of [m] satisfies [P]. *)
Definition raises {A} (P : exn -> Prop) (m : M A) : Prop :=
  forall w e w' t, m w = (Raise e, w', t) -> P e.

(** The layout model name is one of the two that line 37 and line 43 test
    for. *)
Definition recognised_layout {Img Pil MfdRes OcrLine}
  (U : @Utils Img Pil OcrLine) (self : @BatchAnalyze Img Pil MfdRes OcrLine)
  : Prop :=
  layout_model_name (model self) = LAYOUTLMv3 (MODEL_NAME U) \/
  layout_model_name (model self) = DocLayout_YOLO (MODEL_NAME U).

(** Every dict of [h] is still in [h'], at the same reference, with the
    same value under every key but ["html"]. *)
Definition keeps_regions (h h' : list region) : Prop :=
  forall l r, h !! l = Some r ->
    exists r', h' !! l = Some r' /\
               forall key, key <> "html" -> r' !! key = r !! key.

(** Every run of [m] takes the heap to a heap related by [R]. *)
Definition heap_step {A} (R : list region -> list region -> Prop) (m : M A)
  : Prop :=
  forall w, R (heap w) (heap (world_of (m w))).

(** No call of a table backend and no warning. *)
Definition no_table_event (e : event) : bool :=
  match e with
  | ETableModel _ | ELog Warning _ | ELog _ (TableTime _) => false
  | _ => true
  end.

(** The end of the range after line 192. *)
Definition effective_end {Img} (end_page_id : option Z)
  (dataset : list (@PageData Img)) : Z :=
  match end_page_id with
  | Some e => if (e =? 0)%Z then Z.of_nat (length dataset) else e
  | None => Z.of_nat (length dataset)
  end.

(** The events of the orchestrator and of the driver before the final
    [clean_memory()]. *)
Definition not_clean_memory (e : event) : bool :=
  match e with
  | ECleanMemory => false
  | _ => true
  end.

(** A computation that ends with [clean_memory()]: the cleanup is the last
    event of a run that returns and is absent from a run that raises. *)
Definition cleans_at_the_end {A} (m : M A) : Prop :=
  forall w,
    match result_of (m w) with
    | Ok _ => exists t, trace_of (m w) = t ++ [ECleanMemory] /\
                        Forall (fun e => not_clean_memory e = true) t
    | Raise _ => Forall (fun e => not_clean_memory e = true) (trace_of (m w))
    end.

(** What the OCR switch allows in a trace: the [rec] argument of a call of
    the OCR engine and the label of the page's time. *)
Definition ocr_event_ok (apply_ocr : bool) (e : event) : bool :=
  match e with
  | EOcr None => apply_ocr
  | EOcr (Some false) => negb apply_ocr
  | EOcr (Some true) => false
  | ELog Info (OcrTime _) => apply_ocr
  | ELog Info (DetTime _) => negb apply_ocr
  | _ => true
  end.

(** The region lists [ilr'] are the lists [ilr] with references appended:
    as many lists, and each list of [ilr] is the beginning of its list in
    [ilr']. *)
Definition grows (ilr ilr' : list (list loc)) : Prop :=
  length ilr' = length ilr /\
  forall i l0, ilr !! i = Some l0 ->
    exists l, ilr' !! i = Some l /\ l0 `prefix_of` l.

(** The local [images_layout_res] is bound to lists grown from [ilr0]. *)
Definition grown_from (ilr0 : list (list loc))
  (o : option (list (list loc))) : Prop :=
  exists ilr, o = Some ilr /\ grows ilr0 ilr.

(** The table model name is none of the three that lines 116-125 test
    for. *)
Definition unknown_table_model {Img Pil MfdRes OcrLine}
  (U : @Utils Img Pil OcrLine) (self : @BatchAnalyze Img Pil MfdRes OcrLine)
  : Prop :=
  table_model_name (model self) <> STRUCT_EQTABLE (MODEL_NAME U) /\
  table_model_name (model self) <> TABLE_MASTER (MODEL_NAME U) /\
  table_model_name (model self) <> RAPID_TABLE (MODEL_NAME U).

(** A call of a table backend. *)
Definition is_table_call (e : event) : bool :=
  match e with
  | ETableModel _ => true
  | _ => false
  end.

(** The warning of line 146. *)
Definition is_no_html_warning (e : event) : bool :=
  match e with
  | ELog Warning TableNoHtmlReturn => true
  | _ => false
  end.

(** A call of the layout model, of either kind. *)
Definition is_layout_call (e : event) : bool :=
  match e with
  | ELayoutModel | ELayoutBatchPredict _ => true
  | _ => false
  end.

(** A call of the formula detector or of the formula recogniser. *)
Definition is_formula_call (e : event) : bool :=
  match e with
  | EMfdBatchPredict _ | EMfrBatchPredict _ => true
  | _ => false
  end.

(** What may follow the request for the model in a run of the driver with
    the batch ratio [ratio]: no second request, and batched calls of the
    sizes that the ratio gives. *)
Definition batch_event_ok (ratio : Z) (e : event) : bool :=
  match e with
  | EGetModel _ _ _ _ _ _ => false
  | ELayoutBatchPredict n => (n =? 4 * ratio)%Z
  | EMfdBatchPredict n => (n =? ratio)%Z
  | EMfrBatchPredict n => (n =? 16 * ratio)%Z
  | _ => true
  end.

(** The calls selected by [P] in a run: all of [calls], in this order, when
    the run completed, and some first of them otherwise. *)
Definition made_in_order {A} (P : event -> bool) (calls : list event)
  (r : outcome A * world * list event) : Prop :=
  List.filter P (trace_of r) `prefix_of` calls /\
  (forall a, result_of r = Ok a -> List.filter P (trace_of r) = calls).

(** An answer of the OCR engine whose first entry is not true in Python:
    [None] or the empty list. *)
Definition finds_no_text {OcrLine} (out : list (option (list OcrLine)))
  : bool :=
  match out with
  | None :: _ | Some [] :: _ => true
  | _ => false
  end.

(** ** Concrete collaborators

    Small collaborators on which the functions above can be run.  Images
    are numbered, an OCR line is its text. *)

Module Fixture.

Definition names : MODEL_NAME_t := {|
  LAYOUTLMv3 := "layoutlmv3";
  DocLayout_YOLO := "doclayout_yolo";
  STRUCT_EQTABLE := "struct_eqtable";
  TABLE_MASTER := "tablemaster";
  RAPID_TABLE := "rapid_table"
|}.

Definition mk_region (category_id : Z) (poly : list Z) : region :=
  <["category_id" := PInt category_id]> (<["poly" := PNums poly]> ∅).

Definition text_block : region := mk_region 1 [0; 0; 10; 0; 10; 10; 0; 10]%Z.
Definition table_block : region := mk_region 5 [0; 20; 10; 20; 10; 30; 0; 30]%Z.
Definition formula_block : region :=
  <["latex" := PStr (PyStr.lit "x^2")]>
    (mk_region 14 [2; 2; 4; 2; 4; 4; 2; 4]%Z).

Definition category_of (r : region) : Z :=
  match r !! "category_id" with
  | Some (PInt c) => c
  | _ => (-1)%Z
  end.

Definition category_in (cs : list Z) (lr : loc * region) : bool :=
  existsb (Z.eqb (category_of lr.2)) cs.

(** A splitter by category: text-like categories go to OCR, category 5 to
    table recognition, categories 13 and 14 are the formula context. *)
Definition split (regions : list (loc * region))
  : list loc * list loc * list region :=
  (map fst (List.filter (category_in [0; 1; 2; 4; 6; 7]%Z) regions),
   map fst (List.filter (category_in [5]%Z) regions),
   map (fun lr => <["bbox" := default (PNums []) (lr.2 !! "poly")]> ∅)
       (List.filter (category_in [13; 14]%Z) regions)).

Definition utils : @Utils nat nat string := {|
  MODEL_NAME := names;
  fromarray := fun image => image;
  cvtColor_RGB2BGR := fun image => image;
  crop_img := fun res pil_img crop_paste_x crop_paste_y =>
    (pil_img, [default 0%Z crop_paste_x; default 0%Z crop_paste_y]);
  get_res_list_from_layout_res := split;
  get_adjusted_mfdetrec_res := fun mfd useful_list => mfd;
  get_ocr_result_list := fun lines useful_list =>
    map (fun line => <["text" := PStr (PyStr.lit line)]>
                       (mk_region 15 useful_list)) lines
|}.

(** A model bundle: every page has the layout [layout], one formula, one
    line of text per OCR candidate, and the table backend answers [html]. *)
Definition mk_model (layout_name : string) (layout : list region)
  (formula ocr table : bool) (table_name : string)
  (html : option PyStr.str) : @CustomPEKModel nat nat unit string := {|
  layout_model_name := layout_name;
  layout_model := fun image ignore_catids => layout;
  layout_model_batch_predict := fun images batch_size =>
    map (fun _ => layout) images;
  apply_formula := formula;
  mfd_model_batch_predict := fun images batch_size => map (fun _ => tt) images;
  mfr_model_batch_predict := fun mfd images batch_size =>
    map (fun _ => [formula_block]) images;
  device := "cuda";
  apply_ocr := ocr;
  ocr_model_ocr := fun new_image mfd_res rec => [Some ["text"]];
  apply_table := table;
  table_model_name := table_name;
  table_model_predict_fmt := fun new_image fmt =>
    match html with Some s => [s] | None => [] end;
  table_model_img2html := fun new_image => html;
  table_model_predict := fun new_image => (html, [], 0%Z);
  table_max_time := 400
|}.

(** A complete table markup, and the same markup followed by an ideographic
    space (U+3000) and a space. *)
Definition table_markup : PyStr.str := PyStr.lit "<table></table>".

Definition table_markup_spaced : PyStr.str :=
  table_markup ++ [0x3000; 0x20]%N.

(** A clock that advances by one unit at each reading, an empty heap. *)
Definition w0 : world := {| heap := []; wall := Z.of_nat; ticks := 0 |}.

Definition yolo_ocr_only : @CustomPEKModel nat nat unit string :=
  mk_model "doclayout_yolo" [text_block; text_block] false true false
           "rapid_table" None.

Definition unknown_layout : @CustomPEKModel nat nat unit string :=
  mk_model "other" [text_block] false true false "rapid_table" None.

Definition table_master (html : option PyStr.str)
  : @CustomPEKModel nat nat unit string :=
  mk_model "layoutlmv3" [text_block; table_block] false true true
           "tablemaster" html.

(** A heap that holds one table region. *)
Definition w_table : world :=
  {| heap := [table_block]; wall := Z.of_nat; ticks := 0 |}.

(** A clock on which every reading is 1000 units after the previous one. *)
Definition w_slow : world :=
  {| heap := [table_block]; wall := fun n => (1000 * Z.of_nat n)%Z;
     ticks := 0 |}.

(** A model bundle whose OCR engine answers with an empty list. *)
Definition ocr_answers_nothing : @CustomPEKModel nat nat unit string :=
  {| layout_model_name := "doclayout_yolo";
     layout_model := fun image ignore_catids => [text_block];
     layout_model_batch_predict := fun images batch_size =>
       map (fun _ => [text_block]) images;
     apply_formula := false;
     mfd_model_batch_predict := fun images batch_size => [];
     mfr_model_batch_predict := fun mfd images batch_size => [];
     device := "cuda";
     apply_ocr := true;
     ocr_model_ocr := fun new_image mfd_res rec => [];
     apply_table := false;
     table_model_name := "rapid_table";
     table_model_predict_fmt := fun new_image fmt => [];
     table_model_img2html := fun new_image => None;
     table_model_predict := fun new_image => (None, [], 0%Z);
     table_max_time := 400 |}.

Definition yolo_ocr_only_call : @BatchAnalyze nat nat unit string :=
  {| model := yolo_ocr_only; batch_ratio := 1 |}.

(** A model bundle whose table model name is not one of the three. *)
Definition unknown_table : @CustomPEKModel nat nat unit string :=
  mk_model "layoutlmv3" [text_block; table_block] false true true
           "other" (Some table_markup).

(** A model bundle whose OCR engine finds no text on any crop. *)
Definition ocr_finds_nothing : @CustomPEKModel nat nat unit string :=
  {| layout_model_name := "doclayout_yolo";
     layout_model := fun image ignore_catids => [text_block; table_block];
     layout_model_batch_predict := fun images batch_size =>
       map (fun _ => [text_block; table_block]) images;
     apply_formula := false;
     mfd_model_batch_predict := fun images batch_size => [];
     mfr_model_batch_predict := fun mfd images batch_size => [];
     device := "cuda";
     apply_ocr := true;
     ocr_model_ocr := fun new_image mfd_res rec => [None];
     apply_table := true;
     table_model_name := "tablemaster";
     table_model_predict_fmt := fun new_image fmt => [];
     table_model_img2html := fun new_image => Some table_markup;
     table_model_predict := fun new_image => (None, [], 0%Z);
     table_max_time := 400 |}.

Definition page (n : nat) : @PageData nat :=
  {| img := n; width := 600; height := 800 |}.

Definition env_with (cuda : bool) (m : @CustomPEKModel nat nat unit string)
  : @Env nat nat unit string :=
  {| cuda_is_available := cuda;
     get_model := fun ocr show_log lang layout_model formula_enable
                      table_enable => m |}.

End Fixture.


(** * Properties *)

(** ** Running the monad *)

Lemma set_heap_same w : set_heap (heap w) w = w.
Proof. by destruct w. Qed.

Lemma run_bind {A B} (m : M A) (f : A -> M B) w :
  (m ≫= f) w =
  match m w with
  | (Ok a, w1, t1) => let '(r, w2, t2) := f a w1 in (r, w2, t1 ++ t2)
  | (Raise e, w1, t1) => (Raise e, w1, t1)
  end.
Proof. reflexivity. Qed.

Lemma run_bind_ok {A B} (m : M A) (f : A -> M B) w a w1 t1 :
  m w = (Ok a, w1, t1) ->
  (m ≫= f) w = ((f a w1).1.1, (f a w1).1.2, t1 ++ (f a w1).2).
Proof. intros H. rewrite run_bind, H. by destruct (f a w1) as [[??]?]. Qed.

Lemma run_bind_raise {A B} (m : M A) (f : A -> M B) w e w1 t1 :
  m w = (Raise e, w1, t1) -> (m ≫= f) w = (Raise e, w1, t1).
Proof. intros H. by rewrite run_bind, H. Qed.

Lemma run_ret {A} (a : A) w : (mret a : M A) w = (Ok a, w, []).
Proof. reflexivity. Qed.

(** Inversion of a bind that returned. *)
Lemma bind_ok_inv {A B} (m : M A) (f : A -> M B) w b w2 t :
  (m ≫= f) w = (Ok b, w2, t) ->
  exists a w1 t1 t2,
    m w = (Ok a, w1, t1) /\ f a w1 = (Ok b, w2, t2) /\ t = t1 ++ t2.
Proof.
  rewrite run_bind. destruct (m w) as [[[a|e] w1] t1]; [|done].
  destruct (f a w1) as [[r w2'] t2] eqn:Hf. intros [= -> -> <-].
  by exists a, w1, t1, t2.
Qed.

(** ** Allocation *)

Lemma alloc_list_acc rs acc w :
  for_each rs (fun r acc => l ← alloc r; mret (acc ++ [l])) acc w =
  (Ok (acc ++ seq (length (heap w)) (length rs)),
   set_heap (heap w ++ rs) w, []).
Proof.
  revert acc w. induction rs as [|r rs IH]; intros acc w; simpl.
  - by rewrite !app_nil_r, set_heap_same.
  - rewrite run_bind. simpl. rewrite IH. simpl.
    rewrite length_app. simpl. rewrite <- !app_assoc. simpl.
    by replace (length (heap w) + 1) with (S (length (heap w))) by lia.
Qed.

Lemma alloc_list_run rs w :
  alloc_list rs w =
  (Ok (seq (length (heap w)) (length rs)), set_heap (heap w ++ rs) w, []).
Proof. apply (alloc_list_acc rs []). Qed.

Lemma alloc_lists_acc rss acc w :
  for_each rss (fun rs acc => ls ← alloc_list rs; mret (acc ++ [ls])) acc w =
  (Ok (acc ++ blocks (length (heap w)) rss),
   set_heap (heap w ++ concat rss) w, []).
Proof.
  revert acc w. induction rss as [|rs rss IH]; intros acc w; simpl.
  - by rewrite !app_nil_r, set_heap_same.
  - rewrite run_bind. rewrite run_bind, alloc_list_run. simpl.
    rewrite IH. simpl. rewrite length_app, <- !app_assoc. done.
Qed.

Lemma alloc_lists_run rss w :
  alloc_lists rss w =
  (Ok (blocks (length (heap w)) rss), set_heap (heap w ++ concat rss) w, []).
Proof. apply (alloc_lists_acc rss []). Qed.

Lemma blocks_length n rss : length (blocks n rss) = length rss.
Proof. revert n. induction rss; intros; simpl; auto. Qed.

(** ** The unbound layout list *)

Section Unbound.

Context {Img Pil MfdRes OcrLine : Type}.
Variable U : @Utils Img Pil OcrLine.
Variable self : @BatchAnalyze Img Pil MfdRes OcrLine.

Lemma layout_stage_unrecognised images w :
  layout_model_name (model self) <> LAYOUTLMv3 (MODEL_NAME U) ->
  layout_model_name (model self) <> DocLayout_YOLO (MODEL_NAME U) ->
  layout_stage U self images w = (Ok None, w, []).
Proof.
  intros H1 H2. unfold layout_stage.
  apply String.eqb_neq in H1. apply String.eqb_neq in H2.
  by rewrite H1, H2.
Qed.

Lemma add_formulas_unbound fl k n w :
  for_each (seq k (S n)) (add_formulas fl) None w = (Raise unbound, w, []).
Proof. reflexivity. Qed.

Lemma process_image_unbound (images : list Img) k n w :
  for_each (seq k (S n)) (process_image U self images) None w =
  (Raise unbound, w, []).
Proof. reflexivity. Qed.

Lemma formula_stage_unbound (images : list Img) w :
  images <> [] ->
  apply_formula (model self) = true ->
  result_of (formula_stage self images None w) = Raise unbound.
Proof.
  intros Hne Hf. unfold formula_stage. rewrite Hf.
  destruct images as [|image images]; [done|].
  rewrite run_bind. unfold call at 1. cbn iota beta.
  rewrite run_bind. unfold call_region_lists.
  rewrite run_bind. unfold call at 1. cbn iota beta.
  rewrite alloc_lists_run. cbn iota beta.
  cbn [length]. by rewrite add_formulas_unbound.
Qed.

Lemma call_body_empty w :
  layout_model_name (model self) <> LAYOUTLMv3 (MODEL_NAME U) ->
  layout_model_name (model self) <> DocLayout_YOLO (MODEL_NAME U) ->
  result_of (call_body U self [] w) = Ok None.
Proof.
  intros H1 H2. unfold call_body.
  rewrite run_bind, layout_stage_unrecognised by done.
  unfold formula_stage. destruct (apply_formula (model self)); [|done].
  rewrite run_bind. rewrite run_bind. unfold call at 1. cbn iota beta.
  rewrite run_bind. unfold call_region_lists. rewrite run_bind.
  unfold call at 1. cbn iota beta. rewrite alloc_lists_run. done.
Qed.

(** C10.  What the code does when the layout model name is neither of the
    two recognised names.  No layout result list is bound.  On a non-empty
    image batch the call fails with the unbound-variable error, as the claim
    says.  On the empty batch the code as written does not fail: neither
    loop runs, and the body ends without the [return] statement that would
    read the variable (the defect of C1), so the call evaluates to
    [None]. *)
Theorem unrecognised_layout_name (images : list Img) w :
  layout_model_name (model self) <> LAYOUTLMv3 (MODEL_NAME U) ->
  layout_model_name (model self) <> DocLayout_YOLO (MODEL_NAME U) ->
  result_of (layout_stage U self images w) = Ok None /\
  (images <> [] ->
   result_of (BatchAnalyze_call U self images w) = Raise unbound) /\
  (images = [] ->
   result_of (BatchAnalyze_call U self images w) = Ok PyNone).
Proof.
  intros H1 H2. split; [by rewrite layout_stage_unrecognised|]. split.
  - intros Hne. unfold BatchAnalyze_call, call_body.
    rewrite run_bind, run_bind, layout_stage_unrecognised by done.
    destruct (apply_formula (model self)) eqn:Hf.
    + rewrite run_bind.
      pose proof (formula_stage_unbound images w Hne Hf) as Hr.
      unfold result_of in Hr.
      destruct (formula_stage self images None w) as [[r w1] t1].
      simpl in Hr. by subst r.
    + unfold formula_stage. rewrite Hf.
      destruct images as [|image images]; [done|].
      rewrite run_bind. cbn [mret M_ret ret]. cbn iota beta.
      rewrite run_bind. unfold emit, call at 1. cbn iota beta.
      cbn [length]. by rewrite process_image_unbound.
  - intros ->. unfold BatchAnalyze_call. rewrite run_bind.
    pose proof (call_body_empty w H1 H2) as Hr. unfold result_of in Hr.
    destruct (call_body U self [] w) as [[r w1] t1]. simpl in Hr.
    by subst r.
Qed.

End Unbound.

Import Fixture.

Lemma unrecognised_layout_name_witness :
  layout_model_name unknown_layout <> LAYOUTLMv3 (MODEL_NAME utils) /\
  layout_model_name unknown_layout <> DocLayout_YOLO (MODEL_NAME utils) /\
  result_of (layout_stage utils
               {| model := unknown_layout; batch_ratio := 1 |} [7] w0)
  = Ok None /\
  ([7] <> [] ->
   result_of (BatchAnalyze_call utils
                {| model := unknown_layout; batch_ratio := 1 |} [7] w0)
   = Raise unbound) /\
  ([7] = [] ->
   result_of (BatchAnalyze_call utils
                {| model := unknown_layout; batch_ratio := 1 |} [7] w0)
   = Ok PyNone).
Proof.
  split; [discriminate|]. split; [discriminate|].
  apply (unrecognised_layout_name utils
           {| model := unknown_layout; batch_ratio := 1 |} [7] w0);
    discriminate.
Defined.

(** C10, the failing input.  The layout model name is not recognised and
    the image batch is empty: the call as written does not fail with the
    unbound-variable error, it evaluates to [None]. *)
Lemma unrecognised_layout_name_empty_batch :
  layout_model_name unknown_layout <> LAYOUTLMv3 (MODEL_NAME utils) /\
  layout_model_name unknown_layout <> DocLayout_YOLO (MODEL_NAME utils) /\
  result_of (BatchAnalyze_call utils
               {| model := unknown_layout; batch_ratio := 1 |} [] w0)
  <> Raise unbound /\
  result_of (BatchAnalyze_call utils
               {| model := unknown_layout; batch_ratio := 1 |} [] w0)
  = Ok PyNone.
Proof. repeat split; discriminate || reflexivity. Qed.

(** ** What the orchestrator returns *)

Section Returns.

Context {Img Pil MfdRes OcrLine : Type}.
Variable U : @Utils Img Pil OcrLine.
Variable self : @BatchAnalyze Img Pil MfdRes OcrLine.

(** Whatever the batch, a call that completes evaluates to [None]. *)
Lemma BatchAnalyze_call_None images w :
  match result_of (BatchAnalyze_call U self images w) with
  | Ok a => a = PyNone
  | Raise _ => True
  end.
Proof.
  unfold BatchAnalyze_call, result_of. rewrite run_bind.
  by destruct (call_body U self images w) as [[[a|e] w1] t1].
Qed.

Lemma BatchAnalyze_call_inv images w a w1 t :
  BatchAnalyze_call U self images w = (Ok a, w1, t) -> a = PyNone.
Proof.
  intros H. pose proof (BatchAnalyze_call_None images w) as Hn.
  unfold result_of in Hn. by rewrite H in Hn.
Qed.

End Returns.

(** C1, at one page image with two text blocks (DocLayout-YOLO, OCR only).
    The local [images_layout_res] ends as one list for the one image, with
    the two layout regions and the two OCR regions; the call itself
    evaluates to [None], not to that list. *)
Example call_evaluates_to_None :
  result_of (call_body utils
               {| model := yolo_ocr_only; batch_ratio := 1 |} [7] w0)
  = Ok (Some [[0; 1; 2; 3]]) /\
  result_of (BatchAnalyze_call utils
               {| model := yolo_ocr_only; batch_ratio := 1 |} [7] w0)
  = Ok PyNone.
Proof. split; vm_compute; reflexivity. Qed.

(** C2, at a document of three pages with the range [0, 1], OCR enabled,
    formula and table recognition disabled.  No page record is returned:
    the first in-range page pops from the orchestrator's result, which is
    [None]. *)
Example doc_batch_analyze_three_pages :
  result_of (doc_batch_analyze utils (env_with true yolo_ocr_only)
               [page 0; page 1; page 2] true false 0 (Some 1%Z)
               None None None None None w0)
  = Raise (AttributeError "'NoneType' object has no attribute 'pop'").
Proof. vm_compute; reflexivity. Qed.

(** C3, at a document of two pages with [start_page_id = 0] and
    [end_page_id = 0].  The end of the range is replaced by the page count
    and page 1 is placed in the batch, although [0 <= 1 <= 0] is false: the
    driver fetches both pages for the batch and the orchestrator processes
    two images.  (The run then ends at the first page record, as in C2.) *)
Example end_page_zero_selects_every_page :
  result_of (resolve_end_page_id (Some 0%Z) [page 10; page 11] w0) = Ok 2%Z /\
  result_of ((end_page_id ← resolve_end_page_id (Some 0%Z) [page 10; page 11];
              build_images [page 10; page 11] 0 end_page_id) w0)
  = Ok [10; 11] /\
  in_range 0 1 0 = false /\
  trace_of (doc_batch_analyze utils (env_with true yolo_ocr_only)
              [page 10; page 11] true false 0 (Some 0%Z)
              None None None None None w0)
  = [EDatasetLen; EGetModel true false None None None None; EDatasetLen;
     EGetPage 0; EGetPage 1; ELayoutBatchPredict 4; ECleanVram "cuda" 8;
     EOcr None; EOcr None; ELog Info (OcrTime 1);
     EOcr None; EOcr None; ELog Info (OcrTime 1);
     EDatasetLen; EGetPage 0].
Proof. repeat split; vm_compute; reflexivity. Qed.

(** C4, at a document of one page.  Without the accelerator the call raises
    the precondition error and nothing else happens; with the accelerator
    the same call ends in another fatal error, raised in the driver. *)
Example fatal_conditions_of_the_driver :
  doc_batch_analyze utils (env_with false yolo_ocr_only) [page 0]
    true false 0 None None None None None None w0
  = (Raise (CUDA_NOT_AVAILABLE "batch analyze not support in CPU mode"),
     w0, []) /\
  result_of (doc_batch_analyze utils (env_with true yolo_ocr_only) [page 0]
               true false 0 None None None None None None w0)
  = Raise (AttributeError "'NoneType' object has no attribute 'pop'").
Proof. split; vm_compute; reflexivity. Qed.

(** ** The driver *)

Section DriverFacts.

Context {Img Pil MfdRes OcrLine : Type}.
Variable U : @Utils Img Pil OcrLine.
Variable env : @Env Img Pil MfdRes OcrLine.

(** Without the accelerator the driver raises at once: the world is
    unchanged and no collaborator was called. *)
Lemma doc_batch_analyze_no_cuda dataset ocr show_log start_page_id end_page_id
  lang layout_model formula_enable table_enable batch_ratio w :
  cuda_is_available env = false ->
  doc_batch_analyze U env dataset ocr show_log start_page_id end_page_id
    lang layout_model formula_enable table_enable batch_ratio w
  = (Raise (CUDA_NOT_AVAILABLE "batch analyze not support in CPU mode"),
     w, []).
Proof. intros H. unfold doc_batch_analyze. by rewrite H. Qed.

Lemma get_page_image_lookup (dataset : Dataset Img) index p w :
  dataset !! index = Some p ->
  get_page_image dataset index w = (Ok p, w, [EGetPage index]).
Proof. intros H. unfold get_page_image. by rewrite H. Qed.

(** The image batch holds the images of the pages in the range, in page
    order. *)
Lemma build_images_acc (pre dataset : Dataset Img) s e acc w :
  result_of
    (for_each (seq (length pre) (length dataset)) (fun index images =>
       if in_range s index e then
         img_dict ← get_page_image (pre ++ dataset) index;
         mret (images ++ [img img_dict])
       else mret images) acc w)
  = Ok (acc ++ map img (pages_in_range s e (length pre) dataset)).
Proof.
  revert pre acc w. induction dataset as [|p ds IH]; intros pre acc w.
  - simpl. by rewrite app_nil_r.
  - cbn [length seq for_each pages_in_range]. rewrite run_bind.
    destruct (in_range s (length pre) e) eqn:Hr.
    + rewrite run_bind.
      rewrite (get_page_image_lookup _ _ p)
        by (by rewrite lookup_app_r, Nat.sub_diag by lia).
      cbn iota beta. rewrite run_ret. cbn iota beta.
      specialize (IH (pre ++ [p]) (acc ++ [img p]) w).
      rewrite length_app, <- app_assoc in IH. cbn [length app] in IH.
      replace (length pre + 1) with (S (length pre)) in IH by lia.
      unfold result_of in *.
      destruct (for_each _ _ _ w) as [[r w1] t1]. simpl in *. subst r.
      by rewrite <- app_assoc.
    + rewrite run_ret. cbn iota beta.
      specialize (IH (pre ++ [p]) acc w).
      rewrite length_app, <- app_assoc in IH. cbn [length app] in IH.
      replace (length pre + 1) with (S (length pre)) in IH by lia.
      unfold result_of in *.
      by destruct (for_each _ _ _ w) as [[r w1] t1].
Qed.

Lemma build_images_spec (dataset : Dataset Img) s e w :
  result_of (build_images dataset s e w)
  = Ok (map img (pages_in_range s e 0 dataset)).
Proof.
  unfold build_images. rewrite run_bind. unfold dataset_len, call at 1.
  cbn iota beta.
  pose proof (build_images_acc [] dataset s e [] w) as H.
  cbn [length app] in H. unfold result_of in *.
  by destruct (for_each _ _ _ w) as [[r w1] t1].
Qed.

(** A page is selected exactly when its index is in the range. *)
Lemma pages_in_range_lookup (dataset : Dataset Img) s e k p :
  p ∈ pages_in_range s e k dataset ->
  exists i, dataset !! i = Some p /\ in_range s (k + i) e = true.
Proof.
  revert k. induction dataset as [|q ds IH]; intros k; simpl.
  - by intros ?%not_elem_of_nil.
  - destruct (in_range s k e) eqn:Hr.
    + intros [->|Hin]%elem_of_cons.
      * exists 0. by rewrite Nat.add_0_r.
      * destruct (IH _ Hin) as (i & Hi & Hri). exists (S i).
        by replace (k + S i) with (S k + i) by lia.
    + intros Hin. destruct (IH _ Hin) as (i & Hi & Hri). exists (S i).
      by replace (k + S i) with (S k + i) by lia.
Qed.

Lemma pages_in_range_elem (dataset : Dataset Img) s e k i p :
  dataset !! i = Some p -> in_range s (k + i) e = true ->
  p ∈ pages_in_range s e k dataset.
Proof.
  revert k i. induction dataset as [|q ds IH]; intros k i; [done|].
  destruct i as [|i]; simpl.
  - intros [= ->]. rewrite Nat.add_0_r. intros ->. apply elem_of_cons; auto.
  - intros Hi Hr. replace (k + S i) with (S k + i) in Hr by lia.
    destruct (in_range s k e); [apply elem_of_cons; right|]; eauto.
Qed.

(** The end of the range that line 192 computes. *)
Lemma resolve_end_page_id_value (dataset : Dataset Img) end_page_id w :
  result_of (resolve_end_page_id end_page_id dataset w)
  = Ok (match end_page_id with
        | Some e => if (e =? 0)%Z then Z.of_nat (length dataset) else e
        | None => Z.of_nat (length dataset)
        end).
Proof.
  unfold resolve_end_page_id.
  destruct end_page_id as [e|]; [destruct (e =? 0)%Z|]; reflexivity.
Qed.

(** Once the orchestrator's result is [None], the page loop fails as soon as
    it meets a page of the range. *)
Lemma page_loop_on_None (dataset : Dataset Img) s e idxs acc w :
  (exists i, i ∈ idxs /\ in_range s i e = true) ->
  exists x,
    result_of (for_each idxs (page_record dataset s e) (PyNone, acc) w)
    = Raise x.
Proof.
  revert acc w. induction idxs as [|k idxs IH]; intros acc w (i & Hi & Hr).
  - by apply not_elem_of_nil in Hi.
  - cbn [for_each]. rewrite run_bind.
    unfold page_record at 1. rewrite run_bind.
    destruct (get_page_image dataset k w) as [[[p|x] w1] t1]; [|by exists x].
    rewrite run_bind.
    destruct (in_range s k e) eqn:Hk; [by eexists|].
    rewrite run_ret. cbn iota beta. rewrite run_ret. cbn iota beta.
    apply elem_of_cons in Hi as [->|Hi]; [congruence|].
    destruct (IH (acc ++ [{| layout_dets := [];
                   page_info := {| page_no := k; page_height := height p;
                                   page_width := width p |} |}]) w1)
      as [x Hx]; [by exists i|].
    exists x. unfold result_of in *.
    by destruct (for_each idxs _ _ w1) as [[r w2] t2].
Qed.

(** Had the orchestrator returned a list with one entry per image of the
    batch, the page loop would return one record per page, in page order:
    the records of [page_records]. *)
Lemma page_loop_on_list (pre dataset : Dataset Img) s e results acc w :
  length results = length (pages_in_range s e (length pre) dataset) ->
  result_of
    (for_each (seq (length pre) (length dataset))
       (page_record (pre ++ dataset) s e) (PyList results, acc) w)
  = Ok (PyList [], acc ++ page_records s e (length pre) dataset results).
Proof.
  revert pre results acc w.
  induction dataset as [|p ds IH]; intros pre results acc w Hlen.
  - destruct results; [|done]. simpl. by rewrite app_nil_r.
  - cbn [length seq for_each pages_in_range page_records] in *.
    rewrite run_bind. unfold page_record at 1. rewrite run_bind.
    rewrite (get_page_image_lookup _ _ p)
      by (by rewrite lookup_app_r, Nat.sub_diag by lia).
    cbn iota beta. rewrite run_bind.
    destruct (in_range s (length pre) e) eqn:Hr.
    + destruct results as [|result results]; [done|].
      cbn [pop0]. rewrite run_ret. cbn iota beta. rewrite run_ret.
      cbn iota beta. cbn [length] in Hlen.
      specialize (IH (pre ++ [p]) results
                     (acc ++ [{| layout_dets := result;
                                 page_info := {| page_no := length pre;
                                                 page_height := height p;
                                                 page_width := width p |} |}])
                     w).
      rewrite length_app, <- app_assoc in IH. cbn [length app] in IH.
      replace (length pre + 1) with (S (length pre)) in IH by lia.
      specialize (IH ltac:(lia)). unfold result_of in *.
      destruct (for_each _ _ _ w) as [[r w1] t1]. simpl in *. subst r.
      by rewrite <- app_assoc.
    + rewrite run_ret. cbn iota beta. rewrite run_ret. cbn iota beta.
      specialize (IH (pre ++ [p]) results
                     (acc ++ [{| layout_dets := [];
                                 page_info := {| page_no := length pre;
                                                 page_height := height p;
                                                 page_width := width p |} |}])
                     w).
      rewrite length_app, <- app_assoc in IH. cbn [length app] in IH.
      replace (length pre + 1) with (S (length pre)) in IH by lia.
      specialize (IH Hlen). unfold result_of in *.
      destruct (for_each _ _ _ w) as [[r w1] t1]. simpl in *. subst r.
      by rewrite <- app_assoc.
Qed.

(** What those records are: one per page, numbered in ascending order,
    with the width and height of the page, and with the empty region list
    outside the range. *)
Lemma page_records_lookup (dataset : Dataset Img) s e k results :
  length results = length (pages_in_range s e k dataset) ->
  length (page_records s e k dataset results) = length dataset /\
  forall i p, dataset !! i = Some p ->
    exists rec,
      page_records s e k dataset results !! i = Some rec /\
      page_no (page_info rec) = k + i /\
      page_width (page_info rec) = width p /\
      page_height (page_info rec) = height p /\
      (in_range s (k + i) e = false -> layout_dets rec = []).
Proof.
  revert k results. induction dataset as [|q ds IH]; intros k results Hlen.
  - split; [done|]. by intros i p.
  - cbn [pages_in_range page_records] in *.
    destruct (in_range s k e) eqn:Hr.
    + destruct results as [|result results]; [done|]. cbn [length] in Hlen.
      destruct (IH (S k) results ltac:(lia)) as [Hl Hrec].
      split; [by cbn [length]; rewrite Hl|].
      intros [|i] p.
      * intros [= ->]. eexists. split; [done|]. rewrite Nat.add_0_r.
        repeat split; [done..|]. congruence.
      * intros Hi. destruct (Hrec i p Hi) as (rec & H1 & H2 & H3 & H4 & H5).
        exists rec. replace (k + S i) with (S k + i) by lia. by repeat split.
    + destruct (IH (S k) results Hlen) as [Hl Hrec].
      split; [by cbn [length]; rewrite Hl|].
      intros [|i] p.
      * intros [= ->]. eexists. split; [done|]. rewrite Nat.add_0_r.
        by repeat split.
      * intros Hi. destruct (Hrec i p Hi) as (rec & H1 & H2 & H3 & H4 & H5).
        exists rec. replace (k + S i) with (S k + i) by lia. by repeat split.
Qed.

(** With a page in the range the driver never returns a result. *)
Lemma doc_batch_analyze_in_range_fails dataset ocr show_log start_page_id
  end_page_id e lang layout_model formula_enable table_enable batch_ratio w i :
  result_of (resolve_end_page_id end_page_id dataset w) = Ok e ->
  i < length dataset -> in_range start_page_id i e = true ->
  exists x,
    result_of (doc_batch_analyze U env dataset ocr show_log start_page_id
                 end_page_id lang layout_model formula_enable table_enable
                 batch_ratio w) = Raise x.
Proof.
  intros He Hi Hr. unfold doc_batch_analyze.
  destruct (cuda_is_available env); [|by eexists]. cbn [negb].
  rewrite run_bind. unfold result_of in He.
  destruct (resolve_end_page_id end_page_id dataset w)
    as [[[e'|x] w1] t1]; simpl in He; [|done].
  injection He as ->.
  rewrite run_bind. unfold call at 1. cbn iota beta.
  rewrite run_bind.
  destruct (build_images dataset start_page_id e w1)
    as [[[images|x] w2] t2]; [|by exists x].
  rewrite run_bind.
  destruct (BatchAnalyze_call U _ images w2) as [[[a|x] w3] t3] eqn:Hc;
    [|by exists x].
  apply BatchAnalyze_call_inv in Hc as ->.
  rewrite run_bind. unfold dataset_len, call at 1. cbn iota beta.
  rewrite run_bind.
  destruct (page_loop_on_None dataset start_page_id e
              (seq 0 (length dataset)) [] w3) as [x Hx].
  { exists i. split; [|done]. apply elem_of_seq. lia. }
  exists x. unfold result_of in Hx |- *.
  destruct (for_each (seq 0 (length dataset)) _ _ w3) as [[r w4] t4].
  simpl in Hx. by subst r.
Qed.

End DriverFacts.

(** ** Python strings *)

Lemma isspace_white c : PyStr.isspace c = true <-> is_white c.
Proof.
  unfold is_white, white_space. split.
  - unfold PyStr.isspace.
    rewrite !orb_true_iff, !andb_true_iff, !N.leb_le, !N.eqb_eq. intros H.
    assert (c = 9 \/ c = 10 \/ c = 11 \/ c = 12 \/ c = 13 \/ c = 28 \/
            c = 29 \/ c = 30 \/ c = 31 \/ c = 32 \/ c = 133 \/ c = 160 \/
            c = 5760 \/ c = 8192 \/ c = 8193 \/ c = 8194 \/ c = 8195 \/
            c = 8196 \/ c = 8197 \/ c = 8198 \/ c = 8199 \/ c = 8200 \/
            c = 8201 \/ c = 8202 \/ c = 8232 \/ c = 8233 \/ c = 8239 \/
            c = 8287 \/ c = 12288)%N as Hc by lia.
    clear H.
    repeat (destruct Hc as [->|Hc]; [by repeat constructor|]).
    subst c. by repeat constructor.
  - intros H.
    repeat (apply elem_of_cons in H as [->|H]; [reflexivity|]).
    by apply elem_of_nil in H.
Qed.

Lemma Forall_white ws :
  Forall is_white ws <-> Forall (fun c => PyStr.isspace c = true) ws.
Proof. apply Forall_proper; [|done]. intros c. symmetry. apply isspace_white. Qed.

Lemma lstrip_spaces ws l :
  Forall is_white ws -> PyStr.lstrip (ws ++ l) = PyStr.lstrip l.
Proof.
  rewrite Forall_white.
  induction 1 as [|c ws Hc Hws IH]; simpl; [done|]. by rewrite Hc.
Qed.

Lemma lstrip_all_spaces ws : Forall is_white ws -> PyStr.lstrip ws = [].
Proof.
  intros H. rewrite <- (app_nil_r ws). by rewrite lstrip_spaces.
Qed.

(** [lstrip] removes white space and nothing else, and what it leaves does
    not begin with white space. *)
Lemma lstrip_split s :
  exists l, s = l ++ PyStr.lstrip s /\ Forall is_white l.
Proof.
  induction s as [|c s (l & Hl & Hw)]; [by exists []|]. simpl.
  destruct (PyStr.isspace c) eqn:Hc.
  - exists (c :: l). split; [by rewrite Hl at 1|].
    constructor; [by apply isspace_white|done].
  - by exists [].
Qed.

Lemma lstrip_head s c : head (PyStr.lstrip s) = Some c -> ~ is_white c.
Proof.
  induction s as [|a s IH]; [done|]. simpl.
  destruct (PyStr.isspace a) eqn:Ha; [exact IH|].
  intros [= <-]. rewrite <- isspace_white. congruence.
Qed.

Lemma lstrip_id s :
  (forall c, head s = Some c -> ~ is_white c) -> PyStr.lstrip s = s.
Proof.
  destruct s as [|c s]; [done|]. intros H. simpl.
  destruct (PyStr.isspace c) eqn:Hc; [|done].
  destruct (H c); [done|by apply isspace_white].
Qed.

(** [strip] computes the trimmed text, and the trimmed text is unique. *)
Lemma strip_trimmed s : trimmed s (PyStr.strip s).
Proof.
  unfold PyStr.strip, PyStr.rstrip.
  destruct (lstrip_split s) as (l & Hl & Hwl).
  destruct (lstrip_split (reverse (PyStr.lstrip s))) as (r & Hr & Hwr).
  set (t := reverse (PyStr.lstrip (reverse (PyStr.lstrip s)))) in *.
  assert (PyStr.lstrip s = t ++ reverse r) as Hu.
  { rewrite <- (reverse_involutive (PyStr.lstrip s)), Hr.
    by rewrite reverse_app. }
  exists l, (reverse r). split; [by rewrite <- Hu|].
  split; [done|]. split; [by apply Forall_reverse|]. split.
  - intros c Hc. apply (lstrip_head s). rewrite Hu.
    destruct t; [done|exact Hc].
  - intros c Hc. apply (lstrip_head (reverse (PyStr.lstrip s))).
    subst t. by rewrite last_reverse in Hc.
Qed.

Lemma trimmed_strip s t : trimmed s t -> PyStr.strip s = t.
Proof.
  intros (l & r & -> & Hl & Hr & Hhead & Hlast).
  unfold PyStr.strip, PyStr.rstrip. rewrite lstrip_spaces by done.
  destruct t as [|c t].
  - simpl. by rewrite (lstrip_all_spaces r) by done.
  - rewrite (lstrip_id ((c :: t) ++ r)) by (intros a Ha; by apply Hhead).
    rewrite reverse_app, lstrip_spaces by (by apply Forall_reverse).
    rewrite lstrip_id; [apply reverse_involutive|].
    intros a Ha. apply Hlast. by rewrite head_reverse in Ha.
Qed.

Lemma startswith_prefix s p :
  PyStr.startswith s p = true <-> p `prefix_of` s.
Proof.
  revert s. induction p as [|a p IH]; intros s; simpl.
  - split; [intros _; apply prefix_nil|done].
  - destruct s as [|b s].
    + split; [done|]. intros H. by apply prefix_nil_not in H.
    + rewrite andb_true_iff, N.eqb_eq, IH. split.
      * intros [-> H]. by apply prefix_cons.
      * intros H. split; [by apply prefix_cons_inv_1 in H|
                          by apply prefix_cons_inv_2 in H].
Qed.

Lemma endswith_suffix s p :
  PyStr.endswith s p = true <-> p `suffix_of` s.
Proof.
  unfold PyStr.endswith. rewrite startswith_prefix.
  symmetry. apply suffix_prefix_reverse.
Qed.

Lemma truthy_nonempty s : PyStr.truthy (Some s) = true <-> s <> [].
Proof. by destruct s. Qed.

(** The code's test is the condition of the claim. *)
Lemma markup_ok_valid html_code :
  markup_ok html_code = true <-> valid_markup html_code.
Proof.
  unfold markup_ok, valid_markup, expected_ending, closing_tags.
  destruct html_code as [s|];
    [|split; [by rewrite andb_false_r|by intros (?&?&?&?&_)]].
  rewrite andb_true_iff, orb_true_iff, truthy_nonempty, !endswith_suffix.
  split.
  - intros [Hne Hend]. exists s, (PyStr.strip s).
    destruct Hend as [Hend|Hend]; eexists;
      (split; [done|]; split; [done|]; split; [apply strip_trimmed|]);
      (split; [|exact Hend]).
    + apply elem_of_cons. by left.
    + apply elem_of_cons. right. apply elem_of_cons. by left.
  - intros (s' & t & tag & [= <-] & Hne & Ht & Htag & Hsuf).
    split; [done|]. rewrite (trimmed_strip s t Ht).
    apply elem_of_cons in Htag as [->|Htag]; [by left|].
    apply elem_of_cons in Htag as [->|Htag]; [by right|].
    by apply elem_of_nil in Htag.
Qed.

(** ** The table stage *)

Lemma run_read l w : read l w = (Ok (deref (heap w) l), w, []).
Proof. reflexivity. Qed.

Lemma run_time_time w : time_time w = (Ok (wall w (ticks w)), tick w, []).
Proof. reflexivity. Qed.

Lemma run_emit e w : emit e w = (Ok tt, w, [e]).
Proof. reflexivity. Qed.

Lemma run_call {A} e (a : A) w : call e a w = (Ok a, w, [e]).
Proof. reflexivity. Qed.

Lemma run_setitem l key v w :
  setitem l key v w = (Ok tt, set_heap (alter (insert key v) l (heap w)) w, []).
Proof. reflexivity. Qed.

Lemma deref_lookup h l (r : region) : h !! l = Some r -> deref h l = r.
Proof. intros H. unfold deref. by rewrite H. Qed.

(** Lines 135-148 in one equation. *)
Lemma attach_html_run res html_code w :
  attach_html res html_code w =
  match html_code with
  | Some s =>
    if markup_ok html_code
    then (Ok tt, set_heap (alter (insert "html" (PStr s)) res (heap w)) w, [])
    else (Ok tt, w,
          [ELog Warning (match s with
                         | [] => TableNoHtmlReturn
                         | _ :: _ => TableNoExpectedEnd
                         end)])
  | None => (Ok tt, w, [ELog Warning TableNoHtmlReturn])
  end.
Proof.
  unfold attach_html, markup_ok.
  destruct html_code as [[|c s]|]; [done| |done].
  cbn [PyStr.truthy andb]. by destruct (expected_ending _).
Qed.

Section TableStage.

Context {Img Pil MfdRes OcrLine : Type}.
Variable U : @Utils Img Pil OcrLine.
Variable self : @BatchAnalyze Img Pil MfdRes OcrLine.

(** The backend call leaves the world alone and always answers. *)
Lemma table_html_code_run new_image :
  exists html_code t,
    forall w, table_html_code U self new_image w = (Ok html_code, w, t).
Proof.
  unfold table_html_code.
  destruct (String.eqb _ (STRUCT_EQTABLE _)).
  { eexists _, _. intros w. rewrite run_bind, run_call. cbn iota beta.
    rewrite run_ret. reflexivity. }
  destruct (String.eqb _ (TABLE_MASTER _)).
  { eexists _, _. intros w. by rewrite run_call. }
  destruct (String.eqb _ (RAPID_TABLE _)).
  { destruct (table_model_predict (model self) new_image) as [[h c] el] eqn:E.
    eexists _, _. intros w. rewrite run_bind, run_call. cbn iota beta.
    rewrite run_ret. reflexivity. }
  eexists _, _. intros w. by rewrite run_ret.
Qed.

(** One table candidate, in one equation: the markup is attached in the
    world after the two clock readings, and the measured time only decides
    whether the warning is logged. *)
Lemma table_region_run pil_img res w html_code t0 :
  (forall w', table_html_code U self
                (crop_img U (deref (heap w) res) pil_img None None).1 w'
              = (Ok html_code, w', t0)) ->
  table_region U self pil_img res w =
  (Ok tt, world_of (attach_html res html_code (tick (tick w))),
   t0 ++ budget_warning (table_max_time (model self))
                        (wall w (S (ticks w)) - wall w (ticks w))
      ++ trace_of (attach_html res html_code (tick (tick w)))).
Proof.
  intros Hb. unfold table_region.
  rewrite run_bind, run_read. cbn iota beta.
  destruct (crop_img U (deref (heap w) res) pil_img None None)
    as [new_image ignored] eqn:Hc. simpl in Hb.
  rewrite run_bind, run_time_time. cbn iota beta.
  rewrite run_bind, Hb. cbn iota beta.
  rewrite run_bind, run_time_time. cbn iota beta.
  rewrite run_bind. unfold budget_warning.
  pose proof (attach_html_run res html_code (tick (tick w))) as Ha.
  cbn [tick wall ticks].
  destruct (_ >? _)%Z.
  - rewrite run_emit. cbn iota beta.
    destruct (attach_html res html_code (tick (tick w))) as [[o w2] t2].
    destruct html_code as [s|]; [destruct (markup_ok (Some s))|];
      injection Ha as -> -> ->; simpl; by rewrite ?app_nil_r.
  - rewrite run_ret. cbn iota beta.
    destruct (attach_html res html_code (tick (tick w))) as [[o w2] t2].
    destruct html_code as [s|]; [destruct (markup_ok (Some s))|];
      injection Ha as -> -> ->; simpl; by rewrite ?app_nil_r.
Qed.

Lemma table_region_ok pil_img res w :
  exists w' t, table_region U self pil_img res w = (Ok tt, w', t).
Proof.
  destruct (table_html_code_run
              (crop_img U (deref (heap w) res) pil_img None None).1)
    as (html_code & t0 & Hb).
  rewrite (table_region_run pil_img res w html_code t0 Hb).
  by eexists _, _.
Qed.

(** The loop over the table candidates never raises. *)
Lemma table_loop_ok pil_img table_res_list w :
  result_of (for_each table_res_list
               (fun res _ => table_region U self pil_img res) tt w) = Ok tt.
Proof.
  revert w. induction table_res_list as [|res l IH]; intros w; [done|].
  cbn [for_each]. rewrite run_bind.
  destruct (table_region_ok pil_img res w) as (w' & t & ->).
  specialize (IH w'). unfold result_of in *.
  destruct (for_each l _ tt w') as [[r w2] t2]. simpl in *. by subst r.
Qed.

Lemma table_stage_ok pil_img table_res_list w :
  result_of (table_stage U self pil_img table_res_list w) = Ok tt.
Proof.
  unfold table_stage. destruct (apply_table (model self)); [|done].
  rewrite run_bind, run_time_time. cbn iota beta. rewrite run_bind.
  pose proof (table_loop_ok pil_img table_res_list (tick w)) as H.
  unfold result_of in *.
  destruct (for_each table_res_list _ tt (tick w)) as [[r w2] t2].
  simpl in H. subst r. by rewrite run_bind, run_time_time.
Qed.

(** C5.  For a table candidate [res] whose dict has no ["html"] key, with
    [html_code] the markup that the selected backend returns for its crop:
    the candidate is processed without an exception.  If the markup is valid
    (it is present, it is not empty, and its text without the white space
    around it ends with ["</html>"] or ["</table>"]) it is stored under
    ["html"] and no failure warning is logged; if it is not valid the heap is
    left as it was (the key stays unset) and a failure warning is logged.
    So the key is set exactly when the markup is valid.  In both cases the
    loop goes on: over any further candidates, and with the table stage as a
    whole, it ends without an exception. *)
Theorem table_markup_attached_iff_valid pil_img res rest w (r : region) :
  heap w !! res = Some r ->
  r !! "html" = None ->
  exists html_code w' t,
    result_of (table_html_code U self (crop_img U r pil_img None None).1 w)
    = Ok html_code /\
    table_region U self pil_img res w = (Ok tt, w', t) /\
    (valid_markup html_code ->
     exists s, html_code = Some s /\
               heap w' = <[res := <["html" := PStr s]> r]> (heap w) /\
               Forall (fun e => is_failure_warning e = false) t) /\
    (~ valid_markup html_code ->
     heap w' = heap w /\
     Exists (fun e => is_failure_warning e = true) t) /\
    (is_Some (deref (heap w') res !! "html") <-> valid_markup html_code) /\
    result_of (for_each (res :: rest)
                 (fun res _ => table_region U self pil_img res) tt w) = Ok tt /\
    result_of (table_stage U self pil_img (res :: rest) w) = Ok tt.
Proof.
  intros Hres Hkey.
  destruct (table_html_code_run (crop_img U r pil_img None None).1)
    as (html_code & t0 & Hb).
  assert (Forall (fun e => is_failure_warning e = false) t0) as Ht0.
  { specialize (Hb w). revert Hb. unfold table_html_code.
    repeat match goal with
           | |- context [String.eqb ?a ?b] => destruct (String.eqb a b)
           end.
    - rewrite run_bind, run_call. cbn iota beta. rewrite run_ret.
      intros [= _ <-]. by repeat constructor.
    - rewrite run_call. intros [= _ <-]. by repeat constructor.
    - rewrite run_bind, run_call. cbn iota beta.
      destruct (table_model_predict _ _) as [[??]?]. rewrite run_ret.
      intros [= _ <-]. by repeat constructor.
    - rewrite run_ret. intros [= _ <-]. constructor. }
  pose proof (table_region_run pil_img res w html_code t0) as Hrun.
  rewrite (deref_lookup _ _ r) in Hrun by done. specialize (Hrun Hb).
  eexists html_code, _, _. split; [by unfold result_of; rewrite Hb|].
  split; [exact Hrun|].
  assert (Forall (fun e => is_failure_warning e = false)
            (budget_warning (table_max_time (model self))
               (wall w (S (ticks w)) - wall w (ticks w)))) as Hw1.
  { unfold budget_warning. destruct (_ >? _)%Z; by repeat constructor. }
  rewrite attach_html_run. unfold world_of, trace_of.
  pose proof (markup_ok_valid html_code) as Hv.
  split; [|split; [|split; [|split]]].
  - intros Hval. apply Hv in Hval.
    destruct html_code as [s|]; [|done]. rewrite Hval. simpl.
    exists s. split; [done|]. split.
    + apply list_eq. intros i.
      destruct (decide (res = i)) as [<-|Hne].
      * rewrite list_lookup_alter_eq, Hres. simpl.
        by rewrite list_lookup_insert_eq by by eapply lookup_lt_Some.
      * by rewrite list_lookup_alter_ne, list_lookup_insert_ne.
    + rewrite app_nil_r. by apply Forall_app.
  - intros Hnv.
    assert (markup_ok html_code = false) as Hok.
    { destruct (markup_ok html_code); [|done]. destruct Hnv. by apply Hv. }
    destruct html_code as [s|]; [rewrite Hok|]; simpl;
      (split; [done|]); rewrite !Exists_app; right; right; constructor;
      [by destruct s|done].
  - rewrite <- Hv.
    destruct html_code as [s|]; [destruct (markup_ok (Some s)) eqn:Hok|];
      simpl.
    + unfold deref. rewrite list_lookup_alter_eq, Hres. simpl.
      rewrite lookup_insert_eq. split; [done|]. by eexists.
    + rewrite (deref_lookup _ _ r), Hkey by done.
      split; [by intros [? ?]|done].
    + rewrite (deref_lookup _ _ r), Hkey by done.
      split; [by intros [? ?]|done].
  - apply table_loop_ok.
  - apply table_stage_ok.
Qed.

(** C6.  Two runs of one table candidate from the same heap, under any two
    clocks: both complete, the backend's markup [html_code] is the same, it
    is checked and attached in the same way (the same final heap [h'], the
    same events [ta]), and the traces differ only in the warning that is
    logged when the measured time exceeds [table_max_time].  Nothing is
    cancelled or discarded when the time is exceeded. *)
Theorem table_budget_is_advisory pil_img res h c1 n1 c2 n2 :
  let w1 := {| heap := h; wall := c1; ticks := n1 |} in
  let w2 := {| heap := h; wall := c2; ticks := n2 |} in
  let max_time := table_max_time (model self) in
  exists html_code t0 h' ta,
    result_of (table_html_code U self
                 (crop_img U (deref h res) pil_img None None).1 w1)
    = Ok html_code /\
    attach_html res html_code w1 = (Ok tt, set_heap h' w1, ta) /\
    attach_html res html_code w2 = (Ok tt, set_heap h' w2, ta) /\
    table_region U self pil_img res w1 =
    (Ok tt, {| heap := h'; wall := c1; ticks := S (S n1) |},
     t0 ++ budget_warning max_time (c1 (S n1) - c1 n1) ++ ta) /\
    table_region U self pil_img res w2 =
    (Ok tt, {| heap := h'; wall := c2; ticks := S (S n2) |},
     t0 ++ budget_warning max_time (c2 (S n2) - c2 n2) ++ ta).
Proof.
  intros w1 w2 max_time.
  destruct (table_html_code_run (crop_img U (deref h res) pil_img None None).1)
    as (html_code & t0 & Hb).
  exists html_code, t0,
    (heap (world_of (attach_html res html_code w1))),
    (trace_of (attach_html res html_code w1)).
  split; [by unfold result_of; rewrite Hb|].
  rewrite (table_region_run pil_img res w1 html_code t0 Hb).
  rewrite (table_region_run pil_img res w2 html_code t0 Hb).
  rewrite !attach_html_run. unfold world_of, trace_of, max_time.
  destruct html_code as [s|]; [destruct (markup_ok (Some s))|];
    by repeat split.
Qed.

End TableStage.

Lemma table_markup_attached_iff_valid_witness :
  heap w_table !! 0 = Some table_block /\
  table_block !! "html" = None /\
  exists html_code w' t,
    result_of (table_html_code utils
                 {| model := table_master (Some table_markup_spaced);
                    batch_ratio := 1 |}
                 (crop_img utils table_block 3 None None).1 w_table)
    = Ok html_code /\
    table_region utils
      {| model := table_master (Some table_markup_spaced);
         batch_ratio := 1 |} 3 0 w_table = (Ok tt, w', t) /\
    (valid_markup html_code ->
     exists s, html_code = Some s /\
               heap w' =
               <[0 := <["html" := PStr s]> table_block]> (heap w_table) /\
               Forall (fun e => is_failure_warning e = false) t) /\
    (~ valid_markup html_code ->
     heap w' = heap w_table /\
     Exists (fun e => is_failure_warning e = true) t) /\
    (is_Some (deref (heap w') 0 !! "html") <-> valid_markup html_code) /\
    result_of (for_each [0]
                 (fun res _ =>
                    table_region utils
                      {| model := table_master (Some table_markup_spaced);
                         batch_ratio := 1 |} 3 res) tt w_table) = Ok tt /\
    result_of (table_stage utils
                 {| model := table_master (Some table_markup_spaced);
                    batch_ratio := 1 |} 3 [0] w_table) = Ok tt.
Proof.
  split; [reflexivity|]. split; [vm_compute; reflexivity|].
  apply (table_markup_attached_iff_valid utils
           {| model := table_master (Some table_markup_spaced);
              batch_ratio := 1 |} 3 0 [] w_table table_block);
    vm_compute; reflexivity.
Defined.

(** The markup test on a few strings: white space after the closing tag is
    trimmed, whether it is ASCII or not (U+00A0, U+2003, U+3000); a zero
    width space (U+200B) is not white space. *)
Example markup_ok_table :
  markup_ok (Some (PyStr.lit "<table><tr></tr></table>  ")) = true.
Proof. vm_compute; reflexivity. Qed.

Example markup_ok_html :
  markup_ok (Some (PyStr.lit "<html><body></body></html>")) = true.
Proof. vm_compute; reflexivity. Qed.

Example markup_ok_wide_space :
  markup_ok (Some (table_markup ++ [0xA0; 0x2003; 0x3000]%N)) = true.
Proof. vm_compute; reflexivity. Qed.

Example markup_ok_zero_width :
  markup_ok (Some (table_markup ++ [0x200B]%N)) = false.
Proof. vm_compute; reflexivity. Qed.

Example markup_ok_truncated : markup_ok (Some (PyStr.lit "<table><tr>")) = false.
Proof. vm_compute; reflexivity. Qed.

Example markup_ok_blank : markup_ok (Some (PyStr.lit "   ")) = false.
Proof. vm_compute; reflexivity. Qed.

Example markup_ok_empty : markup_ok (Some []) = false.
Proof. vm_compute; reflexivity. Qed.

(** A truncated markup: the region keeps its keys, the warning is logged and
    the stage completes. *)
Example table_region_truncated :
  let r := table_region utils
             {| model := table_master (Some (PyStr.lit "<table><tr>"));
                batch_ratio := 1 |}
             3 0 w_table in
  result_of r = Ok tt /\ heap (world_of r) = [table_block] /\
  trace_of r = [ETableModel "tablemaster"; ELog Warning TableNoExpectedEnd].
Proof. vm_compute. by repeat split. Qed.

(** A slow backend (a thousand units per reading, the budget is 400): the
    warning is logged and the markup is attached all the same. *)
Example table_region_over_budget :
  let r := table_region utils
             {| model := table_master (Some table_markup);
                batch_ratio := 1 |} 3 0 w_slow in
  result_of r = Ok tt /\
  heap (world_of r) = [<["html" := PStr table_markup]> table_block] /\
  trace_of r = [ETableModel "tablemaster";
                ELog Warning (TableExceedsMaxTime 400)].
Proof. vm_compute. by repeat split. Qed.

(** A complete markup: it is stored under ["html"], with its white space. *)
Example table_region_complete :
  let r := table_region utils
             {| model := table_master (Some table_markup_spaced);
                batch_ratio := 1 |} 3 0 w_table in
  result_of r = Ok tt /\
  heap (world_of r) = [<["html" := PStr table_markup_spaced]> table_block] /\
  trace_of r = [ETableModel "tablemaster"].
Proof. vm_compute. by repeat split. Qed.

(** ** The formula stage *)

(** A block of fresh references reads back the dicts it was made for. *)
Lemma fresh_block_reads (h rs tl : list region) :
  (fun l => (h ++ rs ++ tl) !! l) <$> seq (length h) (length rs)
  = Some <$> rs.
Proof.
  revert h. induction rs as [|r rs IH]; intros h; [done|].
  cbn [length seq fmap list_fmap]. f_equal.
  - by rewrite lookup_app_r, Nat.sub_diag by lia.
  - specialize (IH (h ++ [r])). rewrite length_app in IH. cbn [length] in IH.
    replace (length h + 1) with (S (length h)) in IH by lia.
    rewrite <- IH. apply list_fmap_ext. intros _ l _.
    by rewrite <- app_assoc.
Qed.

Lemma blocks_lookup (h : list region) rss i f :
  blocks (length h) rss !! i = Some f ->
  exists regs, rss !! i = Some regs /\
               (fun l => (h ++ concat rss) !! l) <$> f = Some <$> regs.
Proof.
  revert h i. induction rss as [|rs rss IH]; intros h i; [done|].
  destruct i as [|i]; cbn [blocks concat].
  - intros [= <-]. exists rs. split; [done|]. apply fresh_block_reads.
  - intros Hf. rewrite <- length_app in Hf.
    destruct (IH _ _ Hf) as (regs & Hregs & Hread).
    exists regs. split; [done|]. rewrite <- Hread.
    apply list_fmap_ext. intros _ l _. by rewrite <- app_assoc.
Qed.

(** The loop of lines 61-62. *)
Lemma add_formulas_loop fl n : forall k ilr0 ilr' w w' t,
  for_each (seq k n) (add_formulas fl) (Some ilr0) w = (Ok ilr', w', t) ->
  exists ilr1,
    ilr' = Some ilr1 /\ w' = w /\ t = [] /\ length ilr1 = length ilr0 /\
    (forall i, k <= i < k + n ->
       exists layout_res formulas,
         ilr0 !! i = Some layout_res /\ fl !! i = Some formulas /\
         ilr1 !! i = Some (layout_res ++ formulas)) /\
    (forall i, ~ (k <= i < k + n) -> ilr1 !! i = ilr0 !! i).
Proof.
  induction n as [|n IH]; intros k ilr0 ilr' w w' t.
  - cbn [seq for_each]. intros [= <- <- <-]. exists ilr0.
    do 4 (split; [done|]). split; [intros; lia|done].
  - cbn [seq for_each]. intros Hrun.
    apply bind_ok_inv in Hrun as (a & w1 & t1 & t2 & Hstep & Hloop & ->).
    unfold add_formulas in Hstep.
    destruct (ilr0 !! k) as [layout_res|] eqn:Hk; [|done].
    destruct (fl !! k) as [formulas|] eqn:Hfk; [|done].
    injection Hstep as <- <- <-.
    apply IH in Hloop as (ilr1 & -> & -> & -> & Hlen & Hin & Hout).
    exists ilr1. split; [done|]. split; [done|]. split; [done|].
    rewrite length_insert in Hlen. split; [done|]. split.
    + intros i Hi. destruct (decide (i = k)) as [->|Hne].
      * exists layout_res, formulas. split; [done|]. split; [done|].
        rewrite Hout by lia. apply list_lookup_insert_eq.
        by eapply lookup_lt_Some.
      * destruct (Hin i) as (lr & f & H1 & H2 & H3); [lia|].
        rewrite list_lookup_insert_ne in H1 by done. by exists lr, f.
    + intros i Hi. rewrite Hout by lia.
      apply list_lookup_insert_ne. lia.
Qed.

(** The loop completes when both lists have an entry for every image. *)
Lemma add_formulas_loop_ok fl n : forall k ilr0 w,
  k + n <= length ilr0 -> k + n <= length fl ->
  exists ilr1,
    for_each (seq k n) (add_formulas fl) (Some ilr0) w = (Ok (Some ilr1), w, []).
Proof.
  induction n as [|n IH]; intros k ilr0 w H0 Hfl.
  - by exists ilr0.
  - cbn [seq for_each]. rewrite run_bind. unfold add_formulas at 1.
    destruct (lookup_lt_is_Some_2 ilr0 k) as [layout_res ->]; [lia|].
    destruct (lookup_lt_is_Some_2 fl k) as [formulas ->]; [lia|].
    rewrite run_ret. cbn iota beta.
    destruct (IH (S k) (<[k := layout_res ++ formulas]> ilr0) w)
      as [ilr1 ->]; [rewrite length_insert; lia|lia|].
    by exists ilr1.
Qed.

Section FormulaStage.

Context {Img Pil MfdRes OcrLine : Type}.
Variable self : @BatchAnalyze Img Pil MfdRes OcrLine.

Lemma formula_stage_off (images : list Img) images_layout_res w :
  apply_formula (model self) = false ->
  formula_stage self images images_layout_res w = (Ok images_layout_res, w, []).
Proof. intros Hf. unfold formula_stage. by rewrite Hf. Qed.

(** The formula stage, enabled, with the formula list [fl] of the batch. *)
Lemma formula_stage_on (images : list Img) ilr w :
  apply_formula (model self) = true ->
  let fl :=
    mfr_model_batch_predict (model self)
      (mfd_model_batch_predict (model self) images
         (batch_ratio self * MFD_BASE_BATCH_SIZE))
      images (batch_ratio self * MFR_BASE_BATCH_SIZE) in
  formula_stage self images ilr w =
  let r := for_each (seq 0 (length images))
             (add_formulas (blocks (length (heap w)) fl)) ilr
             (set_heap (heap w ++ concat fl) w) in
  (result_of r, world_of r,
   EMfdBatchPredict (batch_ratio self * MFD_BASE_BATCH_SIZE)
   :: EMfrBatchPredict (batch_ratio self * MFR_BASE_BATCH_SIZE)
   :: trace_of r).
Proof.
  intros Hf fl. unfold formula_stage. rewrite Hf.
  rewrite run_bind, run_call. cbn iota beta.
  rewrite run_bind. unfold call_region_lists.
  rewrite run_bind, run_call. cbn iota beta.
  rewrite alloc_lists_run. cbn iota beta. fold fl.
  by destruct (for_each _ _ _ (set_heap _ w)) as [[r w2] t2].
Qed.

Lemma formula_stage_on_ok (images : list Img) ilr0 w :
  apply_formula (model self) = true ->
  length images <= length ilr0 ->
  length images <=
  length (mfr_model_batch_predict (model self)
            (mfd_model_batch_predict (model self) images
               (batch_ratio self * MFD_BASE_BATCH_SIZE))
            images (batch_ratio self * MFR_BASE_BATCH_SIZE)) ->
  exists ilr1 w' t,
    formula_stage self images (Some ilr0) w = (Ok (Some ilr1), w', t).
Proof.
  intros Hf H0 Hfl. rewrite formula_stage_on by done. cbn zeta.
  set (fl := mfr_model_batch_predict _ _ _ _) in *.
  destruct (add_formulas_loop_ok (blocks (length (heap w)) fl)
              (length images) 0 ilr0 (set_heap (heap w ++ concat fl) w))
    as [ilr1 ->]; [lia|rewrite blocks_length; lia|].
  by eexists _, _, _.
Qed.

Lemma formula_stage_on_shape (images : list Img) ilr0 ilr' w w' t :
  apply_formula (model self) = true ->
  formula_stage self images (Some ilr0) w = (Ok ilr', w', t) ->
  let fl :=
    mfr_model_batch_predict (model self)
      (mfd_model_batch_predict (model self) images
         (batch_ratio self * MFD_BASE_BATCH_SIZE))
      images (batch_ratio self * MFR_BASE_BATCH_SIZE) in
  exists ilr1,
    ilr' = Some ilr1 /\
    length ilr1 = length ilr0 /\
    heap w' = heap w ++ concat fl /\
    (forall i, i < length images ->
       exists layout_res formulas regs,
         ilr0 !! i = Some layout_res /\
         fl !! i = Some regs /\
         ilr1 !! i = Some (layout_res ++ formulas) /\
         (fun l => heap w' !! l) <$> formulas = Some <$> regs) /\
    (forall i, length images <= i -> ilr1 !! i = ilr0 !! i).
Proof.
  intros Hf. rewrite formula_stage_on by done. cbn zeta.
  set (fl := mfr_model_batch_predict _ _ _ _).
  destruct (for_each _ _ _ (set_heap _ w)) as [[r w2] t2] eqn:Hloop.
  unfold result_of, world_of, trace_of. cbn [fst snd].
  intros [= -> -> <-].
  apply add_formulas_loop in Hloop as (ilr1 & -> & -> & -> & Hlen & Hin & Hout).
  exists ilr1. split; [done|]. split; [done|]. split; [done|]. split.
  - intros i Hi. destruct (Hin i) as (lr & f & H1 & H2 & H3); [lia|].
    destruct (blocks_lookup _ _ _ _ H2) as (regs & Hregs & Hread).
    by exists lr, f, regs.
  - intros i Hi. apply Hout. lia.
Qed.

(** C7.  With the formula stage disabled the region lists, the heap and the
    trace are those of the layout stage.  With the stage enabled, and a
    layout list and a formula list for every image, the stage completes; and
    a run that completes has created the recognised formula regions [fl] as
    fresh dicts and nothing else, and has appended to the list of each image
    the references to all the formula regions of that image, in order, after
    the layout regions, which stay in place; no list beyond the batch
    changes. *)
Theorem formula_stage_spec (images : list Img) w :
  let fl :=
    mfr_model_batch_predict (model self)
      (mfd_model_batch_predict (model self) images
         (batch_ratio self * MFD_BASE_BATCH_SIZE))
      images (batch_ratio self * MFR_BASE_BATCH_SIZE) in
  (apply_formula (model self) = false ->
   forall images_layout_res,
     formula_stage self images images_layout_res w
     = (Ok images_layout_res, w, [])) /\
  (apply_formula (model self) = true ->
   forall ilr0,
     length images <= length ilr0 -> length images <= length fl ->
     exists ilr1 w' t,
       formula_stage self images (Some ilr0) w = (Ok (Some ilr1), w', t)) /\
  (apply_formula (model self) = true ->
   forall ilr0 ilr' w' t,
     formula_stage self images (Some ilr0) w = (Ok ilr', w', t) ->
     exists ilr1,
       ilr' = Some ilr1 /\
       length ilr1 = length ilr0 /\
       heap w' = heap w ++ concat fl /\
       (forall i, i < length images ->
          exists layout_res formulas regs,
            ilr0 !! i = Some layout_res /\
            fl !! i = Some regs /\
            ilr1 !! i = Some (layout_res ++ formulas) /\
            (fun l => heap w' !! l) <$> formulas = Some <$> regs) /\
       (forall i, length images <= i -> ilr1 !! i = ilr0 !! i)).
Proof.
  intros fl. split; [|split].
  - intros Hf ilr. by apply formula_stage_off.
  - intros Hf ilr0 H0 Hfl. by apply formula_stage_on_ok.
  - intros Hf ilr0 ilr' w' t Hrun.
    by apply (formula_stage_on_shape images ilr0 ilr' w w' t Hf Hrun).
Qed.

End FormulaStage.

Lemma formula_stage_spec_witness :
  let self := {| model := mk_model "layoutlmv3" [text_block] true true false
                            "rapid_table" None;
                 batch_ratio := 1 |} in
  let self_off := {| model := yolo_ocr_only; batch_ratio := 1 |} in
  (apply_formula (model self_off) = false /\
   formula_stage self_off [7] (Some [[0]]) w_table
   = (Ok (Some [[0]]), w_table, [])) /\
  (apply_formula (model self) = true /\
   length [7] <= length [[0]] /\
   length [7] <= length [[formula_block]] /\
   exists ilr1 w' t,
     formula_stage self [7] (Some [[0]]) w_table = (Ok (Some ilr1), w', t)) /\
  (formula_stage self [7] (Some [[0]]) w_table
   = (Ok (Some [[0; 1]]), set_heap [table_block; formula_block] w_table,
      [EMfdBatchPredict 1; EMfrBatchPredict 16]) /\
   exists ilr1,
     Some [[0; 1]] = Some ilr1 /\
     length ilr1 = 1 /\
     heap (set_heap [table_block; formula_block] w_table)
     = heap w_table ++ concat [[formula_block]] /\
     (forall i, i < 1 ->
        exists layout_res formulas regs,
          [[0]] !! i = Some layout_res /\
          [[formula_block]] !! i = Some regs /\
          ilr1 !! i = Some (layout_res ++ formulas) /\
          (fun l => heap (set_heap [table_block; formula_block] w_table) !! l)
            <$> formulas = Some <$> regs) /\
     (forall i, 1 <= i -> ilr1 !! i = [[0]] !! i)).
Proof.
  intros self self_off. split; [|split].
  - split; [reflexivity|].
    by apply (proj1 (formula_stage_spec self_off [7] w_table)).
  - split; [reflexivity|]. split; [simpl; lia|]. split; [simpl; lia|].
    apply (proj1 (proj2 (formula_stage_spec self [7] w_table)) eq_refl [[0]]);
      simpl; lia.
  - assert (formula_stage self [7] (Some [[0]]) w_table
            = (Ok (Some [[0; 1]]),
               set_heap [table_block; formula_block] w_table,
               [EMfdBatchPredict 1; EMfrBatchPredict 16])) as Hrun
      by (vm_compute; reflexivity).
    split; [exact Hrun|].
    exact (proj2 (proj2 (formula_stage_spec self [7] w_table)) eq_refl
             [[0]] _ _ _ Hrun).
Defined.

(** ** Independence from the clock *)

Lemma untimed_app t1 t2 : untimed (t1 ++ t2) = untimed t1 ++ untimed t2.
Proof. apply List.filter_app. Qed.

Lemma same_run_refl_heap {A} (o : outcome A) w1 w2 t :
  heap w1 = heap w2 -> same_run (o, w1, t) (o, w2, t).
Proof. by intros H. Qed.

Lemma cf_bind {A B} (m1 m2 : M A) (f1 f2 : A -> M B) :
  clock_free2 m1 m2 ->
  (forall a, clock_free2 (f1 a) (f2 a)) ->
  clock_free2 (m1 ≫= f1) (m2 ≫= f2).
Proof.
  intros Hm Hf w1 w2 Hh. rewrite !run_bind.
  destruct (Hm w1 w2 Hh) as (Hr & Hw & Ht).
  destruct (m1 w1) as [[r1 u1] t1], (m2 w2) as [[r2 u2] t2].
  unfold result_of, world_of, trace_of in *. cbn [fst snd] in *. subst r2.
  destruct r1 as [a|e]; [|done].
  destruct (Hf a u1 u2 Hw) as (Hr' & Hw' & Ht').
  destruct (f1 a u1) as [[r1' u1'] t1'], (f2 a u2) as [[r2' u2'] t2'].
  unfold same_run, result_of, world_of, trace_of in *. cbn [fst snd] in *.
  repeat split; [done..|]. by rewrite !untimed_app, Ht, Ht'.
Qed.

(** Two readings of the clock may differ; what follows must not depend on
    them. *)
Lemma cf_time {B} (f1 f2 : Z -> M B) :
  (forall z1 z2, clock_free2 (f1 z1) (f2 z2)) ->
  clock_free2 (time_time ≫= f1) (time_time ≫= f2).
Proof.
  intros Hf w1 w2 Hh. rewrite !run_bind, !run_time_time. cbn iota beta.
  destruct (Hf (wall w1 (ticks w1)) (wall w2 (ticks w2)) (tick w1) (tick w2) Hh)
    as (Hr & Hw & Ht).
  destruct (f1 _ (tick w1)) as [[r1 u1] t1], (f2 _ (tick w2)) as [[r2 u2] t2].
  by repeat split.
Qed.

Lemma cf_ret {A} (a : A) : clock_free2 (mret a) (mret a).
Proof. by intros w1 w2 Hh. Qed.

Lemma cf_raise {A} e : clock_free2 (@raise A e) (raise e).
Proof. by intros w1 w2 Hh. Qed.

Lemma cf_call {A} e (a : A) : clock_free2 (call e a) (call e a).
Proof. by intros w1 w2 Hh. Qed.

Lemma cf_emit e : clock_free2 (emit e) (emit e).
Proof. by intros w1 w2 Hh. Qed.

(** A timed log line may differ between the two runs. *)
Lemma cf_emit_timed e1 e2 :
  timed e1 = true -> timed e2 = true -> clock_free2 (emit e1) (emit e2).
Proof.
  intros H1 H2 w1 w2 Hh. repeat split; [done|].
  unfold trace_of, untimed. simpl. by rewrite H1, H2.
Qed.

Lemma cf_warn_if (b1 b2 : bool) e :
  timed e = true ->
  clock_free2 (if b1 then emit e else mret tt) (if b2 then emit e else mret tt).
Proof.
  intros He w1 w2 Hh. repeat split; [by destruct b1, b2|by destruct b1, b2|].
  unfold trace_of, untimed. destruct b1, b2; simpl; by rewrite ?He.
Qed.

Lemma cf_heap_now : clock_free2 heap_now heap_now.
Proof. intros w1 w2 Hh. repeat split; [|done..]. unfold result_of. simpl. by rewrite Hh. Qed.

Lemma cf_read l : clock_free2 (read l) (read l).
Proof.
  apply cf_bind; [apply cf_heap_now|]. intros h. apply cf_ret.
Qed.

Lemma cf_alloc r : clock_free2 (alloc r) (alloc r).
Proof.
  intros w1 w2 Hh. unfold same_run, result_of, world_of, trace_of. simpl.
  by rewrite Hh.
Qed.

Lemma cf_setitem l key v : clock_free2 (setitem l key v) (setitem l key v).
Proof.
  intros w1 w2 Hh. unfold same_run, result_of, world_of, trace_of. simpl.
  by rewrite Hh.
Qed.

Lemma cf_for_each {A S} (xs : list A) (b1 b2 : A -> S -> M S) s :
  (forall x s, clock_free2 (b1 x s) (b2 x s)) ->
  clock_free2 (for_each xs b1 s) (for_each xs b2 s).
Proof.
  intros Hb. revert s. induction xs as [|x xs IH]; intros s; simpl.
  - apply cf_ret.
  - apply cf_bind; [apply Hb|]. apply IH.
Qed.

Lemma cf_alloc_list rs : clock_free2 (alloc_list rs) (alloc_list rs).
Proof.
  apply cf_for_each. intros r acc. apply cf_bind; [apply cf_alloc|].
  intros l. apply cf_ret.
Qed.

Lemma cf_alloc_lists rss : clock_free2 (alloc_lists rss) (alloc_lists rss).
Proof.
  apply cf_for_each. intros rs acc. apply cf_bind; [apply cf_alloc_list|].
  intros l. apply cf_ret.
Qed.

Lemma cf_attach_html res html_code :
  clock_free2 (attach_html res html_code) (attach_html res html_code).
Proof.
  unfold attach_html. destruct (PyStr.truthy html_code); [|apply cf_emit].
  destruct html_code as [s|]; [|apply cf_ret].
  destruct (expected_ending s); [apply cf_setitem|apply cf_emit].
Qed.

Create HintDb clock_free.
#[local] Hint Resolve cf_ret cf_raise cf_call cf_emit cf_heap_now cf_read
  cf_alloc cf_setitem cf_alloc_list cf_alloc_lists cf_attach_html : clock_free.

Ltac cf_step :=
  first
    [ solve [auto with clock_free]
    | apply cf_time; intros ??
    | apply cf_bind; [| intros ?]
    | apply cf_for_each; intros ?? ].

Tactic Notation "cf_bind" "as" ident(x) := apply cf_bind; [| intros x].

Section ClockFree.

Context {Img Pil MfdRes OcrLine : Type}.
Variable U : @Utils Img Pil OcrLine.
Variable self : @BatchAnalyze Img Pil MfdRes OcrLine.

Lemma cf_layout_stage images :
  clock_free2 (layout_stage U self images) (layout_stage U self images).
Proof.
  unfold layout_stage, call_regions, call_region_lists.
  repeat match goal with
         | |- context [String.eqb ?a ?b] => destruct (String.eqb a b)
         end; repeat cf_step.
Qed.

Lemma cf_add_formulas fl i ilr :
  clock_free2 (add_formulas fl i ilr) (add_formulas fl i ilr).
Proof.
  unfold add_formulas. destruct ilr as [ilr|]; [|cf_step].
  destruct (ilr !! i); [|cf_step]. destruct (fl !! i); cf_step.
Qed.

Lemma cf_formula_stage images ilr :
  clock_free2 (formula_stage self images ilr) (formula_stage self images ilr).
Proof.
  unfold formula_stage, call_region_lists.
  destruct (apply_formula (model self)); [|cf_step].
  repeat cf_step. apply cf_add_formulas.
Qed.

Lemma cf_table_html_code new_image :
  clock_free2 (table_html_code U self new_image)
              (table_html_code U self new_image).
Proof.
  unfold table_html_code.
  repeat match goal with
         | |- context [String.eqb ?a ?b] => destruct (String.eqb a b)
         end; try solve [repeat cf_step].
  cf_bind as r; [cf_step|]. destruct r as [[??]?]. cf_step.
Qed.

Lemma cf_table_region pil_img res :
  clock_free2 (table_region U self pil_img res)
              (table_region U self pil_img res).
Proof.
  unfold table_region. cf_bind as r; [cf_step|].
  destruct (crop_img U r pil_img None None) as [new_image ignored].
  cf_step. cf_bind as html_code; [apply cf_table_html_code|]. cf_step.
  cf_bind as u; [by apply cf_warn_if|]. cf_step.
Qed.

Lemma cf_table_stage pil_img table_res_list :
  clock_free2 (table_stage U self pil_img table_res_list)
              (table_stage U self pil_img table_res_list).
Proof.
  unfold table_stage. destruct (apply_table (model self)); [|cf_step].
  cf_step. cf_bind as u; [cf_step; apply cf_table_region|]. cf_step.
  by apply cf_emit_timed.
Qed.

Lemma cf_ocr_region index pil_img mfd res ilr :
  clock_free2 (ocr_region U self index pil_img mfd res ilr)
              (ocr_region U self index pil_img mfd res ilr).
Proof.
  unfold ocr_region. cf_bind as r; [cf_step|].
  destruct (crop_img U r pil_img _ _) as [new_image useful_list].
  cf_bind as out; [destruct (apply_ocr (model self)); cf_step|].
  cf_bind as ocr_res; [destruct out; cf_step|].
  destruct ocr_res as [[|line lines]|]; repeat cf_step.
Qed.

Lemma cf_process_image images index ilr :
  clock_free2 (process_image U self images index ilr)
              (process_image U self images index ilr).
Proof.
  unfold process_image. destruct ilr as [ilr|]; [|cf_step].
  cf_bind as layout_res; [destruct (ilr !! index); cf_step|].
  cf_bind as image; [destruct (images !! index); cf_step|].
  cf_bind as h; [cf_step|].
  destruct (get_res_list_from_layout_res U _)
    as [[ocr_res_list table_res_list] mfd].
  cf_step. cf_bind as ilr'; [cf_step; apply cf_ocr_region|]. cf_step.
  cf_bind as u; [apply cf_emit_timed; by destruct (apply_ocr (model self))|].
  cf_bind as u'; [apply cf_table_stage|]. cf_step.
Qed.

Lemma cf_call_body images :
  clock_free2 (call_body U self images) (call_body U self images).
Proof.
  unfold call_body. cf_step; [apply cf_layout_stage|].
  cf_step; [apply cf_formula_stage|]. cf_step; [cf_step|].
  cf_step. apply cf_process_image.
Qed.

End ClockFree.

Section Determinism.

Context {Img Pil MfdRes OcrLine : Type}.
Variable U : @Utils Img Pil OcrLine.
Variable self : @BatchAnalyze Img Pil MfdRes OcrLine.

(** C9.  Two runs of the orchestrator on the same image batch, with the same
    configuration and the same collaborators, from the same heap and under
    any two clocks: the same outcome, the same region dicts (boxes,
    categories and every other key), the same region list per image, and the
    same calls and log lines apart from the timed ones.  The value of the
    call is the same too. *)
Theorem pipeline_is_deterministic (images : list Img) h c1 n1 c2 n2 :
  let w1 := {| heap := h; wall := c1; ticks := n1 |} in
  let w2 := {| heap := h; wall := c2; ticks := n2 |} in
  let r1 := call_body U self images w1 in
  let r2 := call_body U self images w2 in
  result_of r1 = result_of r2 /\
  heap (world_of r1) = heap (world_of r2) /\
  final_regions r1 = final_regions r2 /\
  untimed (trace_of r1) = untimed (trace_of r2) /\
  result_of (BatchAnalyze_call U self images w1)
  = result_of (BatchAnalyze_call U self images w2).
Proof.
  intros w1 w2 r1 r2.
  destruct (cf_call_body U self images w1 w2 eq_refl) as (Hr & Hh & Ht).
  fold r1 r2 in Hr, Hh, Ht.
  split; [done|]. split; [done|]. split; [|split; [done|]].
  - unfold final_regions. by rewrite Hr, Hh.
  - unfold BatchAnalyze_call. rewrite !run_bind. fold r1 r2.
    unfold result_of in *.
    destruct r1 as [[o1 u1] t1], r2 as [[o2 u2] t2]. simpl in *. subst o2.
    by destruct o1.
Qed.

End Determinism.

(** The same page under a clock that is a thousand times slower: the same
    regions, another time in the log. *)
Example two_runs_two_clocks :
  let self := {| model := table_master (Some table_markup);
                 batch_ratio := 1 |} in
  let r1 := call_body utils self [7] w0 in
  let r2 := call_body utils self [7]
              {| heap := []; wall := fun n => (1000 * Z.of_nat n)%Z;
                 ticks := 5 |} in
  final_regions r1 = final_regions r2 /\
  trace_of r1 = [ELayoutModel; ECleanVram "cuda" 8; EOcr None;
                 ELog Info (OcrTime 1); ETableModel "tablemaster";
                 ELog Info (TableTime 3)] /\
  trace_of r2 = [ELayoutModel; ECleanVram "cuda" 8; EOcr None;
                 ELog Info (OcrTime 1000); ETableModel "tablemaster";
                 ELog Warning (TableExceedsMaxTime 400);
                 ELog Info (TableTime 3000)].
Proof. vm_compute. by repeat split. Qed.

(** ** The order of the events *)

Lemma emits_bind {A B} P (m : M A) (f : A -> M B) :
  emits P m -> (forall a, emits P (f a)) -> emits P (m ≫= f).
Proof.
  intros Hm Hf w. rewrite run_bind. specialize (Hm w).
  destruct (m w) as [[[a|e] w1] t1]; [|done].
  specialize (Hf a w1). destruct (f a w1) as [[r w2] t2].
  unfold trace_of in *. simpl in *. by apply Forall_app.
Qed.

Lemma emits_silent {A} P (m : M A) :
  (forall w, trace_of (m w) = []) -> emits P m.
Proof. intros H w. rewrite H. constructor. Qed.

Lemma emits_call {A} (P : event -> bool) e (a : A) :
  P e = true -> emits P (call e a).
Proof. intros H w. by repeat constructor. Qed.

Lemma emits_for_each {A S} P (xs : list A) (b : A -> S -> M S) s :
  (forall x s, emits P (b x s)) -> emits P (for_each xs b s).
Proof.
  intros Hb. revert s. induction xs as [|x xs IH]; intros s; simpl.
  - by apply emits_silent.
  - apply emits_bind; [apply Hb|]. apply IH.
Qed.

Lemma emits_alloc_list P rs : emits P (alloc_list rs).
Proof. apply emits_silent. intros w. by rewrite alloc_list_run. Qed.

Lemma emits_alloc_lists P rss : emits P (alloc_lists rss).
Proof. apply emits_silent. intros w. by rewrite alloc_lists_run. Qed.

Lemma emits_ret {A} P (a : A) : emits P (mret a).
Proof. by apply emits_silent. Qed.

Lemma emits_raise {A} P e : emits P (@raise A e).
Proof. by apply emits_silent. Qed.

Lemma emits_time P : emits P time_time.
Proof. by apply emits_silent. Qed.

Lemma emits_read P l : emits P (read l).
Proof. by apply emits_silent. Qed.

Lemma emits_heap_now P : emits P heap_now.
Proof. by apply emits_silent. Qed.

Lemma emits_setitem P l k v : emits P (setitem l k v).
Proof. by apply emits_silent. Qed.

Create HintDb emits.
#[local] Hint Resolve emits_alloc_list emits_alloc_lists emits_ret emits_raise
  emits_time emits_read emits_heap_now emits_setitem : emits.

Ltac emits_step :=
  first
    [ solve [auto with emits]
    | solve [apply emits_call; done]
    | solve [apply emits_call; simpl;
             repeat match goal with |- context [if ?b then _ else _] =>
                      destruct b end; done]
    | apply emits_bind; [| intros ?]
    | apply emits_for_each; intros ?? ].

Tactic Notation "emits_bind" "as" ident(x) := apply emits_bind; [| intros x].

Lemma counts_bind {A B} n1 n2 (m : M A) (f : A -> M B) :
  counts n1 m -> (forall a, counts n2 (f a)) -> counts (n1 + n2) (m ≫= f).
Proof.
  intros Hm Hf w b w' t Hrun.
  apply bind_ok_inv in Hrun as (a & w1 & t1 & t2 & H1 & H2 & ->).
  unfold ocr_logs. rewrite List.filter_app, length_app.
  f_equal; [by eapply Hm|by eapply Hf].
Qed.

Lemma counts_of_emits {A} (m : M A) :
  emits (fun e => negb (is_ocr_time_log e)) m -> counts 0 m.
Proof.
  intros Hm w a w' t Hrun. specialize (Hm w). rewrite Hrun in Hm.
  unfold trace_of in Hm. simpl in Hm. clear Hrun. unfold ocr_logs.
  induction Hm as [|e t He Ht IH]; [done|]. simpl.
  destruct (is_ocr_time_log e); [done|exact IH].
Qed.

Lemma counts_raise {A} n e : counts n (@raise A e).
Proof. by intros w a w' t. Qed.

Lemma counts_for_each {A S} (xs : list A) (b : A -> S -> M S) s :
  (forall x s, counts 1 (b x s)) -> counts (length xs) (for_each xs b s).
Proof.
  intros Hb. revert s. induction xs as [|x xs IH]; intros s; simpl.
  - by intros w a w' t [= <- <- <-].
  - apply (counts_bind 1); [apply Hb|]. apply IH.
Qed.

Section Order.

Context {Img Pil MfdRes OcrLine : Type}.
Variable U : @Utils Img Pil OcrLine.
Variable self : @BatchAnalyze Img Pil MfdRes OcrLine.

Lemma emits_layout_stage images :
  emits is_stage_event (layout_stage U self images).
Proof.
  unfold layout_stage, call_regions, call_region_lists.
  repeat match goal with
         | |- context [String.eqb ?a ?b] => destruct (String.eqb a b)
         end; repeat emits_step.
Qed.

Lemma emits_formula_stage images ilr :
  emits is_stage_event (formula_stage self images ilr).
Proof.
  unfold formula_stage, call_region_lists.
  destruct (apply_formula (model self)); [|emits_step].
  repeat emits_step. unfold add_formulas.
  destruct s as [ilr'|]; [|emits_step].
  destruct (ilr' !! x); [|emits_step]. destruct (_ !! x); emits_step.
Qed.

Lemma emits_table_html_code P new_image :
  (forall name, P (ETableModel name) = true) ->
  emits P (table_html_code U self new_image).
Proof.
  intros HP. unfold table_html_code.
  repeat match goal with
         | |- context [String.eqb ?a ?b] => destruct (String.eqb a b)
         end.
  - emits_bind as r; [by apply emits_call|]. emits_step.
  - by apply emits_call.
  - emits_bind as r; [by apply emits_call|]. destruct r as [[??]?].
    emits_step.
  - emits_step.
Qed.

Lemma emits_attach_html P res html_code :
  (forall m, P (ELog Warning m) = true) ->
  emits P (attach_html res html_code).
Proof.
  intros HP. unfold attach_html.
  destruct (PyStr.truthy html_code); [|by apply emits_call].
  destruct html_code as [s|]; [|emits_step].
  destruct (expected_ending s); [emits_step|by apply emits_call].
Qed.

(** The table stage logs no closed OCR stage and nothing but per-image
    events. *)
Lemma emits_table_stage P pil_img table_res_list :
  (forall name, P (ETableModel name) = true) ->
  (forall m, P (ELog Warning m) = true) ->
  (forall c, P (ELog Info (TableTime c)) = true) ->
  emits P (table_stage U self pil_img table_res_list).
Proof.
  intros H1 H2 H3. unfold table_stage.
  destruct (apply_table (model self)); [|emits_step].
  emits_bind as table_start; [emits_step|].
  emits_bind as u.
  { apply emits_for_each. intros res u. unfold table_region.
    emits_bind as r; [emits_step|].
    destruct (crop_img U r pil_img None None) as [new_image ignored].
    emits_bind as t0; [emits_step|].
    emits_bind as html_code; [by apply emits_table_html_code|].
    emits_bind as t1; [emits_step|].
    emits_bind as u'.
    - destruct (_ >? _)%Z; [by apply emits_call|emits_step].
    - by apply emits_attach_html. }
  emits_bind as now; [emits_step|]. by apply emits_call.
Qed.

Lemma emits_ocr_region P index pil_img mfd res ilr :
  (forall rec, P (EOcr rec) = true) ->
  emits P (ocr_region U self index pil_img mfd res ilr).
Proof.
  intros HP. unfold ocr_region. emits_bind as r; [emits_step|].
  destruct (crop_img U r pil_img _ _) as [new_image useful_list].
  emits_bind as out.
  { destruct (apply_ocr (model self)); by apply emits_call. }
  emits_bind as ocr_res; [destruct out; emits_step|].
  destruct ocr_res as [[|line lines]|]; repeat emits_step.
Qed.

Lemma emits_process_image images index ilr :
  emits is_per_image_event (process_image U self images index ilr).
Proof.
  unfold process_image. destruct ilr as [ilr|]; [|emits_step].
  emits_bind as layout_res; [destruct (ilr !! index); emits_step|].
  emits_bind as image; [destruct (images !! index); emits_step|].
  emits_bind as h; [emits_step|].
  destruct (get_res_list_from_layout_res U _)
    as [[ocr_res_list table_res_list] mfd].
  emits_bind as ocr_start; [emits_step|].
  emits_bind as ilr'.
  { apply emits_for_each. intros res acc. by apply emits_ocr_region. }
  emits_bind as now; [emits_step|].
  emits_bind as u; [by apply emits_call|].
  emits_bind as u'; [by apply emits_table_stage|]. emits_step.
Qed.

(** An image that is processed to the end closes its OCR stage once. *)
Lemma counts_process_image images index ilr :
  counts 1 (process_image U self images index ilr).
Proof.
  unfold process_image. destruct ilr as [ilr|]; [|apply counts_raise].
  apply (counts_bind 0 1).
  { apply counts_of_emits. destruct (ilr !! index); emits_step. }
  intros layout_res. apply (counts_bind 0 1).
  { apply counts_of_emits. destruct (images !! index); emits_step. }
  intros image. apply (counts_bind 0 1); [apply counts_of_emits; emits_step|].
  intros h.
  destruct (get_res_list_from_layout_res U _)
    as [[ocr_res_list table_res_list] mfd].
  apply (counts_bind 0 1); [apply counts_of_emits; emits_step|].
  intros ocr_start. apply (counts_bind 0 1).
  { apply counts_of_emits. apply emits_for_each. intros res acc.
    by apply emits_ocr_region. }
  intros ilr'. apply (counts_bind 0 1); [apply counts_of_emits; emits_step|].
  intros now. apply (counts_bind 1 0).
  { intros w a w' t. rewrite run_emit. intros [= _ _ <-].
    by destruct (apply_ocr (model self)). }
  intros u. apply (counts_bind 0 0).
  { apply counts_of_emits. by apply emits_table_stage. }
  intros u'. apply counts_of_emits. emits_step.
Qed.

(** C8, as amended.  In every invocation of the orchestrator the trace has
    one of two shapes.  Either the cleanup was reached: it is called once,
    on the model's device with the threshold 8, after the calls of the
    layout and formula models and before everything the per-image loop
    does; when the invocation completes, the OCR stage of every image of
    the batch was closed after the cleanup and none before.  Or the
    invocation raised during the layout or formula stage, before the
    cleanup. *)
Theorem cleanup_precedes_per_image_processing (images : list Img) w :
  let r := BatchAnalyze_call U self images w in
  (exists pre post,
     trace_of r = pre ++ ECleanVram (device (model self)) 8 :: post /\
     Forall (fun e => is_stage_event e = true) pre /\
     Forall (fun e => is_per_image_event e = true) post /\
     (forall a, result_of r = Ok a ->
                ocr_logs pre = 0 /\ ocr_logs post = length images)) \/
  (Forall (fun e => is_stage_event e = true) (trace_of r) /\
   exists e, result_of r = Raise e).
Proof.
  intros r. subst r. unfold BatchAnalyze_call, call_body.
  rewrite run_bind, run_bind.
  pose proof (emits_layout_stage images w) as H0.
  destruct (layout_stage U self images w) as [[[ilr0|e0] w1] t0];
    [|right; split; [exact H0|by exists e0]].
  rewrite run_bind.
  pose proof (emits_formula_stage images ilr0 w1) as H1.
  destruct (formula_stage self images ilr0 w1) as [[[ilr1|e1] w2] t1].
  2:{ right. split; [by apply Forall_app|by exists e1]. }
  rewrite run_bind, run_emit. cbn iota beta.
  pose proof (emits_for_each is_per_image_event (seq 0 (length images))
                (process_image U self images) ilr1
                (fun x s => emits_process_image images x s) w2) as H2.
  pose proof (counts_for_each (seq 0 (length images))
                (process_image U self images) ilr1
                (fun x s => counts_process_image images x s) w2) as H3.
  destruct (for_each (seq 0 (length images)) _ ilr1 w2) as [[r2 w3] t2].
  unfold trace_of in *. cbn [fst snd] in *.
  left. exists (t0 ++ t1), t2. split.
  { destruct r2; cbn; by rewrite ?app_nil_r, <- ?app_assoc. }
  split; [by apply Forall_app|]. split; [done|].
  intros a Ha. destruct r2 as [a2|e2]; [|done]. split.
  - unfold ocr_logs. clear -H0 H1.
    assert (Forall (fun e => is_stage_event e = true) (t0 ++ t1)) as H
      by by apply Forall_app.
    induction H as [|e t He Ht IH]; [done|]. simpl.
    destruct e; try done; exact IH.
  - rewrite (H3 a2 w3 t2 eq_refl). by rewrite length_seq.
Qed.

End Order.

(** C8, counterexample.  One page image with two text blocks: the cleanup is
    followed by the two OCR calls and by the log line of the page, so it
    does not come after the per-image processing. *)
Lemma cleanup_runs_before_the_pages :
  trace_of (BatchAnalyze_call utils
              {| model := yolo_ocr_only; batch_ratio := 1 |} [7] w0)
  = [ELayoutBatchPredict 4; ECleanVram "cuda" 8; EOcr None; EOcr None;
     ELog Info (OcrTime 1)] /\
  ~ cleanup_after_processing
      (trace_of (BatchAnalyze_call utils
                   {| model := yolo_ocr_only; batch_ratio := 1 |} [7] w0)).
Proof.
  assert (trace_of (BatchAnalyze_call utils
                      {| model := yolo_ocr_only; batch_ratio := 1 |} [7] w0)
          = [ELayoutBatchPredict 4; ECleanVram "cuda" 8; EOcr None; EOcr None;
             ELog Info (OcrTime 1)]) as Ht by (vm_compute; reflexivity).
  split; [exact Ht|]. rewrite Ht. intros H.
  specialize (H [ELayoutBatchPredict 4]
                [EOcr None; EOcr None; ELog Info (OcrTime 1)] "cuda" 8%Z
                eq_refl).
  by inversion H.
Qed.

(** ** The shape of the list that the orchestrator builds *)

(** An invariant of the loop state holds after a loop that completes. *)
Lemma for_each_inv {A S} (I : S -> Prop) (xs : list A) (b : A -> S -> M S) :
  (forall x s w s' w' t, I s -> b x s w = (Ok s', w', t) -> I s') ->
  forall s w s' w' t,
    I s -> for_each xs b s w = (Ok s', w', t) -> I s'.
Proof.
  intros Hb. induction xs as [|x xs IH]; intros s w s' w' t Hs; simpl.
  - by intros [= <- _ _].
  - intros Hrun.
    apply bind_ok_inv in Hrun as (s1 & w1 & t1 & t2 & H1 & H2 & _).
    eapply IH; [|exact H2]. by eapply Hb.
Qed.

Section Shape.

Context {Img Pil MfdRes OcrLine : Type}.
Variable U : @Utils Img Pil OcrLine.
Variable self : @BatchAnalyze Img Pil MfdRes OcrLine.

Lemma layout_stage_length images w o w' t :
  layout_stage U self images w = (Ok o, w', t) ->
  (layout_model_name (model self) = LAYOUTLMv3 (MODEL_NAME U) ->
   bound_with_length (length images) o) /\
  (layout_model_name (model self) <> LAYOUTLMv3 (MODEL_NAME U) ->
   layout_model_name (model self) = DocLayout_YOLO (MODEL_NAME U) ->
   bound_with_length
     (length (layout_model_batch_predict (model self) images
                (batch_ratio self * YOLO_LAYOUT_BASE_BATCH_SIZE))) o).
Proof.
  unfold layout_stage. intros Hrun. split.
  - intros Hn. apply String.eqb_eq in Hn. rewrite Hn in Hrun.
    apply bind_ok_inv in Hrun as (ilr & w1 & t1 & t2 & H1 & [= <- _ _] & _).
    exists ilr. split; [done|].
    assert (forall (xs : list Img) acc w ilr w1 t1,
              for_each xs (fun image images_layout_res =>
                layout_res ←
                  call_regions ELayoutModel
                    (layout_model (model self) image []);
                mret (images_layout_res ++ [layout_res])) acc w
              = (Ok ilr, w1, t1) ->
              length ilr = length acc + length xs) as Hloop.
    { clear. induction xs as [|x xs IH]; intros acc w ilr w1 t1; simpl.
      - intros [= <- _ _]. lia.
      - intros Hrun.
        apply bind_ok_inv in Hrun as (s1 & w2 & t2 & t3 & H1 & H2 & _).
        apply bind_ok_inv in H1 as (lr & w3 & t4 & t5 & _ & [= <- _ _] & _).
        apply IH in H2. rewrite length_app in H2. simpl in H2. lia. }
    by apply Hloop in H1.
  - intros Hn1 Hn2. apply String.eqb_neq in Hn1. apply String.eqb_eq in Hn2.
    rewrite Hn1, Hn2 in Hrun.
    apply bind_ok_inv in Hrun as (ilr & w1 & t1 & t2 & H1 & [= <- _ _] & _).
    exists ilr. split; [done|]. unfold call_region_lists in H1.
    rewrite run_bind, run_call in H1. cbn iota beta in H1.
    rewrite alloc_lists_run in H1. injection H1 as <- _ _.
    apply blocks_length.
Qed.

Lemma formula_stage_length images n o w o' w' t :
  bound_with_length n o ->
  formula_stage self images o w = (Ok o', w', t) ->
  bound_with_length n o'.
Proof.
  intros (ilr & -> & Hn) Hrun.
  destruct (apply_formula (model self)) eqn:Hf.
  - destruct (formula_stage_on_shape self images _ _ _ _ _ Hf Hrun)
      as (ilr1 & -> & Hlen & _).
    exists ilr1. split; [done|]. lia.
  - rewrite formula_stage_off in Hrun by done.
    injection Hrun as <- _ _. by exists ilr.
Qed.

Lemma ocr_region_length index pil_img mfd res ilr w ilr' w' t :
  ocr_region U self index pil_img mfd res ilr w = (Ok ilr', w', t) ->
  length ilr' = length ilr.
Proof.
  unfold ocr_region. intros Hrun.
  apply bind_ok_inv in Hrun as (r & w1 & t1 & t2 & _ & Hrun & _).
  destruct (crop_img U r pil_img _ _) as [new_image useful_list].
  apply bind_ok_inv in Hrun as (out & w2 & t3 & t4 & _ & Hrun & _).
  apply bind_ok_inv in Hrun as (ocr_res & w3 & t5 & t6 & _ & Hrun & _).
  destruct ocr_res as [[|line lines]|].
  - by injection Hrun as <- _ _.
  - apply bind_ok_inv in Hrun as (ls & w4 & t7 & t8 & _ & [= <- _ _] & _).
    apply length_alter.
  - by injection Hrun as <- _ _.
Qed.

(** An image that is processed to the end had its list, and no list was
    added or dropped. *)
Lemma process_image_length images n index o w o' w' t :
  bound_with_length n o ->
  process_image U self images index o w = (Ok o', w', t) ->
  bound_with_length n o' /\ index < n.
Proof.
  intros (ilr & -> & Hn). unfold process_image. intros Hrun.
  apply bind_ok_inv in Hrun as (layout_res & w1 & t1 & t2 & H1 & Hrun & _).
  destruct (ilr !! index) as [lr|] eqn:Hidx; [|done].
  apply lookup_lt_Some in Hidx.
  apply bind_ok_inv in Hrun as (image & w2 & t3 & t4 & _ & Hrun & _).
  apply bind_ok_inv in Hrun as (h & w3 & t5 & t6 & _ & Hrun & _).
  destruct (get_res_list_from_layout_res U _)
    as [[ocr_res_list table_res_list] mfd].
  apply bind_ok_inv in Hrun as (ocr_start & w4 & t7 & t8 & _ & Hrun & _).
  apply bind_ok_inv in Hrun as (ilr' & w5 & t9 & t10 & Hocr & Hrun & _).
  apply bind_ok_inv in Hrun as (now & w6 & t11 & t12 & _ & Hrun & _).
  apply bind_ok_inv in Hrun as (u & w7 & t13 & t14 & _ & Hrun & _).
  apply bind_ok_inv in Hrun as (u' & w8 & t15 & t16 & _ & [= <- _ _] & _).
  split; [|lia]. exists ilr'. split; [done|].
  rewrite <- Hn.
  eapply (for_each_inv (fun l => length l = length ilr)); [|done|exact Hocr].
  intros res s w9 s' w10 t17 Hs Hstep.
  apply ocr_region_length in Hstep. lia.
Qed.

(** The list that a completed call has built in [images_layout_res]: one
    region list per image when the layout model is called image by image,
    and as many lists as the batched layout model returned otherwise, which
    are then at least as many as the images. *)
Lemma call_body_index_aligned images w o w' t :
  call_body U self images w = (Ok o, w', t) ->
  (layout_model_name (model self) = LAYOUTLMv3 (MODEL_NAME U) ->
   bound_with_length (length images) o) /\
  (layout_model_name (model self) <> LAYOUTLMv3 (MODEL_NAME U) ->
   layout_model_name (model self) = DocLayout_YOLO (MODEL_NAME U) ->
   bound_with_length
     (length (layout_model_batch_predict (model self) images
                (batch_ratio self * YOLO_LAYOUT_BASE_BATCH_SIZE))) o /\
   length images <=
   length (layout_model_batch_predict (model self) images
             (batch_ratio self * YOLO_LAYOUT_BASE_BATCH_SIZE))).
Proof.
  unfold call_body. intros Hrun.
  apply bind_ok_inv in Hrun as (o0 & w1 & t1 & t2 & Hlay & Hrun & _).
  apply bind_ok_inv in Hrun as (o1 & w2 & t3 & t4 & Hform & Hrun & _).
  apply bind_ok_inv in Hrun as (u & w3 & t5 & t6 & _ & Hloop & _).
  apply layout_stage_length in Hlay as [Hv3 Hyolo].
  assert (forall n, bound_with_length n o0 ->
            bound_with_length n o /\ length images <= n) as Hn.
  { intros n H0. pose proof (formula_stage_length _ _ _ _ _ _ _ H0 Hform) as H1.
    split.
    - eapply (for_each_inv (bound_with_length n)); [|exact H1|exact Hloop].
      intros x s w4 s' w5 t7 Hs Hstep.
      by apply (process_image_length _ _ _ _ _ _ _ _ Hs) in Hstep as [? _].
    - assert (forall xs s w4 s' w5 t7,
                bound_with_length n s ->
                for_each xs (process_image U self images) s w4
                = (Ok s', w5, t7) ->
                Forall (fun index => index < n) xs) as Hall.
      { induction xs as [|x xs IH]; intros s w4 s' w5 t7 Hs; simpl.
        - constructor.
        - intros Hr.
          apply bind_ok_inv in Hr as (s1 & w6 & t8 & t9 & Hx & Hxs & _).
          apply (process_image_length _ _ _ _ _ _ _ _ Hs) in Hx as [Hs1 Hlt].
          constructor; [done|]. by eapply IH. }
      specialize (Hall _ _ _ _ _ _ H1 Hloop).
      destruct (decide (length images = 0)) as [->|Hne]; [lia|].
      rewrite Forall_forall in Hall.
      specialize (Hall (length images - 1)).
      assert (length images - 1 < n); [|lia].
      apply Hall, elem_of_seq. lia. }
  split.
  - intros Hname. by apply Hn, Hv3.
  - intros Hn1 Hn2. by apply Hn, Hyolo.
Qed.

End Shape.

(** * Further properties of the two functions *)

(** ** Computations that cannot raise *)

Lemma raises_bind {A B} P (m : M A) (f : A -> M B) :
  raises P m -> (forall a, raises P (f a)) -> raises P (m ≫= f).
Proof.
  intros Hm Hf w e w' t. rewrite run_bind.
  destruct (m w) as [[[a|e1] w1] t1] eqn:Hrun.
  - destruct (f a w1) as [[r w2] t2] eqn:Hf1. intros [= -> _ _].
    by eapply Hf.
  - intros [= <- _ _]. by eapply Hm.
Qed.

(** The same, when the continuation only has to behave on the values that
    [m] can return. *)
Lemma raises_bind_ok {A B} P (m : M A) (f : A -> M B) :
  raises P m ->
  (forall a w w' t, m w = (Ok a, w', t) -> raises P (f a)) ->
  raises P (m ≫= f).
Proof.
  intros Hm Hf w e w' t. rewrite run_bind.
  destruct (m w) as [[[a|e1] w1] t1] eqn:Hrun.
  - destruct (f a w1) as [[r w2] t2] eqn:Hf1. intros [= -> _ _].
    by eapply Hf.
  - intros [= <- _ _]. by eapply Hm.
Qed.

Lemma raises_ret {A} P (a : A) : raises P (mret a).
Proof. by intros w e w' t. Qed.

Lemma raises_call {A} P ev (a : A) : raises P (call ev a).
Proof. by intros w e w' t. Qed.

Lemma raises_emit P ev : raises P (emit ev).
Proof. by intros w e w' t. Qed.

Lemma raises_time P : raises P time_time.
Proof. by intros w e w' t. Qed.

Lemma raises_heap_now P : raises P heap_now.
Proof. by intros w e w' t. Qed.

Lemma raises_read P l : raises P (read l).
Proof. by intros w e w' t. Qed.

Lemma raises_setitem P l k v : raises P (setitem l k v).
Proof. by intros w e w' t. Qed.

Lemma raises_alloc_list P rs : raises P (alloc_list rs).
Proof. intros w e w' t. by rewrite alloc_list_run. Qed.

Lemma raises_alloc_lists P rss : raises P (alloc_lists rss).
Proof. intros w e w' t. by rewrite alloc_lists_run. Qed.

(** A loop raises what its body raises on the states that the loop can
    reach. *)
Lemma raises_for_each {A S} P (I : S -> Prop) (xs : list A)
  (b : A -> S -> M S) :
  (forall x s, x ∈ xs -> I s -> raises P (b x s)) ->
  (forall x s w s' w' t, x ∈ xs -> I s -> b x s w = (Ok s', w', t) -> I s') ->
  forall s, I s -> raises P (for_each xs b s).
Proof.
  induction xs as [|x xs IH]; intros Hb Hi s Hs; simpl.
  - apply raises_ret.
  - apply raises_bind_ok.
    + apply Hb; [apply elem_of_cons; auto|done].
    + intros s1 w w1 t1 Hrun. apply IH.
      * intros y s2 Hy. apply Hb. apply elem_of_cons; auto.
      * intros y s2 w2 s3 w3 t3 Hy. apply Hi. apply elem_of_cons; auto.
      * eapply Hi; [|exact Hs|exact Hrun]. apply elem_of_cons; auto.
Qed.

Lemma never_raises_ok {A} (m : M A) w :
  raises (fun _ => False) m -> exists a w' t, m w = (Ok a, w', t).
Proof.
  intros H. destruct (m w) as [[[a|e] w1] t1] eqn:Hrun; [by eexists _, _, _|].
  destruct (H _ _ _ _ Hrun).
Qed.

Create HintDb raises.
#[local] Hint Resolve raises_ret raises_call raises_emit raises_time
  raises_heap_now raises_read raises_setitem raises_alloc_list
  raises_alloc_lists : raises.

Tactic Notation "raises_bind" "as" ident(x) := apply raises_bind; [| intros x].

Section Exceptions.

Context {Img Pil MfdRes OcrLine : Type}.
Variable U : @Utils Img Pil OcrLine.
Variable self : @BatchAnalyze Img Pil MfdRes OcrLine.

Lemma raises_layout_stage P images : raises P (layout_stage U self images).
Proof.
  unfold layout_stage, call_regions, call_region_lists.
  repeat match goal with
         | |- context [String.eqb ?a ?b] => destruct (String.eqb a b)
         end.
  - raises_bind as ilr; [|auto with raises].
    apply (raises_for_each P (fun _ => True)); [|done..].
    intros image acc _ _. raises_bind as lr; [|auto with raises].
    raises_bind as rs; auto with raises.
  - raises_bind as ilr; [|auto with raises].
    raises_bind as rss; auto with raises.
  - auto with raises.
Qed.

End Exceptions.

(** ** What happens to the heap *)

Section HeapSteps.

Variable R : list region -> list region -> Prop.
Hypothesis R_refl : forall h, R h h.
Hypothesis R_trans : forall h1 h2 h3, R h1 h2 -> R h2 h3 -> R h1 h3.
Hypothesis R_alloc : forall h r, R h (h ++ [r]).

Lemma hs_bind {A B} (m : M A) (f : A -> M B) :
  heap_step R m -> (forall a, heap_step R (f a)) -> heap_step R (m ≫= f).
Proof.
  intros Hm Hf w. rewrite run_bind. specialize (Hm w).
  destruct (m w) as [[[a|e] w1] t1]; [|done].
  specialize (Hf a w1). destruct (f a w1) as [[r w2] t2].
  unfold world_of in *. simpl in *. by eapply R_trans.
Qed.

Lemma hs_same {A} (m : M A) :
  (forall w, heap (world_of (m w)) = heap w) -> heap_step R m.
Proof. intros H w. rewrite H. apply R_refl. Qed.

Lemma hs_ret {A} (a : A) : heap_step R (mret a).
Proof. by apply hs_same. Qed.

Lemma hs_raise {A} e : heap_step R (@raise A e).
Proof. by apply hs_same. Qed.

Lemma hs_call {A} ev (a : A) : heap_step R (call ev a).
Proof. by apply hs_same. Qed.

Lemma hs_emit ev : heap_step R (emit ev).
Proof. by apply hs_same. Qed.

Lemma hs_time : heap_step R time_time.
Proof. by apply hs_same. Qed.

Lemma hs_heap_now : heap_step R heap_now.
Proof. by apply hs_same. Qed.

Lemma hs_read l : heap_step R (read l).
Proof. by apply hs_same. Qed.

Lemma hs_alloc r : heap_step R (alloc r).
Proof. intros w. apply R_alloc. Qed.

Lemma hs_for_each {A S} (xs : list A) (b : A -> S -> M S) s :
  (forall x s, heap_step R (b x s)) -> heap_step R (for_each xs b s).
Proof.
  intros Hb. revert s. induction xs as [|x xs IH]; intros s; simpl.
  - apply hs_ret.
  - apply hs_bind; [apply Hb|]. apply IH.
Qed.

Lemma hs_alloc_list rs : heap_step R (alloc_list rs).
Proof.
  apply hs_for_each. intros r acc. apply hs_bind; [apply hs_alloc|].
  intros l. apply hs_ret.
Qed.

Lemma hs_alloc_lists rss : heap_step R (alloc_lists rss).
Proof.
  apply hs_for_each. intros rs acc. apply hs_bind; [apply hs_alloc_list|].
  intros l. apply hs_ret.
Qed.

Context {Img Pil MfdRes OcrLine : Type}.
Variable U : @Utils Img Pil OcrLine.
Variable self : @BatchAnalyze Img Pil MfdRes OcrLine.

Lemma hs_layout_stage images : heap_step R (layout_stage U self images).
Proof.
  unfold layout_stage, call_regions, call_region_lists.
  repeat match goal with
         | |- context [String.eqb ?a ?b] => destruct (String.eqb a b)
         end.
  - apply hs_bind; [|intros; apply hs_ret].
    apply hs_for_each. intros image acc.
    apply hs_bind; [|intros; apply hs_ret].
    apply hs_bind; [apply hs_call|intros; apply hs_alloc_list].
  - apply hs_bind; [|intros; apply hs_ret].
    apply hs_bind; [apply hs_call|intros; apply hs_alloc_lists].
  - apply hs_ret.
Qed.

Lemma hs_formula_stage images ilr :
  heap_step R (formula_stage self images ilr).
Proof.
  unfold formula_stage, call_region_lists.
  destruct (apply_formula (model self)); [|apply hs_ret].
  apply hs_bind; [apply hs_call|intros mfd].
  apply hs_bind.
  { apply hs_bind; [apply hs_call|intros; apply hs_alloc_lists]. }
  intros fl. apply hs_for_each. intros i s. unfold add_formulas.
  destruct s as [l|]; [|apply hs_raise].
  destruct (l !! i); [|apply hs_raise].
  destruct (fl !! i); [apply hs_ret|apply hs_raise].
Qed.

Lemma hs_ocr_region index pil_img mfd res ilr :
  heap_step R (ocr_region U self index pil_img mfd res ilr).
Proof.
  unfold ocr_region. apply hs_bind; [apply hs_read|intros r].
  destruct (crop_img U r pil_img _ _) as [new_image useful_list].
  apply hs_bind.
  { destruct (apply_ocr (model self)); apply hs_call. }
  intros out. apply hs_bind.
  { destruct out; [apply hs_raise|apply hs_ret]. }
  intros ocr_res. destruct ocr_res as [[|line lines]|]; try apply hs_ret.
  apply hs_bind; [apply hs_alloc_list|intros; apply hs_ret].
Qed.

(** The per-image loop and the whole call, given what the table stage does
    to the heap. *)
Lemma hs_process_image images index ilr :
  (forall pil_img table_res_list,
     heap_step R (table_stage U self pil_img table_res_list)) ->
  heap_step R (process_image U self images index ilr).
Proof.
  intros Htab. unfold process_image. destruct ilr as [ilr|]; [|apply hs_raise].
  apply hs_bind.
  { destruct (ilr !! index); [apply hs_ret|apply hs_raise]. }
  intros layout_res. apply hs_bind.
  { destruct (images !! index); [apply hs_ret|apply hs_raise]. }
  intros image. apply hs_bind; [apply hs_heap_now|intros h].
  destruct (get_res_list_from_layout_res U _)
    as [[ocr_res_list table_res_list] mfd].
  apply hs_bind; [apply hs_time|intros ocr_start].
  apply hs_bind.
  { apply hs_for_each. intros res s. apply hs_ocr_region. }
  intros ilr'. apply hs_bind; [apply hs_time|intros now].
  apply hs_bind; [apply hs_emit|intros u].
  apply hs_bind; [apply Htab|intros; apply hs_ret].
Qed.

Lemma hs_call_body images :
  (forall pil_img table_res_list,
     heap_step R (table_stage U self pil_img table_res_list)) ->
  heap_step R (call_body U self images).
Proof.
  intros Htab. unfold call_body.
  apply hs_bind; [apply hs_layout_stage|intros ilr0].
  apply hs_bind; [apply hs_formula_stage|intros ilr1].
  apply hs_bind; [apply hs_emit|intros u].
  apply hs_for_each. intros i s. by apply hs_process_image.
Qed.

Lemma hs_BatchAnalyze_call images :
  (forall pil_img table_res_list,
     heap_step R (table_stage U self pil_img table_res_list)) ->
  heap_step R (BatchAnalyze_call U self images).
Proof.
  intros Htab. unfold BatchAnalyze_call.
  apply hs_bind; [by apply hs_call_body|intros; apply hs_ret].
Qed.

End HeapSteps.

Lemma keeps_regions_refl h : keeps_regions h h.
Proof. intros l r H. by exists r. Qed.

Lemma keeps_regions_trans h1 h2 h3 :
  keeps_regions h1 h2 -> keeps_regions h2 h3 -> keeps_regions h1 h3.
Proof.
  intros H12 H23 l r Hl. destruct (H12 l r Hl) as (r2 & Hl2 & Hk2).
  destruct (H23 l r2 Hl2) as (r3 & Hl3 & Hk3). exists r3. split; [done|].
  intros key Hkey. by rewrite Hk3, Hk2.
Qed.

Lemma keeps_regions_alloc h r : keeps_regions h (h ++ [r]).
Proof.
  intros l r0 Hl. exists r0. split; [|done]. by apply lookup_app_l_Some.
Qed.

Lemma keeps_regions_html h res v :
  keeps_regions h (alter (insert "html" v) res h).
Proof.
  intros l r Hl. destruct (decide (res = l)) as [->|Hne].
  - exists (<["html" := v]> r). rewrite list_lookup_alter_eq, Hl.
    split; [done|]. intros key Hkey. by rewrite lookup_insert_ne.
  - exists r. by rewrite list_lookup_alter_ne.
Qed.

Lemma emits_weaken {A} (P Q : event -> bool) (m : M A) :
  (forall e, P e = true -> Q e = true) -> emits P m -> emits Q m.
Proof.
  intros HPQ Hm w. specialize (Hm w). eapply Forall_impl; [exact Hm|].
  intros e. apply HPQ.
Qed.

Section HeapTheorems.

Context {Img Pil MfdRes OcrLine : Type}.
Variable U : @Utils Img Pil OcrLine.
Variable self : @BatchAnalyze Img Pil MfdRes OcrLine.

Lemma hs_table_stage_html pil_img table_res_list :
  heap_step keeps_regions (table_stage U self pil_img table_res_list).
Proof.
  pose proof keeps_regions_refl as Hr. pose proof keeps_regions_trans as Ht.
  unfold table_stage. destruct (apply_table (model self)); [|by apply hs_ret].
  apply hs_bind; [done|by apply hs_time|intros table_start].
  apply hs_bind; [done| |intros u].
  { apply hs_for_each; [done..|]. intros res u. unfold table_region.
    apply hs_bind; [done|by apply hs_read|intros r].
    destruct (crop_img U r pil_img None None) as [new_image ignored].
    apply hs_bind; [done|by apply hs_time|intros t0].
    apply hs_bind; [done| |intros html_code].
    { intros w.
      destruct (table_html_code_run U self new_image) as (h & t & H).
      rewrite H. apply Hr. }
    apply hs_bind; [done|by apply hs_time|intros t1].
    apply hs_bind; [done| |intros u'].
    { destruct (_ >? _)%Z; [by apply hs_emit|by apply hs_ret]. }
    intros w. rewrite attach_html_run.
    destruct html_code as [s|]; [destruct (markup_ok (Some s))|];
      try apply Hr.
    apply keeps_regions_html. }
  apply hs_bind; [done|by apply hs_time|intros now]. by apply hs_emit.
Qed.


Lemma emits_call_body_no_table images :
  apply_table (model self) = false ->
  emits no_table_event (call_body U self images).
Proof.
  intros Htab. unfold call_body.
  emits_bind as ilr0.
  { eapply emits_weaken; [|apply emits_layout_stage]. by intros []. }
  emits_bind as ilr1.
  { eapply emits_weaken; [|apply emits_formula_stage]. by intros []. }
  emits_bind as u; [by apply emits_call|].
  apply emits_for_each. intros index ilr. unfold process_image.
  destruct ilr as [ilr|]; [|emits_step].
  emits_bind as layout_res; [destruct (ilr !! index); emits_step|].
  emits_bind as image; [destruct (images !! index); emits_step|].
  emits_bind as h; [emits_step|].
  destruct (get_res_list_from_layout_res U _)
    as [[ocr_res_list table_res_list] mfd].
  emits_bind as ocr_start; [emits_step|].
  emits_bind as ilr'.
  { apply emits_for_each. intros res acc. by apply emits_ocr_region. }
  emits_bind as now; [emits_step|].
  emits_bind as u0.
  { apply emits_call. by destruct (apply_ocr (model self)). }
  emits_bind as u'; [|emits_step].
  unfold table_stage. rewrite Htab. emits_step.
Qed.

(** X4.  With table recognition disabled, an orchestrator call leaves every
    existing region dict exactly as it was: the heap after the call is the
    heap before it followed by the dicts created during the call.  No table
    backend is called, no warning is logged and no table time is logged. *)
Theorem table_disabled_changes_no_region (images : list Img) w :
  apply_table (model self) = false ->
  heap w `prefix_of` heap (world_of (BatchAnalyze_call U self images w)) /\
  Forall (fun e => no_table_event e = true)
         (trace_of (BatchAnalyze_call U self images w)).
Proof.
  intros Htab. split.
  - apply (hs_BatchAnalyze_call prefix).
    + by intros h.
    + intros h1 h2 h3. apply PreOrder_Transitive.
    + intros h r. by apply prefix_app_r.
    + intros pil_img table_res_list w1. unfold table_stage. by rewrite Htab.
  - unfold BatchAnalyze_call. rewrite run_bind.
    pose proof (emits_call_body_no_table images Htab w) as H.
    destruct (call_body U self images w) as [[[a|e] w1] t1]; [|done].
    unfold trace_of in *. simpl in *. by rewrite app_nil_r.
Qed.

End HeapTheorems.

Lemma table_disabled_changes_no_region_witness :
  apply_table (model yolo_ocr_only_call) = false /\
  heap w_table
  `prefix_of` heap (world_of (BatchAnalyze_call utils yolo_ocr_only_call
                                [7] w_table)) /\
  Forall (fun e => no_table_event e = true)
         (trace_of (BatchAnalyze_call utils yolo_ocr_only_call [7] w_table)).
Proof.
  split; [reflexivity|].
  by apply (table_disabled_changes_no_region utils yolo_ocr_only_call
              [7] w_table).
Defined.

(** ** More on the driver *)

Lemma cleans_bind {A B} (m : M A) (f : A -> M B) :
  emits not_clean_memory m -> (forall a, cleans_at_the_end (f a)) ->
  cleans_at_the_end (m ≫= f).
Proof.
  intros Hm Hf w. rewrite run_bind. specialize (Hm w).
  destruct (m w) as [[[a|e] w1] t1]; [|done].
  specialize (Hf a w1). destruct (f a w1) as [[[b|e] w2] t2];
    unfold result_of, trace_of in *; cbn [fst snd] in *.
  - destruct Hf as (t & -> & Ht). exists (t1 ++ t).
    split; [by rewrite app_assoc|by apply Forall_app].
  - by apply Forall_app.
Qed.

Lemma cleans_base {A} (a : A) :
  cleans_at_the_end (emit ECleanMemory ≫= fun _ => mret a).
Proof. intros w. by exists []. Qed.

Lemma cleans_raise {A} e : cleans_at_the_end (@raise A e).
Proof. intros w. constructor. Qed.

Section DriverTheorems.

Context {Img Pil MfdRes OcrLine : Type}.
Variable U : @Utils Img Pil OcrLine.
Variable env : @Env Img Pil MfdRes OcrLine.

Lemma resolve_end_page_id_run (dataset : Dataset Img) end_page_id w :
  exists t,
    resolve_end_page_id end_page_id dataset w
    = (Ok (effective_end end_page_id dataset), w, t) /\
    Forall (fun e => not_clean_memory e = true) t.
Proof.
  unfold resolve_end_page_id, effective_end.
  destruct end_page_id as [e|]; [destruct (e =? 0)%Z|].
  - exists [EDatasetLen]. split; [done|by repeat constructor].
  - exists []. split; [done|constructor].
  - exists [EDatasetLen]. split; [done|by repeat constructor].
Qed.

Lemma formula_stage_empty (self : @BatchAnalyze Img Pil MfdRes OcrLine) o w :
  exists w' t, formula_stage self [] o w = (Ok o, w', t).
Proof.
  unfold formula_stage, call_region_lists.
  destruct (apply_formula (model self)); [|by eexists _, _].
  rewrite run_bind, run_call. cbn iota beta.
  rewrite run_bind, run_bind, run_call. cbn iota beta.
  rewrite alloc_lists_run. cbn iota beta. cbn [length seq for_each].
  rewrite run_ret. by eexists _, _.
Qed.

(** On the empty batch neither loop runs: the call completes for every
    model bundle. *)
Lemma BatchAnalyze_call_empty (self : @BatchAnalyze Img Pil MfdRes OcrLine) w :
  exists w' t, BatchAnalyze_call U self [] w = (Ok PyNone, w', t).
Proof.
  unfold BatchAnalyze_call, call_body.
  destruct (never_raises_ok (layout_stage U self []) w
              (raises_layout_stage U self _ []))
    as (o & w1 & t1 & Hlay).
  destruct (formula_stage_empty self o w1) as (w2 & t2 & Hform).
  rewrite run_bind, run_bind, Hlay. cbn iota beta.
  rewrite run_bind, Hform. cbn iota beta.
  rewrite run_bind, run_emit. cbn iota beta. cbn [length seq for_each].
  rewrite run_ret. cbn iota beta. rewrite run_ret. by eexists _, _.
Qed.

(** With no page in the range the page loop pops nothing. *)
Lemma page_loop_out_of_range (pre dataset : Dataset Img) s e a acc w :
  pages_in_range s e (length pre) dataset = [] ->
  exists w' t,
    for_each (seq (length pre) (length dataset))
      (page_record (pre ++ dataset) s e) (a, acc) w
    = (Ok (a, acc ++ page_records s e (length pre) dataset []), w', t) /\
    Forall (fun e => not_clean_memory e = true) t.
Proof.
  revert pre acc w. induction dataset as [|p ds IH]; intros pre acc w Hnone.
  - simpl. rewrite app_nil_r. by eexists _, _.
  - cbn [length seq for_each pages_in_range page_records] in *.
    destruct (in_range s (length pre) e) eqn:Hr; [done|].
    rewrite run_bind. unfold page_record at 1. rewrite run_bind.
    rewrite (get_page_image_lookup _ _ p)
      by (by rewrite lookup_app_r, Nat.sub_diag by lia).
    cbn iota beta. rewrite run_bind, Hr, run_ret. cbn iota beta.
    rewrite run_ret. cbn iota beta.
    specialize (IH (pre ++ [p])
                   (acc ++ [{| layout_dets := [];
                               page_info := {| page_no := length pre;
                                               page_height := height p;
                                               page_width := width p |} |}])
                   w).
    rewrite length_app, <- app_assoc in IH. cbn [length app] in IH.
    replace (length pre + 1) with (S (length pre)) in IH by lia.
    destruct (IH Hnone) as (w' & t & -> & Ht).
    eexists _, _. split; [by rewrite <- app_assoc|].
    by repeat constructor.
Qed.

Lemma page_records_nil_empty (dataset : Dataset Img) s e k :
  Forall (fun rec => layout_dets rec = [])
         (page_records s e k dataset []).
Proof.
  revert k. induction dataset as [|p ds IH]; intros k; simpl; [constructor|].
  destruct (in_range s k e); [constructor|]. by constructor.
Qed.

Lemma pages_in_range_nil (dataset : Dataset Img) s e k :
  pages_in_range s e k dataset = [] <->
  forall i, i < length dataset -> in_range s (k + i) e = false.
Proof.
  revert k. induction dataset as [|p ds IH]; intros k; simpl.
  - split; [intros _ i; lia|done].
  - destruct (in_range s k e) eqn:Hr.
    + split; [done|]. intros H. specialize (H 0 ltac:(lia)).
      rewrite Nat.add_0_r in H. congruence.
    + rewrite IH. split.
      * intros H [|i] Hi; [by rewrite Nat.add_0_r|].
        replace (k + S i) with (S k + i) by lia. apply H. lia.
      * intros H i Hi. replace (S k + i) with (k + S i) by lia.
        apply H. lia.
Qed.


End DriverTheorems.

Section DriverEffects.

Context {Img Pil MfdRes OcrLine : Type}.
Variable U : @Utils Img Pil OcrLine.
Variable env : @Env Img Pil MfdRes OcrLine.

Lemma emits_get_page_image (dataset : Dataset Img) index :
  emits not_clean_memory (get_page_image dataset index).
Proof.
  unfold get_page_image. destruct (dataset !! index).
  - by apply emits_call.
  - emits_bind as u; [by apply emits_call|emits_step].
Qed.

Lemma emits_build_images (dataset : Dataset Img) s e :
  emits not_clean_memory (build_images dataset s e).
Proof.
  unfold build_images. emits_bind as n; [by apply emits_call|].
  apply emits_for_each. intros index images.
  destruct (in_range s index e); [|emits_step].
  emits_bind as d; [apply emits_get_page_image|emits_step].
Qed.

Lemma emits_page_record (dataset : Dataset Img) s e index st :
  emits not_clean_memory (page_record dataset s e index st).
Proof.
  unfold page_record. destruct st as [a mj].
  emits_bind as d; [apply emits_get_page_image|]. cbn zeta.
  emits_bind as ra; [|destruct ra as [result rest]; apply emits_ret].
  destruct (in_range s index e); [|apply emits_ret].
  destruct a as [|[|result rest]]; cbn [pop0];
    [apply emits_raise|apply emits_raise|apply emits_ret].
Qed.

Lemma emits_BatchAnalyze_call_driver
  (self : @BatchAnalyze Img Pil MfdRes OcrLine) images :
  emits not_clean_memory (BatchAnalyze_call U self images).
Proof.
  unfold BatchAnalyze_call, call_body.
  emits_bind as o; [|emits_step].
  emits_bind as ilr0.
  { eapply emits_weaken; [|apply emits_layout_stage]. by intros []. }
  emits_bind as ilr1.
  { eapply emits_weaken; [|apply emits_formula_stage]. by intros []. }
  emits_bind as u; [by apply emits_call|].
  apply emits_for_each. intros index ilr.
  eapply emits_weaken; [|apply emits_process_image]. by intros [].
Qed.

(** X7.  [clean_memory()] is the last thing a driver call does, and it is
    done only by a call that returns: in a run that returns, the trace ends
    with the cleanup and holds no other one; in a run that raises, for
    whatever reason, the cleanup is not called at all. *)
Theorem clean_memory_only_on_return dataset ocr show_log start_page_id
  end_page_id lang layout_model formula_enable table_enable batch_ratio w :
  let r := doc_batch_analyze U env dataset ocr show_log start_page_id
             end_page_id lang layout_model formula_enable table_enable
             batch_ratio w in
  match result_of r with
  | Ok _ => exists t, trace_of r = t ++ [ECleanMemory] /\
                      Forall (fun e => not_clean_memory e = true) t
  | Raise _ => Forall (fun e => not_clean_memory e = true) (trace_of r)
  end.
Proof.
  intros r. subst r.
  assert (cleans_at_the_end
            (doc_batch_analyze U env dataset ocr show_log start_page_id
               end_page_id lang layout_model formula_enable table_enable
               batch_ratio)) as H; [|exact (H w)].
  unfold doc_batch_analyze.
  destruct (cuda_is_available env); cbn [negb]; [|apply cleans_raise].
  apply cleans_bind.
  { intros w0.
    destruct (resolve_end_page_id_run dataset end_page_id w0)
      as (t & Hres & Ht).
    by rewrite Hres. }
  intros e'. apply cleans_bind; [by apply emits_call|].
  intros custom_model. apply cleans_bind; [apply emits_build_images|].
  intros images. apply cleans_bind; [apply emits_BatchAnalyze_call_driver|].
  intros analyze_result. apply cleans_bind; [by apply emits_call|].
  intros n. apply cleans_bind.
  { apply emits_for_each. intros index st. apply emits_page_record. }
  intros [a mj]. apply cleans_base.
Qed.

End DriverEffects.

(** ** The image batch *)

Lemma pages_in_range_sublist {Img} (dataset : Dataset Img) s e k :
  pages_in_range s e k dataset `sublist_of` dataset.
Proof.
  revert k. induction dataset as [|p ds IH]; intros k; simpl; [done|].
  destruct (in_range s k e).
  - by apply sublist_skip.
  - by apply sublist_cons.
Qed.

Lemma in_range_spec s i e :
  in_range s i e = true <-> (s <= Z.of_nat i <= e)%Z.
Proof. unfold in_range. rewrite andb_true_iff, !Z.leb_le. tauto. Qed.

(** X8.  The image batch that the driver builds (lines 192 and 203-208)
    holds the images of the pages whose index lies in the range, in page
    order and each once: it is the image list of a sublist of the dataset,
    and a page is in that sublist exactly when an index of it is in the
    range.  With [end_page_id] unset the range is every page from
    [start_page_id] on; with an [end_page_id] other than 0 it is the pages
    [start_page_id <= i <= end_page_id]. *)
Theorem image_batch_of_the_range {Img} (dataset : Dataset Img)
  start_page_id end_page_id w :
  let e := effective_end end_page_id dataset in
  let selected := pages_in_range start_page_id e 0 dataset in
  result_of ((end_page_id' ← resolve_end_page_id end_page_id dataset;
              build_images dataset start_page_id end_page_id') w)
  = Ok (map img selected) /\
  selected `sublist_of` dataset /\
  (forall p, p ∈ selected <->
             exists i, dataset !! i = Some p /\
                       in_range start_page_id i e = true) /\
  (forall i, i < length dataset ->
     (end_page_id = None ->
      (in_range start_page_id i e = true <-> (start_page_id <= Z.of_nat i)%Z))
     /\
     (forall z, end_page_id = Some z -> z <> 0%Z ->
      (in_range start_page_id i e = true <->
       (start_page_id <= Z.of_nat i <= z)%Z))).
Proof.
  intros e selected. split; [|split; [|split]].
  - rewrite run_bind.
    pose proof (resolve_end_page_id_value dataset end_page_id w) as Hres.
    unfold result_of in Hres.
    destruct (resolve_end_page_id end_page_id dataset w) as [[r w1] t1].
    simpl in Hres. subst r. fold (effective_end end_page_id dataset). fold e.
    pose proof (build_images_spec dataset start_page_id e w1) as Hb.
    unfold result_of in *.
    destruct (build_images dataset start_page_id e w1) as [[r w2] t2].
    simpl in *. by subst r.
  - apply pages_in_range_sublist.
  - intros p. split.
    + intros Hp.
      destruct (pages_in_range_lookup dataset start_page_id e 0 p Hp)
        as (i & Hi & Hr).
      by exists i.
    + intros (i & Hi & Hr).
      by apply (pages_in_range_elem dataset start_page_id e 0 i p).
  - intros i Hi. split.
    + intros ->. rewrite in_range_spec. subst e. cbn [effective_end]. lia.
    + intros z -> Hz. rewrite in_range_spec. subst e. cbn [effective_end].
      apply Z.eqb_neq in Hz. by rewrite Hz.
Qed.

(** ** The OCR switch *)

Section OcrSwitch.

Context {Img Pil MfdRes OcrLine : Type}.
Variable U : @Utils Img Pil OcrLine.
Variable self : @BatchAnalyze Img Pil MfdRes OcrLine.

Lemma emits_ocr_region_switch index pil_img mfd res ilr :
  emits (ocr_event_ok (apply_ocr (model self)))
        (ocr_region U self index pil_img mfd res ilr).
Proof.
  unfold ocr_region. emits_bind as r; [emits_step|].
  destruct (crop_img U r pil_img _ _) as [new_image useful_list].
  emits_bind as out.
  { destruct (apply_ocr (model self)); by apply emits_call. }
  emits_bind as ocr_res; [destruct out; emits_step|].
  destruct ocr_res as [[|line lines]|]; repeat emits_step.
Qed.

(** X9.  The OCR switch decides how the OCR engine is called and how the
    time is labelled, for every crop of every image: with [apply_ocr] every
    call leaves [rec] out and the page's line is an "ocr time"; without it
    every call passes [rec=False] and the line is a "det time".  No call of
    the OCR engine ever passes [rec=True]. *)
Theorem ocr_switch_decides_every_call (images : list Img) w :
  Forall (fun e => ocr_event_ok (apply_ocr (model self)) e = true)
         (trace_of (BatchAnalyze_call U self images w)).
Proof.
  assert (emits (ocr_event_ok (apply_ocr (model self)))
                (BatchAnalyze_call U self images)) as H; [|exact (H w)].
  unfold BatchAnalyze_call, call_body.
  emits_bind as o; [|emits_step].
  emits_bind as ilr0.
  { eapply emits_weaken; [|apply emits_layout_stage]. by intros []. }
  emits_bind as ilr1.
  { eapply emits_weaken; [|apply emits_formula_stage]. by intros []. }
  emits_bind as u; [by apply emits_call|].
  apply emits_for_each. intros index ilr. unfold process_image.
  destruct ilr as [ilr|]; [|emits_step].
  emits_bind as layout_res; [destruct (ilr !! index); emits_step|].
  emits_bind as image; [destruct (images !! index); emits_step|].
  emits_bind as h; [emits_step|].
  destruct (get_res_list_from_layout_res U _)
    as [[ocr_res_list table_res_list] mfd].
  emits_bind as ocr_start; [emits_step|].
  emits_bind as ilr'.
  { apply emits_for_each. intros res acc. apply emits_ocr_region_switch. }
  emits_bind as now; [emits_step|].
  emits_bind as u0.
  { apply emits_call. by destruct (apply_ocr (model self)). }
  emits_bind as u'; [by apply emits_table_stage|emits_step].
Qed.

End OcrSwitch.

(** ** The test on the markup *)

Lemma closing_tag_ends tag :
  tag ∈ closing_tags ->
  tag <> [] /\
  (forall c, head tag = Some c -> ~ is_white c) /\
  (forall c, last tag = Some c -> ~ is_white c).
Proof.
  intros H.
  apply elem_of_cons in H as [->|H];
    [|apply elem_of_cons in H as [->|H]; [|by apply elem_of_nil in H]].
  all: split; [done|].
  all: split; intros c Hc; vm_compute in Hc; injection Hc as <-.
  all: rewrite <- isspace_white; by vm_compute.
Qed.

(** A text that ends with a closing tag followed by white space: its
    trimmed text ends with the tag. *)
Lemma trimmed_of_tagged body tag ws :
  tag ∈ closing_tags -> Forall is_white ws ->
  exists t, trimmed (body ++ tag ++ ws) t /\ tag `suffix_of` t.
Proof.
  intros Htag Hws.
  destruct (closing_tag_ends tag Htag) as (Hne & Hhead & Hlast).
  destruct (lstrip_split body) as (l & Hl & Hwl).
  exists (PyStr.lstrip body ++ tag). split; [|by apply suffix_app_r].
  exists l, ws. split; [by rewrite Hl at 1; rewrite <- !app_assoc|].
  split; [done|]. split; [done|]. split.
  - intros c Hc. destruct (PyStr.lstrip body) as [|a b'] eqn:Hb.
    + by apply Hhead.
    + apply (lstrip_head body). rewrite Hb. exact Hc.
  - intros c Hc. apply Hlast. rewrite last_app in Hc.
    destruct (last tag) as [x|] eqn:Hx; [done|].
    apply last_None in Hx. done.
Qed.

Lemma strip_white_around ws1 s ws2 :
  Forall is_white ws1 -> Forall is_white ws2 ->
  PyStr.strip (ws1 ++ s ++ ws2) = PyStr.strip s.
Proof.
  intros H1 H2. apply trimmed_strip.
  destruct (strip_trimmed s) as (l & r & Hs & Hl & Hr & Hends).
  exists (ws1 ++ l), (r ++ ws2). split.
  - rewrite Hs at 1. by rewrite <- !app_assoc.
  - split; [by apply Forall_app|]. split; [by apply Forall_app|done].
Qed.

(** X10.  The verdict on a returned markup (lines 135-138) depends only on
    its trimmed text: white space before and after the markup never changes
    it, whether the white space is ASCII or any other white space of
    Unicode.  A markup passes exactly when it is some text, followed by
    ["</html>"] or ["</table>"], followed by white space only. *)
Theorem markup_verdict_ignores_white_space :
  (forall ws1 s ws2,
     Forall is_white ws1 -> Forall is_white ws2 ->
     markup_ok (Some (ws1 ++ s ++ ws2)) = markup_ok (Some s)) /\
  (forall s,
     markup_ok (Some s) = true <->
     exists body tag ws,
       tag ∈ closing_tags /\ Forall is_white ws /\ s = body ++ tag ++ ws).
Proof.
  split.
  - intros ws1 s ws2 H1 H2. unfold markup_ok, expected_ending.
    rewrite strip_white_around by done.
    destruct s as [|c s].
    + by rewrite andb_false_r.
    + by destruct ws1.
  - intros s. rewrite markup_ok_valid. split.
    + intros (s' & t & tag & [= <-] & Hne & Ht & Htag & [k ->]).
      destruct Ht as (l & r & -> & Hl & Hr & _).
      exists (l ++ k), tag, r. by rewrite <- !app_assoc.
    + intros (body & tag & ws & Htag & Hws & ->).
      destruct (trimmed_of_tagged body tag ws Htag Hws) as (t & Ht & Hsuf).
      exists (body ++ tag ++ ws), t, tag. split; [done|].
      split; [|done].
      destruct (closing_tag_ends tag Htag) as (Hne & _).
      destruct body; [destruct tag|]; done.
Qed.

(** ** The region lists only grow *)

Lemma grows_refl ilr : grows ilr ilr.
Proof. split; [done|]. intros i l0 H. by exists l0. Qed.

Lemma grows_trans a b c : grows a b -> grows b c -> grows a c.
Proof.
  intros [Hl1 H1] [Hl2 H2]. split; [congruence|].
  intros i l0 Hi. destruct (H1 i l0 Hi) as (l1 & Hi1 & Hp1).
  destruct (H2 i l1 Hi1) as (l2 & Hi2 & Hp2). exists l2.
  split; [done|]. by etrans.
Qed.

Lemma grows_append ilr index (new : list loc) :
  grows ilr (alter (fun layout_res => layout_res ++ new) index ilr).
Proof.
  split; [apply length_alter|]. intros i l0 Hi.
  destruct (decide (index = i)) as [->|Hne].
  - exists (l0 ++ new). rewrite list_lookup_alter_eq, Hi.
    split; [done|]. by apply prefix_app_r.
  - exists l0. by rewrite list_lookup_alter_ne.
Qed.

Lemma grows_insert ilr index layout_res (new : list loc) :
  ilr !! index = Some layout_res ->
  grows ilr (<[index := layout_res ++ new]> ilr).
Proof.
  intros Hidx. split; [apply length_insert|]. intros i l0 Hi.
  destruct (decide (index = i)) as [->|Hne].
  - exists (layout_res ++ new).
    rewrite list_lookup_insert_eq by (by eapply lookup_lt_Some).
    split; [done|]. rewrite Hidx in Hi. injection Hi as <-.
    by apply prefix_app_r.
  - exists l0. by rewrite list_lookup_insert_ne.
Qed.

Section Growth.

Context {Img Pil MfdRes OcrLine : Type}.
Variable U : @Utils Img Pil OcrLine.
Variable self : @BatchAnalyze Img Pil MfdRes OcrLine.

Lemma add_formulas_grows fl i ilr0 o w o' w' t :
  grown_from ilr0 o ->
  add_formulas fl i o w = (Ok o', w', t) -> grown_from ilr0 o'.
Proof.
  intros (ilr & -> & Hg). unfold add_formulas.
  destruct (ilr !! i) as [lr|] eqn:Hi; [|done].
  destruct (fl !! i) as [f|]; [|done]. intros [= <- _ _].
  eexists. split; [done|]. eapply grows_trans; [exact Hg|].
  by apply grows_insert.
Qed.

Lemma formula_stage_grows images ilr0 o w o' w' t :
  grown_from ilr0 o ->
  formula_stage self images o w = (Ok o', w', t) -> grown_from ilr0 o'.
Proof.
  intros Hg. unfold formula_stage, call_region_lists.
  destruct (apply_formula (model self)); [|by intros [= <- _ _]].
  intros Hrun.
  apply bind_ok_inv in Hrun as (mfd & w1 & t1 & t2 & _ & Hrun & _).
  apply bind_ok_inv in Hrun as (fl & w2 & t3 & t4 & _ & Hrun & _).
  eapply (for_each_inv (grown_from ilr0)); [|exact Hg|exact Hrun].
  intros i s w3 s' w4 t5 Hs. by apply add_formulas_grows.
Qed.

Lemma ocr_region_grows index pil_img mfd res ilr w ilr' w' t :
  ocr_region U self index pil_img mfd res ilr w = (Ok ilr', w', t) ->
  grows ilr ilr'.
Proof.
  unfold ocr_region. intros Hrun.
  apply bind_ok_inv in Hrun as (r & w1 & t1 & t2 & _ & Hrun & _).
  destruct (crop_img U r pil_img _ _) as [new_image useful_list].
  apply bind_ok_inv in Hrun as (out & w2 & t3 & t4 & _ & Hrun & _).
  apply bind_ok_inv in Hrun as (ocr_res & w3 & t5 & t6 & _ & Hrun & _).
  destruct ocr_res as [[|line lines]|].
  - injection Hrun as <- _ _. apply grows_refl.
  - apply bind_ok_inv in Hrun as (ls & w4 & t7 & t8 & _ & [= <- _ _] & _).
    apply grows_append.
  - injection Hrun as <- _ _. apply grows_refl.
Qed.

Lemma process_image_grows images index ilr0 o w o' w' t :
  grown_from ilr0 o ->
  process_image U self images index o w = (Ok o', w', t) ->
  grown_from ilr0 o'.
Proof.
  intros (ilr & -> & Hg). unfold process_image. intros Hrun.
  apply bind_ok_inv in Hrun as (layout_res & w1 & t1 & t2 & _ & Hrun & _).
  apply bind_ok_inv in Hrun as (image & w2 & t3 & t4 & _ & Hrun & _).
  apply bind_ok_inv in Hrun as (h & w3 & t5 & t6 & _ & Hrun & _).
  destruct (get_res_list_from_layout_res U _)
    as [[ocr_res_list table_res_list] mfd].
  apply bind_ok_inv in Hrun as (ocr_start & w4 & t7 & t8 & _ & Hrun & _).
  apply bind_ok_inv in Hrun as (ilr' & w5 & t9 & t10 & Hocr & Hrun & _).
  apply bind_ok_inv in Hrun as (now & w6 & t11 & t12 & _ & Hrun & _).
  apply bind_ok_inv in Hrun as (u & w7 & t13 & t14 & _ & Hrun & _).
  apply bind_ok_inv in Hrun as (u' & w8 & t15 & t16 & _ & [= <- _ _] & _).
  exists ilr'. split; [done|].
  eapply (for_each_inv (grows ilr0)); [|exact Hg|exact Hocr].
  intros res s w9 s' w10 t17 Hs Hstep.
  eapply grows_trans; [exact Hs|]. by eapply ocr_region_grows.
Qed.

(** X11.  Between the layout stage and the end of a call that completes, the
    region lists only grow at their end: there are as many lists as the
    layout stage produced, and the list of each image still starts with the
    layout regions of that image, in their order.  Formula regions and OCR
    regions are appended; no region is removed, replaced or moved. *)
Theorem region_lists_only_grow (images : list Img) w ilr0 w1 t1 ilr w' t :
  layout_stage U self images w = (Ok (Some ilr0), w1, t1) ->
  call_body U self images w = (Ok (Some ilr), w', t) ->
  length ilr = length ilr0 /\
  forall i layout_res, ilr0 !! i = Some layout_res ->
    exists final, ilr !! i = Some final /\ layout_res `prefix_of` final.
Proof.
  intros Hlay Hrun. unfold call_body in Hrun.
  apply bind_ok_inv in Hrun as (o0 & w2 & t2 & t2' & Hlay' & Hrest & _).
  rewrite Hlay in Hlay'. injection Hlay' as <- <- <-.
  apply bind_ok_inv in Hrest as (o1 & w3 & t3 & t4 & Hform & Hrest & _).
  apply bind_ok_inv in Hrest as (u & w4 & t5 & t6 & _ & Hloop & _).
  assert (grown_from ilr0 (Some ilr)) as (ilr' & [= <-] & Hg); [|exact Hg].
  eapply (for_each_inv (grown_from ilr0)); [| |exact Hloop].
  - intros i s w5 s' w6 t7 Hs. by apply process_image_grows.
  - eapply formula_stage_grows; [|exact Hform].
    exists ilr0. split; [done|apply grows_refl].
Qed.

End Growth.

Lemma region_lists_only_grow_witness :
  layout_stage utils yolo_ocr_only_call [7] w0
  = (Ok (Some [[0; 1]]), set_heap [text_block; text_block] w0,
     [ELayoutBatchPredict 4]) /\
  result_of (call_body utils yolo_ocr_only_call [7] w0)
  = Ok (Some [[0; 1; 2; 3]]) /\
  length [[0; 1; 2; 3]] = length [[0; 1]] /\
  forall i layout_res, [[0; 1]] !! i = Some layout_res ->
    exists final, [[0; 1; 2; 3]] !! i = Some final /\
                  layout_res `prefix_of` final.
Proof.
  assert (layout_stage utils yolo_ocr_only_call [7] w0
          = (Ok (Some [[0; 1]]), set_heap [text_block; text_block] w0,
             [ELayoutBatchPredict 4])) as Hlay by (vm_compute; reflexivity).
  split; [exact Hlay|]. split; [vm_compute; reflexivity|].
  destruct (call_body utils yolo_ocr_only_call [7] w0) as [[r w'] t] eqn:Hrun.
  assert (r = Ok (Some [[0; 1; 2; 3]])) as ->.
  { change r with (result_of (r, w', t)). rewrite <- Hrun.
    vm_compute; reflexivity. }
  exact (region_lists_only_grow utils yolo_ocr_only_call [7] w0
           [[0; 1]] _ _ [[0; 1; 2; 3]] w' t Hlay Hrun).
Defined.

(** ** A table model name that selects no backend *)

Section UnknownTable.

Context {Img Pil MfdRes OcrLine : Type}.
Variable U : @Utils Img Pil OcrLine.
Variable self : @BatchAnalyze Img Pil MfdRes OcrLine.

Lemma table_html_code_unknown new_image w :
  unknown_table_model U self ->
  table_html_code U self new_image w = (Ok None, w, []).
Proof.
  intros (H1 & H2 & H3). unfold table_html_code.
  apply String.eqb_neq in H1. apply String.eqb_neq in H2.
  apply String.eqb_neq in H3. by rewrite H1, H2, H3.
Qed.

Lemma table_region_unknown pil_img res w :
  unknown_table_model U self ->
  table_region U self pil_img res w =
  (Ok tt, tick (tick w),
   budget_warning (table_max_time (model self))
                  (wall w (S (ticks w)) - wall w (ticks w))
   ++ [ELog Warning TableNoHtmlReturn]).
Proof.
  intros Hu. rewrite (table_region_run U self pil_img res w None []).
  - by rewrite attach_html_run.
  - intros w'. by apply table_html_code_unknown.
Qed.

Lemma table_loop_unknown pil_img table_res_list w :
  unknown_table_model U self ->
  exists w' t,
    for_each table_res_list (fun res _ => table_region U self pil_img res) tt w
    = (Ok tt, w', t) /\
    heap w' = heap w /\
    Forall (fun e => is_table_call e = false) t /\
    length (List.filter is_no_html_warning t) = length table_res_list.
Proof.
  intros Hu. revert w.
  induction table_res_list as [|res l IH]; intros w.
  - exists w, []. by repeat split.
  - cbn [for_each]. rewrite run_bind, table_region_unknown by done.
    cbn iota beta. destruct (IH (tick (tick w))) as (w' & t & -> & Hh & Ht & Hn).
    eexists _, _. split; [done|]. split; [done|].
    unfold budget_warning. destruct (_ >? _)%Z; cbn [app List.filter
      is_no_html_warning length]; rewrite ?Hn; split; by repeat constructor.
Qed.

(** X12.  With table recognition enabled and a table model name that is
    none of the three names of lines 116-125, the table stage of an image
    calls no backend and sets no ["html"] key: it leaves the heap as it was
    and logs the warning "not get html return" once for every table
    candidate. *)
Theorem unknown_table_model_only_warns pil_img table_res_list w :
  apply_table (model self) = true ->
  unknown_table_model U self ->
  exists w' t,
    table_stage U self pil_img table_res_list w = (Ok tt, w', t) /\
    heap w' = heap w /\
    Forall (fun e => is_table_call e = false) t /\
    length (List.filter is_no_html_warning t) = length table_res_list.
Proof.
  intros Htab Hu. unfold table_stage. rewrite Htab.
  rewrite run_bind, run_time_time. cbn iota beta.
  destruct (table_loop_unknown pil_img table_res_list (tick w) Hu)
    as (w1 & t1 & Hloop & Hh & Ht & Hn).
  rewrite run_bind, Hloop. cbn iota beta.
  rewrite run_bind, run_time_time. cbn iota beta. rewrite run_emit.
  cbn [app]. eexists _, _. split; [done|]. split; [done|]. split.
  - apply Forall_app. split; [done|by repeat constructor].
  - rewrite List.filter_app, length_app, Hn. simpl. lia.
Qed.

End UnknownTable.

Lemma unknown_table_model_only_warns_witness :
  apply_table (model {| model := unknown_table; batch_ratio := 1 |}) = true /\
  unknown_table_model utils {| model := unknown_table; batch_ratio := 1 |} /\
  exists w' t,
    table_stage utils {| model := unknown_table; batch_ratio := 1 |} 7 [0]
                w_table = (Ok tt, w', t) /\
    heap w' = heap w_table /\
    Forall (fun e => is_table_call e = false) t /\
    length (List.filter is_no_html_warning t) = length [0].
Proof.
  assert (unknown_table_model utils
            {| model := unknown_table; batch_ratio := 1 |}) as Hu.
  { by repeat split. }
  split; [reflexivity|]. split; [exact Hu|].
  exact (unknown_table_model_only_warns utils
           {| model := unknown_table; batch_ratio := 1 |} 7 [0] w_table
           eq_refl Hu).
Defined.

(** ** How often the stage models are called *)

Lemma trace_bind {A B} (m : M A) (f : A -> M B) w :
  trace_of ((m ≫= f) w) =
  trace_of (m w) ++
  match result_of (m w) with
  | Ok a => trace_of (f a (world_of (m w)))
  | Raise _ => []
  end.
Proof.
  rewrite run_bind. destruct (m w) as [[[a|e] w1] t1];
    unfold trace_of, result_of, world_of; cbn [fst snd].
  - by destruct (f a w1) as [[??]?].
  - by rewrite app_nil_r.
Qed.

Lemma filter_emits {A} (P : event -> bool) (m : M A) w :
  emits (fun e => negb (P e)) m -> List.filter P (trace_of (m w)) = [].
Proof.
  intros H. specialize (H w). induction H as [|e t He Ht IH]; [done|].
  simpl. apply negb_true_iff in He. by rewrite He.
Qed.

(** A computation that performs no call and logs nothing. *)
Lemma silent_trace {A} (m : M A) w :
  emits (fun _ => false) m -> trace_of (m w) = [].
Proof.
  intros H. specialize (H w). by destruct H as [|e t He Ht].
Qed.

Lemma made_in_order_all {A} P calls (r : outcome A * world * list event) :
  List.filter P (trace_of r) = calls -> made_in_order P calls r.
Proof. intros <-. by split. Qed.

Section StageCalls.

Context {Img Pil MfdRes OcrLine : Type}.
Variable U : @Utils Img Pil OcrLine.
Variable self : @BatchAnalyze Img Pil MfdRes OcrLine.

Lemma emits_layout_stage_sized P images :
  P ELayoutModel = true ->
  P (ELayoutBatchPredict (batch_ratio self * YOLO_LAYOUT_BASE_BATCH_SIZE))
  = true ->
  emits P (layout_stage U self images).
Proof.
  intros H1 H2. unfold layout_stage, call_regions, call_region_lists.
  repeat match goal with
         | |- context [String.eqb ?a ?b] => destruct (String.eqb a b)
         end.
  - emits_bind as ilr; [|emits_step].
    apply emits_for_each. intros image acc.
    emits_bind as lr; [|emits_step].
    emits_bind as rs; [by apply emits_call|emits_step].
  - emits_bind as ilr; [|emits_step].
    emits_bind as rss; [by apply emits_call|emits_step].
  - emits_step.
Qed.

Lemma emits_add_formulas P fl i o : emits P (add_formulas fl i o).
Proof.
  unfold add_formulas. destruct o as [ilr|]; [|emits_step].
  destruct (ilr !! i); [|emits_step]. destruct (fl !! i); emits_step.
Qed.

Lemma emits_formula_stage_sized P images ilr :
  P (EMfdBatchPredict (batch_ratio self * MFD_BASE_BATCH_SIZE)) = true ->
  P (EMfrBatchPredict (batch_ratio self * MFR_BASE_BATCH_SIZE)) = true ->
  emits P (formula_stage self images ilr).
Proof.
  intros H1 H2. unfold formula_stage, call_region_lists.
  destruct (apply_formula (model self)); [|emits_step].
  emits_bind as mfd; [by apply emits_call|].
  emits_bind as fl.
  { emits_bind as rss; [by apply emits_call|emits_step]. }
  apply emits_for_each. intros i o. apply emits_add_formulas.
Qed.

(** What follows the formula stage calls neither the layout model nor the
    formula models. *)
Lemma emits_per_image_loop P images o :
  (forall e, is_per_image_event e = true -> P e = true) ->
  (forall device vram_threshold, P (ECleanVram device vram_threshold) = true) ->
  emits P (_ ← emit (ECleanVram (device (model self)) 8);
           for_each (seq 0 (length images)) (process_image U self images) o).
Proof.
  intros H1 H2. emits_bind as u; [by apply emits_call|].
  apply emits_for_each. intros index ilr.
  eapply emits_weaken; [exact H1|apply emits_process_image].
Qed.

Lemma layout_loop_trace (images : list Img) acc w :
  trace_of
    (for_each images (fun image images_layout_res =>
       layout_res ←
         call_regions ELayoutModel (layout_model (model self) image []);
       mret (images_layout_res ++ [layout_res])) acc w)
  = replicate (length images) ELayoutModel.
Proof.
  revert acc w. induction images as [|image images IH]; intros acc w; [done|].
  cbn [for_each length replicate]. rewrite trace_bind.
  unfold call_regions. rewrite !run_bind, run_call. cbn iota beta.
  rewrite alloc_list_run. cbn iota beta. rewrite run_ret.
  unfold result_of, world_of, trace_of at 1. cbn [fst snd app].
  f_equal. apply IH.
Qed.

Lemma layout_stage_trace images w :
  trace_of (layout_stage U self images w) =
  if String.eqb (layout_model_name (model self)) (LAYOUTLMv3 (MODEL_NAME U))
  then replicate (length images) ELayoutModel
  else if String.eqb (layout_model_name (model self))
                     (DocLayout_YOLO (MODEL_NAME U))
  then [ELayoutBatchPredict (batch_ratio self * 4)]
  else [].
Proof.
  unfold layout_stage.
  destruct (String.eqb _ (LAYOUTLMv3 _)).
  { rewrite trace_bind, layout_loop_trace.
    destruct (result_of _); [|by rewrite app_nil_r].
    by rewrite app_nil_r. }
  destruct (String.eqb _ (DocLayout_YOLO _)); [|done].
  unfold call_region_lists. rewrite !run_bind, run_call. cbn iota beta.
  rewrite alloc_lists_run. cbn iota beta. by rewrite run_ret.
Qed.

Lemma formula_stage_trace images o w :
  trace_of (formula_stage self images o w) =
  if apply_formula (model self)
  then [EMfdBatchPredict (batch_ratio self);
        EMfrBatchPredict (batch_ratio self * 16)]
  else [].
Proof.
  unfold formula_stage. destruct (apply_formula (model self)); [|done].
  rewrite trace_bind, run_call.
  unfold result_of, world_of, trace_of at 1. cbn [fst snd].
  rewrite trace_bind. unfold call_region_lists.
  rewrite !run_bind, run_call. cbn iota beta.
  rewrite alloc_lists_run. cbn iota beta.
  unfold result_of, world_of, trace_of at 1. cbn [fst snd].
  rewrite silent_trace
    by (apply emits_for_each; intros i s; apply emits_add_formulas).
  unfold MFD_BASE_BATCH_SIZE, MFR_BASE_BATCH_SIZE. by rewrite Z.mul_1_r.
Qed.

Lemma BatchAnalyze_call_trace images w :
  trace_of (BatchAnalyze_call U self images w)
  = trace_of (call_body U self images w).
Proof.
  unfold BatchAnalyze_call. rewrite trace_bind.
  destruct (result_of _); by rewrite app_nil_r.
Qed.

Lemma filter_none (P : event -> bool) t :
  Forall (fun e => P e = false) t -> List.filter P t = [].
Proof. induction 1 as [|e t He Ht IH]; [done|]. simpl. by rewrite He. Qed.

Lemma filter_all (P : event -> bool) t :
  Forall (fun e => P e = true) t -> List.filter P t = t.
Proof.
  induction 1 as [|e t He Ht IH]; [done|]. simpl. by rewrite He, IH.
Qed.

(** What follows the layout stage calls no layout model. *)
Lemma emits_after_layout images o :
  emits (fun e => negb (is_layout_call e))
        (images_layout_res ← formula_stage self images o;
         _ ← emit (ECleanVram (device (model self)) 8);
         for_each (seq 0 (length images)) (process_image U self images)
                  images_layout_res).
Proof.
  emits_bind as o1; [by apply emits_formula_stage_sized|].
  apply emits_per_image_loop; [by intros []|done].
Qed.

(** The layout calls of a call are those of its layout stage. *)
Lemma layout_calls_of_call images w :
  List.filter is_layout_call (trace_of (BatchAnalyze_call U self images w))
  = trace_of (layout_stage U self images w).
Proof.
  rewrite BatchAnalyze_call_trace. unfold call_body.
  rewrite trace_bind, List.filter_app.
  rewrite (filter_all is_layout_call)
    by (by apply emits_layout_stage_sized).
  destruct (result_of (layout_stage U self images w)) as [o|e];
    [|by rewrite app_nil_r].
  by rewrite (filter_emits is_layout_call _ _ (emits_after_layout images o)),
       app_nil_r.
Qed.

(** The formula calls of a call are those of its formula stage, when the
    layout stage got that far. *)
Lemma formula_calls_of_call images w :
  List.filter is_formula_call (trace_of (BatchAnalyze_call U self images w))
  = match result_of (layout_stage U self images w) with
    | Ok o =>
      trace_of (formula_stage self images o
                  (world_of (layout_stage U self images w)))
    | Raise _ => []
    end.
Proof.
  rewrite BatchAnalyze_call_trace. unfold call_body.
  rewrite trace_bind, List.filter_app.
  rewrite (filter_emits is_formula_call (layout_stage U self images))
    by (by apply emits_layout_stage_sized).
  destruct (result_of (layout_stage U self images w)) as [o|e]; [|done].
  rewrite trace_bind, List.filter_app. cbn [app].
  rewrite (filter_all is_formula_call)
    by (by apply emits_formula_stage_sized).
  destruct (result_of (formula_stage self images o _)) as [o1|e];
    [|by rewrite app_nil_r].
  rewrite filter_emits; [by rewrite app_nil_r|].
  apply emits_per_image_loop; [by intros []|done].
Qed.

Lemma call_raises_with_layout images w e :
  result_of (layout_stage U self images w) = Raise e ->
  result_of (BatchAnalyze_call U self images w) = Raise e.
Proof.
  unfold BatchAnalyze_call, call_body, result_of. rewrite !run_bind.
  by destruct (layout_stage U self images w) as [[[o|e'] w1] t1];
    simpl; intros [= ->].
Qed.

(** X13.  Which stage models an orchestrator call calls, and how.  In a
    call that completes: under the name [LAYOUTLMv3] the layout model was
    called once per image and never in batch; under [DocLayout_YOLO] it was
    called once for the whole batch, with the batch size 4 times the ratio,
    also when the batch is empty; under any other name it was not called.
    With [apply_formula] the formula detector was called once, with the
    ratio as its batch size, and then the formula recogniser once, with 16
    times the ratio; without it neither was called.  In a call that raises,
    the calls that were made are some first of these, in the same order: no
    stage model is called more often than in a call that completes, and the
    recogniser is not called before the detector. *)
Theorem stage_models_called_per_batch (images : list Img) w :
  let r := BatchAnalyze_call U self images w in
  let name := layout_model_name (model self) in
  (name = LAYOUTLMv3 (MODEL_NAME U) ->
   made_in_order is_layout_call (replicate (length images) ELayoutModel) r) /\
  (name <> LAYOUTLMv3 (MODEL_NAME U) ->
   name = DocLayout_YOLO (MODEL_NAME U) ->
   made_in_order is_layout_call
     [ELayoutBatchPredict (batch_ratio self * 4)] r) /\
  (~ recognised_layout U self -> made_in_order is_layout_call [] r) /\
  made_in_order is_formula_call
    (if apply_formula (model self)
     then [EMfdBatchPredict (batch_ratio self);
           EMfrBatchPredict (batch_ratio self * 16)]
     else []) r.
Proof.
  intros r name. subst r name.
  split; [|split; [|split]].
  - intros H. apply String.eqb_eq in H. apply made_in_order_all.
    by rewrite layout_calls_of_call, layout_stage_trace, H.
  - intros H1 H2. apply String.eqb_neq in H1. apply String.eqb_eq in H2.
    apply made_in_order_all.
    by rewrite layout_calls_of_call, layout_stage_trace, H1, H2.
  - intros Hrec. apply made_in_order_all.
    rewrite layout_calls_of_call, layout_stage_trace.
    destruct (String.eqb _ (LAYOUTLMv3 _)) eqn:H1.
    { apply String.eqb_eq in H1. destruct Hrec. by left. }
    destruct (String.eqb _ (DocLayout_YOLO _)) eqn:H2; [|done].
    apply String.eqb_eq in H2. destruct Hrec. by right.
  - destruct (result_of (layout_stage U self images w)) as [o|e] eqn:Hlay.
    + apply made_in_order_all.
      by rewrite formula_calls_of_call, Hlay, formula_stage_trace.
    + unfold made_in_order. rewrite formula_calls_of_call, Hlay.
      split; [apply prefix_nil|]. intros a Ha.
      by rewrite (call_raises_with_layout images w e Hlay) in Ha.
Qed.

End StageCalls.

(** ** What the driver asks of its collaborators *)

Section DriverRequests.

Context {Img Pil MfdRes OcrLine : Type}.
Variable U : @Utils Img Pil OcrLine.
Variable env : @Env Img Pil MfdRes OcrLine.

Lemma resolve_end_page_id_trace (dataset : Dataset Img) end_page_id w :
  exists t,
    resolve_end_page_id end_page_id dataset w
    = (Ok (effective_end end_page_id dataset), w, t) /\
    Forall (fun e => e = EDatasetLen) t.
Proof.
  unfold resolve_end_page_id, effective_end.
  destruct end_page_id as [e|]; [destruct (e =? 0)%Z|].
  - exists [EDatasetLen]. split; [done|by repeat constructor].
  - exists []. split; [done|constructor].
  - exists [EDatasetLen]. split; [done|by repeat constructor].
Qed.

Lemma emits_get_page_image_any P (dataset : Dataset Img) index :
  (forall i, P (EGetPage i) = true) ->
  emits P (get_page_image dataset index).
Proof.
  intros HP. unfold get_page_image. destruct (dataset !! index).
  - by apply emits_call.
  - emits_bind as u; [by apply emits_call|emits_step].
Qed.

Lemma emits_build_images_any P (dataset : Dataset Img) s e :
  P EDatasetLen = true -> (forall i, P (EGetPage i) = true) ->
  emits P (build_images dataset s e).
Proof.
  intros H1 H2. unfold build_images. emits_bind as n; [by apply emits_call|].
  apply emits_for_each. intros index images.
  destruct (in_range s index e); [|emits_step].
  emits_bind as d; [by apply emits_get_page_image_any|emits_step].
Qed.

Lemma emits_page_record_any P (dataset : Dataset Img) s e index st :
  (forall i, P (EGetPage i) = true) ->
  emits P (page_record dataset s e index st).
Proof.
  intros HP. unfold page_record. destruct st as [a mj].
  emits_bind as d; [by apply emits_get_page_image_any|]. cbn zeta.
  emits_bind as ra; [|destruct ra as [result rest]; apply emits_ret].
  destruct (in_range s index e); [|apply emits_ret].
  destruct a as [|[|result rest]]; cbn [pop0];
    [apply emits_raise|apply emits_raise|apply emits_ret].
Qed.

Lemma emits_BatchAnalyze_call_sized
  (self : @BatchAnalyze Img Pil MfdRes OcrLine) images :
  emits (batch_event_ok (batch_ratio self)) (BatchAnalyze_call U self images).
Proof.
  unfold BatchAnalyze_call, call_body.
  emits_bind as o; [|emits_step].
  emits_bind as ilr0.
  { apply emits_layout_stage_sized; [done|].
    unfold YOLO_LAYOUT_BASE_BATCH_SIZE. simpl. apply Z.eqb_eq. lia. }
  emits_bind as ilr1.
  { apply emits_formula_stage_sized;
      unfold MFD_BASE_BATCH_SIZE, MFR_BASE_BATCH_SIZE; simpl;
      apply Z.eqb_eq; lia. }
  apply emits_per_image_loop; [by intros []|done].
Qed.

(** X14.  With the accelerator available, the driver asks for the model
    exactly once, before any page is read and after at most a look at the
    length of the dataset.  The request passes the arguments of the driver
    on, with the empty language string replaced by [None].  Every batched
    model call that follows uses the batch ratio of the driver, 1 when
    [batch_ratio] is [None]: 4 times the ratio for the layout model, the
    ratio for the formula detector, 16 times the ratio for the formula
    recogniser. *)
Theorem driver_requests_the_model_once dataset ocr show_log start_page_id
  end_page_id lang layout_model formula_enable table_enable batch_ratio w :
  cuda_is_available env = true ->
  exists pre lang' post,
    trace_of (doc_batch_analyze U env dataset ocr show_log start_page_id
                end_page_id lang layout_model formula_enable table_enable
                batch_ratio w)
    = pre ++ EGetModel ocr show_log lang' layout_model formula_enable
                       table_enable :: post /\
    (lang = Some EmptyString -> lang' = None) /\
    (lang <> Some EmptyString -> lang' = lang) /\
    Forall (fun e => e = EDatasetLen) pre /\
    Forall (fun e => batch_event_ok (default 1%Z batch_ratio) e = true) post.
Proof.
  intros Hcuda. unfold doc_batch_analyze. rewrite Hcuda. cbn [negb].
  set (lang' := match lang with
                | Some s => if String.eqb s EmptyString then None else lang
                | None => lang
                end).
  set (ratio := match batch_ratio with
                | Some b => b
                | None => 1%Z
                end).
  cbn zeta. rewrite trace_bind.
  destruct (resolve_end_page_id_trace dataset end_page_id w)
    as (pre & Hres & Hpre).
  rewrite Hres. unfold result_of, world_of, trace_of at 1. cbn [fst snd].
  rewrite trace_bind, run_call.
  unfold result_of, world_of, trace_of at 1. cbn [fst snd app].
  exists pre, lang'. eexists. split; [reflexivity|].
  split; [|split; [|split; [exact Hpre|]]].
  - intros ->. done.
  - intros Hne. subst lang'. destruct lang as [s|]; [|done].
    destruct (String.eqb s EmptyString) eqn:E; [|done].
    apply String.eqb_eq in E. by subst s.
  - replace (default 1%Z batch_ratio) with ratio by (by destruct batch_ratio).
    match goal with
    | |- Forall _ (trace_of (?m w)) =>
      assert (emits (batch_event_ok ratio) m) as H; [|exact (H w)]
    end.
    emits_bind as images; [by apply emits_build_images_any|].
    emits_bind as analyze_result.
    { apply (emits_BatchAnalyze_call_sized
               {| model := get_model env ocr show_log lang' layout_model
                             formula_enable table_enable;
                  batch_ratio := ratio |}). }
    emits_bind as n; [by apply emits_call|].
    emits_bind as st.
    { apply emits_for_each. intros index st.
      by apply emits_page_record_any. }
    destruct st as [a mj]. emits_bind as u; [by apply emits_call|emits_step].
Qed.

End DriverRequests.

Lemma driver_requests_the_model_once_witness :
  cuda_is_available (env_with true yolo_ocr_only) = true /\
  exists pre lang' post,
    trace_of (doc_batch_analyze utils (env_with true yolo_ocr_only)
                [page 7] true false 0 None (Some EmptyString) None None None
                None w0)
    = pre ++ EGetModel true false lang' None None None :: post /\
    (Some EmptyString = Some EmptyString -> lang' = None) /\
    (Some EmptyString <> Some EmptyString -> lang' = Some EmptyString) /\
    Forall (fun e => e = EDatasetLen) pre /\
    Forall (fun e => batch_event_ok (default 1%Z None) e = true) post.
Proof.
  split; [reflexivity|].
  exact (driver_requests_the_model_once utils (env_with true yolo_ocr_only)
           [page 7] true false 0%Z None (Some EmptyString) None None None
           None w0 eq_refl).
Defined.

(** ** Pages on which the OCR engine finds nothing *)

Lemma attach_html_length res html_code w :
  length (heap (world_of (attach_html res html_code w))) = length (heap w).
Proof.
  rewrite attach_html_run.
  destruct html_code as [s|]; [destruct (markup_ok (Some s))|]; try done.
  unfold world_of. cbn [fst snd set_heap heap]. apply length_alter.
Qed.

Section NoText.

Context {Img Pil MfdRes OcrLine : Type}.
Variable U : @Utils Img Pil OcrLine.
Variable self : @BatchAnalyze Img Pil MfdRes OcrLine.

Hypothesis no_text : forall new_image mfd_res rec,
  finds_no_text (ocr_model_ocr (model self) new_image mfd_res rec) = true.

Lemma ocr_region_no_text index pil_img mfd res ilr w :
  exists t, ocr_region U self index pil_img mfd res ilr w = (Ok ilr, w, t).
Proof.
  unfold ocr_region. rewrite run_bind, run_read. cbn iota beta.
  destruct (crop_img U _ pil_img _ _) as [new_image useful_list].
  rewrite run_bind.
  destruct (apply_ocr (model self)); rewrite run_call; cbn iota beta;
    match goal with
    | |- context [ocr_model_ocr ?m ?a ?b ?c] =>
      pose proof (no_text a b c) as H;
      destruct (ocr_model_ocr m a b c) as [|[[|line lines]|] rest]
    end; try done;
    rewrite run_bind, run_ret; cbn iota beta; rewrite run_ret;
    by eexists.
Qed.

Lemma ocr_loop_no_text index pil_img mfd ocr_res_list ilr w :
  exists t,
    for_each ocr_res_list (ocr_region U self index pil_img mfd) ilr w
    = (Ok ilr, w, t).
Proof.
  induction ocr_res_list as [|res l IH]; [by eexists|].
  cbn [for_each]. rewrite run_bind.
  destruct (ocr_region_no_text index pil_img mfd res ilr w) as [t1 ->].
  cbn iota beta. destruct IH as [t2 ->]. by eexists.
Qed.

Lemma table_region_length pil_img res w :
  exists w' t,
    table_region U self pil_img res w = (Ok tt, w', t) /\
    length (heap w') = length (heap w).
Proof.
  destruct (table_html_code_run U self
              (crop_img U (deref (heap w) res) pil_img None None).1)
    as (html_code & t0 & Hb).
  rewrite (table_region_run U self pil_img res w html_code t0 Hb).
  eexists _, _. split; [done|]. by rewrite attach_html_length.
Qed.

Lemma table_stage_length pil_img table_res_list w :
  exists w' t,
    table_stage U self pil_img table_res_list w = (Ok tt, w', t) /\
    length (heap w') = length (heap w).
Proof.
  unfold table_stage. destruct (apply_table (model self)); [|by eexists _, _].
  rewrite run_bind, run_time_time. cbn iota beta. rewrite run_bind.
  assert (forall l w0, exists w' t,
            for_each l (fun res _ => table_region U self pil_img res) tt w0
            = (Ok tt, w', t) /\ length (heap w') = length (heap w0)) as Hloop.
  { induction l as [|res l IH]; intros w0; [by eexists _, _|].
    cbn [for_each]. rewrite run_bind.
    destruct (table_region_length pil_img res w0) as (w1 & t1 & -> & H1).
    cbn iota beta. destruct (IH w1) as (w2 & t2 & -> & H2).
    eexists _, _. split; [done|]. congruence. }
  destruct (Hloop table_res_list (tick w)) as (w1 & t1 & -> & H1).
  cbn iota beta. rewrite run_bind, run_time_time. cbn iota beta.
  rewrite run_emit. eexists _, _. split; [done|]. exact H1.
Qed.

Lemma process_image_no_text images index ilr w :
  index < length ilr -> index < length images ->
  exists w' t,
    process_image U self images index (Some ilr) w = (Ok (Some ilr), w', t) /\
    length (heap w') = length (heap w).
Proof.
  intros H1 H2. unfold process_image.
  destruct (lookup_lt_is_Some_2 ilr index H1) as [layout_res ->].
  destruct (lookup_lt_is_Some_2 images index H2) as [image ->].
  rewrite run_bind, run_ret. cbn iota beta.
  rewrite run_bind, run_ret. cbn iota beta.
  rewrite run_bind. unfold heap_now at 1. cbn iota beta.
  destruct (get_res_list_from_layout_res U _)
    as [[ocr_res_list table_res_list] mfd].
  rewrite run_bind, run_time_time. cbn iota beta. rewrite run_bind.
  destruct (ocr_loop_no_text index (fromarray U image) mfd ocr_res_list ilr
              (tick w)) as [t1 ->].
  cbn iota beta. rewrite run_bind, run_time_time. cbn iota beta.
  rewrite run_bind, run_emit. cbn iota beta. rewrite run_bind.
  destruct (table_stage_length (fromarray U image) table_res_list
              (tick (tick w))) as (w1 & t2 & -> & Hlen).
  cbn iota beta. rewrite run_ret. eexists _, _. split; [done|]. exact Hlen.
Qed.

Lemma image_loop_no_text images idxs ilr w :
  Forall (fun index => index < length ilr /\ index < length images) idxs ->
  exists w' t,
    for_each idxs (process_image U self images) (Some ilr) w
    = (Ok (Some ilr), w', t) /\
    length (heap w') = length (heap w).
Proof.
  intros Hall. revert w.
  induction Hall as [|index idxs [H1 H2] Hall IH]; intros w;
    [by eexists _, _|].
  cbn [for_each]. rewrite run_bind.
  destruct (process_image_no_text images index ilr w H1 H2)
    as (w1 & t1 & -> & Hl1).
  cbn iota beta. destruct (IH w1) as (w2 & t2 & -> & Hl2).
  eexists _, _. split; [done|]. congruence.
Qed.

(** X15.  A batch on which the OCR engine finds no text (the first entry of
    each of its answers is [None] or empty), with formula recognition off
    and with a list for every image from the layout stage: the call
    completes, the region lists it has built are the lists of the layout
    stage, unchanged, and no region dict was created after the layout
    stage. *)
Theorem text_free_batch_keeps_layout (images : list Img) w ilr0 w1 t1 :
  apply_formula (model self) = false ->
  layout_stage U self images w = (Ok (Some ilr0), w1, t1) ->
  length images <= length ilr0 ->
  exists w' t,
    call_body U self images w = (Ok (Some ilr0), w', t) /\
    length (heap w') = length (heap w1).
Proof.
  intros Hf Hlay Hlen. unfold call_body.
  rewrite run_bind, Hlay. cbn iota beta.
  rewrite run_bind, formula_stage_off by done. cbn iota beta.
  rewrite run_bind, run_emit. cbn iota beta.
  destruct (image_loop_no_text images (seq 0 (length images)) ilr0 w1)
    as (w2 & t2 & -> & Hl).
  { apply Forall_forall. intros i Hi. apply elem_of_seq in Hi. lia. }
  eexists _, _. split; [done|]. exact Hl.
Qed.

End NoText.

Lemma text_free_batch_keeps_layout_witness :
  (forall new_image mfd_res rec,
     finds_no_text (ocr_model_ocr ocr_finds_nothing new_image mfd_res rec)
     = true) /\
  apply_formula ocr_finds_nothing = false /\
  layout_stage utils {| model := ocr_finds_nothing; batch_ratio := 1 |} [7] w0
  = (Ok (Some [[0; 1]]), set_heap [text_block; table_block] w0,
     [ELayoutBatchPredict 4]) /\
  length [7] <= length [[0; 1]] /\
  exists w' t,
    call_body utils {| model := ocr_finds_nothing; batch_ratio := 1 |} [7] w0
    = (Ok (Some [[0; 1]]), w', t) /\
    length (heap w') = length (heap (set_heap [text_block; table_block] w0)).
Proof.
  assert (forall new_image mfd_res rec,
            finds_no_text
              (ocr_model_ocr
                 (model {| model := ocr_finds_nothing; batch_ratio := 1 |})
                 new_image mfd_res rec) = true) as Hocr by done.
  assert (layout_stage utils
            {| model := ocr_finds_nothing; batch_ratio := 1 |} [7] w0
          = (Ok (Some [[0; 1]]), set_heap [text_block; table_block] w0,
             [ELayoutBatchPredict 4])) as Hlay by (vm_compute; reflexivity).
  split; [exact Hocr|]. split; [reflexivity|]. split; [exact Hlay|].
  split; [simpl; lia|].
  exact (text_free_batch_keeps_layout utils
           {| model := ocr_finds_nothing; batch_ratio := 1 |} Hocr [7] w0
           [[0; 1]] _ _ eq_refl Hlay ltac:(simpl; lia)).
Defined.
